(** * pyjstat: the JSON-stat cube codec, embedded and verified

    A shallow embedding of [pyjstat/pyjstat.py].  Python objects read from
    JSON are values of [json]; an [OrderedDict] is an association list in
    insertion order; a raised exception is the [Raise] branch of [result].
    The pandas and numpy calls of the module are embedded with the behaviour
    of the library versions the module runs on (pandas before 1.0, which
    still has [sort_index(by=...)]).  JSON numbers are integers here:
    floating-point values and booleans are outside the embedded fragment.
    [int] and [float] of a string are embedded as Python 3.6 and later
    read a string of ASCII characters; the properties that rest on a
    string being no numeral are stated for strings of ASCII characters.

    The file has four parts: the embedding of the module, function by
    function under the names of the source; the definitions the properties
    are stated with; the proofs of the properties the specification
    states; further properties of the functions, read off the source. *)

From Stdlib Require Import ZArith List String Ascii Bool Lia Permutation
  Sorted.
From Stdlib Require Import DecimalString.
Import ListNotations.

Local Open Scope Z_scope.
Local Open Scope list_scope.

(** ** Exceptions and the error monad *)

Inductive exn : Type :=
| KeyError | IndexError | ValueError | TypeError | AttributeError
| OverflowError | NameError | RecursionError.

Inductive result (A : Type) : Type :=
| Ok (a : A)
| Raise (e : exn).
Arguments Ok {A} a.
Arguments Raise {A} e.

Definition bind {A B} (m : result A) (k : A -> result B) : result B :=
  match m with
  | Ok a => k a
  | Raise e => Raise e
  end.

Notation "x <- m ;; k" := (bind m (fun x => k))
  (at level 61, m at next level, right associativity).
Notation "' p <- m ;; k" := (bind m (fun x => match x with p => k end))
  (at level 61, p pattern, m at next level, right associativity).

Definition exn_eqb (a b : exn) : bool :=
  match a, b with
  | KeyError, KeyError | IndexError, IndexError | ValueError, ValueError
  | TypeError, TypeError | AttributeError, AttributeError
  | OverflowError, OverflowError | NameError, NameError
  | RecursionError, RecursionError => true
  | _, _ => false
  end.

(** [try: m  except e: h] *)
Definition try_except {A} (m : result A) (e : exn) (h : result A) : result A :=
  match m with
  | Ok a => Ok a
  | Raise e' => if exn_eqb e' e then h else Raise e'
  end.

(** Monadic map over a list, left to right. *)
Fixpoint mapM {A B} (f : A -> result B) (l : list A) : result (list B) :=
  match l with
  | [] => Ok []
  | x :: r => y <- f x ;; ys <- mapM f r ;; Ok (y :: ys)
  end.

(** ** Python values *)

(** Scalars: [None], integers and strings.  Numeric cell values are carried
    as integers: the codec never computes with a value, it only tests it for
    null and moves it. *)
Inductive scalar : Type :=
| SNone
| SInt (z : Z)
| SStr (s : string).

#[local] Set Warnings "-register-all".
Inductive json : Type :=
| JAtom (a : scalar)
| JList (l : list json)
| JDict (d : list (string * json)).

Coercion JAtom : scalar >-> json.

Abbreviation JNull := (JAtom SNone).
Abbreviation JInt z := (JAtom (SInt z)).
Abbreviation JStr s := (JAtom (SStr s)).

Definition scalar_eqb (a b : scalar) : bool :=
  match a, b with
  | SNone, SNone => true
  | SInt x, SInt y => Z.eqb x y
  | SStr s, SStr t => String.eqb s t
  | _, _ => false
  end.

(** *** Dictionaries: association lists in insertion order with unique keys *)

Section Dict.
Context {V : Type}.

Fixpoint dict_get (d : list (string * V)) (k : string) : option V :=
  match d with
  | [] => None
  | (k', v) :: r => if String.eqb k' k then Some v else dict_get r k
  end.

(** [d[k] = v]: a present key keeps its position, a new key goes last. *)
Fixpoint dict_set (d : list (string * V)) (k : string) (v : V)
  : list (string * V) :=
  match d with
  | [] => [(k, v)]
  | (k', v') :: r =>
      if String.eqb k' k then (k', v) :: r else (k', v') :: dict_set r k v
  end.

(** [d.update(e)], and [OrderedDict(pairs)] as [dict_update [] pairs]. *)
Definition dict_update (d e : list (string * V)) : list (string * V) :=
  fold_left (fun acc kv => dict_set acc (fst kv) (snd kv)) e d.

Definition dict_mem (d : list (string * V)) (k : string) : bool :=
  match dict_get d k with Some _ => true | None => false end.
End Dict.

(** Dictionaries with integer keys ([{int(key): value ...}]). *)
Fixpoint zdict_set {V} (d : list (Z * V)) (k : Z) (v : V) : list (Z * V) :=
  match d with
  | [] => [(k, v)]
  | (k', v') :: r =>
      if Z.eqb k' k then (k', v) :: r else (k', v') :: zdict_set r k v
  end.

Fixpoint zdict_get {V} (d : list (Z * V)) (k : Z) : option V :=
  match d with
  | [] => None
  | (k', v) :: r => if Z.eqb k' k then Some v else zdict_get r k
  end.

(** *** Strings *)

(** [s in t] for two strings: [s] occurs in [t] as a substring. *)
Fixpoint str_contains (s t : string) : bool :=
  String.prefix s t ||
  match t with
  | EmptyString => false
  | String _ t' => str_contains s t'
  end.

(** [s.isascii()]: every character is below 128. *)
Fixpoint isascii (s : string) : bool :=
  match s with
  | EmptyString => true
  | String c r => (Nat.ltb (nat_of_ascii c) 128 && isascii r)%bool
  end.

Fixpoint string_rev (s : string) : string :=
  match s with
  | EmptyString => EmptyString
  | String c r => String.append (string_rev r) (String c EmptyString)
  end.

(** The white space [int] and [float] skip around a numeral: the space
    and the characters 9 to 13.  (The separators 28 to 31, which
    [str.strip] removes, are not skipped there.) *)
Definition is_space (c : ascii) : bool :=
  let n := nat_of_ascii c in
  (Nat.eqb n 32 || (Nat.leb 9 n && Nat.leb n 13))%bool.

Fixpoint lstrip (s : string) : string :=
  match s with
  | EmptyString => EmptyString
  | String c r => if is_space c then lstrip r else s
  end.

Definition strip (s : string) : string :=
  string_rev (lstrip (string_rev (lstrip s))).

Definition digit_of (c : ascii) : option Z :=
  let n := nat_of_ascii c in
  if (Nat.leb 48 n && Nat.leb n 57)%bool then Some (Z.of_nat (n - 48))
  else None.

(** Decimal digits with single underscores between digits. *)
Fixpoint digits_value (acc : Z) (after_digit : bool) (s : string)
  : option Z :=
  match s with
  | EmptyString => if after_digit then Some acc else None
  | String c r =>
      match digit_of c with
      | Some d => digits_value (10 * acc + d) true r
      | None =>
          if (Ascii.eqb c "_" && after_digit)%bool
          then digits_value acc false r
          else None
      end
  end.

(** [int(s)] for a string of ASCII characters, as Python 3.6 and later
    read it: [None] stands for [ValueError].  Python also reads the
    decimal digits and skips the white space of other scripts; a string
    with such characters is outside the embedded fragment, and the
    properties that rest on a string not being a numeral ask for
    [isascii]. *)
Definition int_of_str (s : string) : option Z :=
  match strip s with
  | String "+" r => digits_value 0 false r
  | String "-" r => option_map Z.opp (digits_value 0 false r)
  | t => digits_value 0 false t
  end.

(** [sys.get_int_max_str_digits()]: the Python 3 releases that limit the
    length of a numeral refuse to convert more than 4300 digits, by
    default.  The embedded [int] sets no limit; the properties that rest
    on a numeral being read are stated for strings no longer than this,
    which the releases with and without the limit read alike.  (Integers
    too long to be written under the limit are outside the embedded
    fragment in the same way.) *)
Definition int_max_str_digits : nat := 4300.

(** [str(z)] for an integer. *)
Definition str_of_Z (z : Z) : string := NilZero.string_of_int (Z.to_int z).

(** [int(v)] *)
Definition py_int (v : scalar) : result Z :=
  match v with
  | SInt z => Ok z
  | SStr s => match int_of_str s with Some z => Ok z | None => Raise ValueError end
  | SNone => Raise TypeError
  end.

(** [str(v)] *)
Definition py_str (v : scalar) : string :=
  match v with
  | SNone => "None"
  | SInt z => str_of_Z z
  | SStr s => s
  end.

(** ** Scalar coercion (source lines 64-96) *)

Definition to_int (variable : scalar) : result scalar :=
  try_except (z <- py_int variable ;; Ok (SInt z)) ValueError (Ok variable).

Definition to_str (variable : scalar) : result scalar :=
  try_except (_ <- py_int variable ;; Ok (SStr (py_str variable)))
             ValueError (Ok variable).

(** ** Accessors on JSON values, with Python's exceptions *)

(** [bool(v)] *)
Definition truthy (v : json) : bool :=
  match v with
  | JNull => false
  | JInt z => negb (Z.eqb z 0)
  | JStr s => negb (String.eqb s "")
  | JList l => match l with [] => false | _ => true end
  | JDict d => match d with [] => false | _ => true end
  end.

(** [o.get(k)] with a string key; only a dict has the method. *)
Definition py_get (o : json) (k : string) : result json :=
  match o with
  | JDict d => Ok (match dict_get d k with Some v => v | None => JNull end)
  | _ => Raise AttributeError
  end.

(** [l[z]] on a list, negative indices counting from the end. *)
Definition list_index {A} (l : list A) (z : Z) : result A :=
  let n := Z.of_nat (List.length l) in
  let pos := if 0 <=? z then z else n + z in
  if (0 <=? pos) && (pos <? n) then
    match nth_error l (Z.to_nat pos) with
    | Some x => Ok x
    | None => Raise IndexError
    end
  else Raise IndexError.

Definition str_index (s : string) (z : Z) : result json :=
  let n := Z.of_nat (String.length s) in
  let pos := if 0 <=? z then z else n + z in
  if (0 <=? pos) && (pos <? n) then
    match String.get (Z.to_nat pos) s with
    | Some c => Ok (JStr (String c EmptyString))
    | None => Raise IndexError
    end
  else Raise IndexError.

(** [o[k]] *)
Definition py_getitem (o k : json) : result json :=
  match o with
  | JDict d =>
      match k with
      | JStr s => match dict_get d s with Some v => Ok v | None => Raise KeyError end
      | JAtom _ => Raise KeyError
      | _ => Raise TypeError
      end
  | JList l =>
      match k with
      | JInt z => list_index l z
      | _ => Raise TypeError
      end
  | JStr s =>
      match k with
      | JInt z => str_index s z
      | _ => Raise TypeError
      end
  | _ => Raise TypeError
  end.

Fixpoint chars (s : string) : list json :=
  match s with
  | EmptyString => []
  | String c r => JStr (String c EmptyString) :: chars r
  end.

(** [for x in o] *)
Definition py_iter (o : json) : result (list json) :=
  match o with
  | JList l => Ok l
  | JDict d => Ok (map (fun kv => JStr (fst kv)) d)
  | JStr s => Ok (chars s)
  | _ => Raise TypeError
  end.

(** [len(o)] *)
Definition py_len (o : json) : result Z :=
  l <- py_iter o ;; Ok (Z.of_nat (List.length l)).

(** [o.items()], [o.keys()], [o.values()] *)
Definition py_items (o : json) : result (list (string * json)) :=
  match o with
  | JDict d => Ok d
  | _ => Raise AttributeError
  end.

(** [k in o] for a string [k] *)
Definition py_contains (o : json) (k : string) : result bool :=
  match o with
  | JDict d => Ok (dict_mem d k)
  | JList l =>
      Ok (existsb (fun x => match x with JStr s => String.eqb s k | _ => false end) l)
  | JStr s => Ok (str_contains k s)
  | _ => Raise TypeError
  end.

(** ** [float(v) >= 2.0]

    The comparison both version tests make.  A decimal literal is compared
    exactly: [float] rounds to nearest, ties to even, so the rounded value is
    at least [2.0] exactly when the literal is at least [2 - 2^-53].  As
    for [int], the literal is read as Python 3.6 and later read a string
    of ASCII characters; a result [Ok] is given to such strings only. *)

Definition lower (c : ascii) : ascii :=
  let n := nat_of_ascii c in
  if (Nat.leb 65 n && Nat.leb n 90)%bool then ascii_of_nat (n + 32) else c.

Fixpoint lower_str (s : string) : string :=
  match s with
  | EmptyString => EmptyString
  | String c r => String (lower c) (lower_str r)
  end.

(** A run of digits with single underscores between digits: the value
    accumulated onto [acc], the number of digits read, and the unread rest. *)
Fixpoint scan_digits (acc : Z) (cnt : nat) (after_digit after_us : bool)
  (s : string) : option (Z * nat * string) :=
  match s with
  | EmptyString => if after_us then None else Some (acc, cnt, s)
  | String c r =>
      match digit_of c with
      | Some d => scan_digits (10 * acc + d) (S cnt) true false r
      | None =>
          if Ascii.eqb c "_" then
            if after_digit then scan_digits acc cnt false true r else None
          else if after_us then None else Some (acc, cnt, s)
      end
  end.

(** The exponent part of a float literal, [None] when malformed. *)
Definition scan_exponent (s : string) : option Z :=
  match s with
  | EmptyString => Some 0
  | String c r =>
      if Ascii.eqb (lower c) "e" then
        let '(neg, digits) :=
          match r with
          | String "+" r' => (false, r')
          | String "-" r' => (true, r')
          | _ => (false, r)
          end in
        match scan_digits 0 0 false false digits with
        | Some (e, S _, EmptyString) => Some (if neg then - e else e)
        | _ => None
        end
      else None
  end.

(** Mantissa and decimal exponent of an unsigned float literal. *)
Definition scan_float (s : string) : option (Z * Z) :=
  match scan_digits 0 0 false false s with
  | None => None
  | Some (n1, c1, rest1) =>
      match rest1 with
      | String "." rest2 =>
          match scan_digits n1 0 false false rest2 with
          | None => None
          | Some (n2, c2, rest3) =>
              if Nat.eqb (c1 + c2) 0 then None
              else option_map (fun e => (n2, e - Z.of_nat c2))
                              (scan_exponent rest3)
          end
      | _ =>
          if Nat.eqb c1 0 then None
          else option_map (fun e => (n1, e)) (scan_exponent rest1)
      end
  end.

Definition float_str_ge_2 (s : string) : result bool :=
  let t := strip s in
  let '(neg, body) :=
    match t with
    | String "+" r => (false, r)
    | String "-" r => (true, r)
    | _ => (false, t)
    end in
  let lb := lower_str body in
  if (String.eqb lb "inf" || String.eqb lb "infinity")%bool then Ok (negb neg)
  else if String.eqb lb "nan" then Ok false
  else
    match scan_float body with
    | None => Raise ValueError
    | Some (m, e) =>
        if neg then Ok false
        else if 0 <=? e then Ok (2 ^ 54 - 1 <=? m * 10 ^ e * 2 ^ 53)
        else Ok ((2 ^ 54 - 1) * 10 ^ (- e) <=? m * 2 ^ 53)
    end.

Definition float_ge_2 (v : json) : result bool :=
  match v with
  | JStr s => float_str_ge_2 s
  | JInt z =>
      if 2 ^ 1024 - 2 ^ 970 <=? Z.abs z then Raise OverflowError
      else Ok (2 <=? z)
  | _ => Raise TypeError
  end.

(** ** check_version_2 (source lines 99-119) *)

Definition check_version_2 (dataset : json) : result bool :=
  v <- py_get dataset "version" ;;
  c <- (if truthy v then float_ge_2 v else Ok false) ;;
  if c then Ok true else Ok false.

(** ** check_input (source lines 145-160) *)

Definition check_input (naming : string) : result unit :=
  if (String.eqb naming "label" || String.eqb naming "id")%bool
  then Ok tt else Raise ValueError.

(** ** numpy: [np.prod(np.array(x))] and [n * [None]]

    numpy stores a list of machine-sized integers as a 64-bit array and the
    product wraps around; the product of the empty array is the float [1.0].
    Arrays numpy does not store as 64-bit integers (nested lists, integers
    outside the 64-bit range, entries that are not integers) are outside the
    embedded fragment and reported as [TypeError]. *)

Inductive np_scalar : Type :=
| np_int64 (z : Z)
| np_float64_one.

Definition wrap64 (z : Z) : Z := (z + 2 ^ 63) mod 2 ^ 64 - 2 ^ 63.

Definition in_int64 (z : Z) : bool := (- 2 ^ 63 <=? z) && (z <? 2 ^ 63).

Definition int64_entry (e : json) : result Z :=
  match e with
  | JInt z => if in_int64 z then Ok z else Raise TypeError
  | _ => Raise TypeError
  end.

Definition np_prod (x : json) : result np_scalar :=
  match x with
  | JList [] => Ok np_float64_one
  | JList l =>
      zs <- mapM int64_entry l ;;
      Ok (np_int64 (wrap64 (fold_left Z.mul zs 1)))
  | JInt z => z' <- int64_entry x ;; Ok (np_int64 z')
  | _ => Raise TypeError
  end.

(** [max_val * [None]]: list repetition needs an integer count; a count
    below one gives the empty list. *)
Definition repeat_none (max_val : np_scalar) : result (list json) :=
  match max_val with
  | np_int64 n => Ok (repeat JNull (Z.to_nat n))
  | np_float64_one => Raise TypeError
  end.

(** [vals[key] = value] on a list *)
Fixpoint set_nth {A} (l : list A) (n : nat) (v : A) : list A :=
  match l, n with
  | [], _ => []
  | _ :: r, O => v :: r
  | x :: r, S n' => x :: set_nth r n' v
  end.

Definition list_setitem {A} (l : list A) (z : Z) (v : A) : result (list A) :=
  let n := Z.of_nat (List.length l) in
  let pos := if 0 <=? z then z else n + z in
  if (0 <=? pos) && (pos <? n) then Ok (set_nth l (Z.to_nat pos) v)
  else Raise IndexError.

(** [self[k] if self.get(k) else self['dimension'][k]]: where the readers
    look for [id] and [size]. *)
Definition own_or_dimension (self : json) (k : string) : result json :=
  own <- py_get self k ;;
  if truthy own then py_getitem self (JStr k)
  else d <- py_getitem self (JStr "dimension") ;; py_getitem d (JStr k).

(** ** get_values (source lines 287-315) *)

Definition is_dict (v : json) : bool :=
  match v with JDict _ => true | _ => false end.

(** [{int(key): value for (key, value) in values.items()}] *)
Fixpoint int_keyed (items : list (string * json)) (acc : list (Z * json))
  : result (list (Z * json)) :=
  match items with
  | [] => Ok acc
  | (key, value) :: r =>
      k <- py_int (SStr key) ;;
      int_keyed r (zdict_set acc k value)
  end.

(** [for (key, value) in values.items(): vals[key] = value] *)
Fixpoint assign_all (items : list (Z * json)) (vals : list json)
  : result (list json) :=
  match items with
  | [] => Ok vals
  | (key, value) :: r =>
      vals' <- list_setitem vals key value ;;
      assign_all r vals'
  end.

Definition get_values (js_dict : json) (value : string) : result (list json) :=
  values <- py_getitem js_dict (JStr value) ;;
  dense <-
    match values with
    | JList l =>
        first <- list_index l 0 ;;
        (* [type(values[0]) is not dict or tuple]: [tuple] is truthy *)
        if (negb (is_dict first) || true)%bool then Ok (Some l) else Ok None
    | _ => Ok None
    end ;;
  match dense with
  | Some l => Ok l
  | None =>
      (* being not a list of dicts or tuples leaves us with a dict... *)
      items <- py_items values ;;
      values <- int_keyed items [] ;;
      size <- py_get js_dict "size" ;;
      max_val <-
        (if truthy size
         then s <- py_getitem js_dict (JStr "size") ;; np_prod s
         else d <- py_getitem js_dict (JStr "dimension") ;;
              s <- py_getitem d (JStr "size") ;; np_prod s) ;;
      vals <- repeat_none max_val ;;
      assign_all values vals
  end.

(** ** Dataset point queries (source lines 633-720) *)

(** [d.get(k, default)] with an arbitrary key *)
Definition py_get_default (o k default : json) : result json :=
  match o with
  | JDict d =>
      match k with
      | JStr s => Ok (match dict_get d s with Some v => v | None => default end)
      | JAtom _ => Ok default
      | _ => Raise TypeError
      end
  | _ => Raise AttributeError
  end.

(** [ndx.index(value)] *)
Fixpoint list_find (ndx : list json) (value : scalar) (pos : Z) : result json :=
  match ndx with
  | [] => Raise ValueError
  | x :: r =>
      if match x with JAtom a => scalar_eqb a value | _ => false end
      then Ok (JInt pos) else list_find r value (pos + 1)
  end.

Definition get_dimension_index (self name : json) (value : scalar)
  : result json :=
  d <- py_get_default self (JStr "dimension") (JDict []) ;;
  n <- py_get_default d name (JDict []) ;;
  c <- py_get_default n (JStr "category") (JDict []) ;;
  has_index <- py_contains c "index" ;;
  if negb has_index then Ok (JInt 0)
  else
    d <- py_getitem self (JStr "dimension") ;;
    n <- py_getitem d name ;;
    c <- py_getitem n (JStr "category") ;;
    ndx <- py_getitem c (JStr "index") ;;
    match ndx with
    | JList l => list_find l value 0
    | _ => py_getitem ndx (JAtom value)
    end.

(** [[d.get(id) for d in query if id in d]] *)
Fixpoint query_matches (query : list (list (string * scalar))) (id : json)
  : result (list scalar) :=
  match query with
  | [] => Ok []
  | d :: r =>
      match id with
      | JStr s =>
          rest <- query_matches r id ;;
          match dict_get d s with
          | Some v => Ok (v :: rest)
          | None => Ok rest
          end
      | JAtom _ => query_matches r id
      | _ => Raise TypeError
      end
  end.

Definition get_dimension_indices (self : json)
  (query : list (list (string * scalar))) : result (list json) :=
  ids <- own_or_dimension self "id" ;;
  ids <- py_iter ids ;;
  mapM (fun id =>
          matches <- query_matches query id ;;
          v <- list_index matches 0 ;;
          get_dimension_index self id v) ids.

(** One turn of the loop of [get_value_index]. *)
Definition value_index_step (size : json) (ndims : Z) (indices : list json)
  (st : Z * Z) (idx : Z) : result (Z * Z) :=
  let '(mult, num) := st in
  factor <- (if 0 <? idx then py_getitem size (JInt (ndims - idx))
             else Ok (JInt 1)) ;;
  (* an integer times a string or a list is a sequence, which the addition
     below then refuses *)
  mult' <- match factor with
           | JInt z => Ok (Some (mult * z))
           | JStr _ | JList _ => Ok None
           | _ => Raise TypeError
           end ;;
  i <- list_index indices (ndims - idx - 1) ;;
  match mult', i with
  | Some m, JInt z => Ok (m, num + m * z)
  | _, _ => Raise TypeError
  end.

Fixpoint value_index_loop (size : json) (ndims : Z) (indices : list json)
  (idxs : list Z) (st : Z * Z) : result (Z * Z) :=
  match idxs with
  | [] => Ok st
  | idx :: r =>
      st' <- value_index_step size ndims indices st idx ;;
      value_index_loop size ndims indices r st'
  end.

Definition get_value_index (self : json) (indices : list json) : result json :=
  size <- own_or_dimension self "size" ;;
  ndims <- py_len size ;;
  '(mult, num) <-
    value_index_loop size ndims indices
      (map Z.of_nat (seq 0 (Z.to_nat ndims))) (1, 0) ;;
  Ok (JInt num).

Definition get_value_by_index (self index : json) : result json :=
  v <- py_getitem self (JStr "value") ;; py_getitem v index.

Definition get_value (self : json) (query : list (list (string * scalar)))
  : result json :=
  indices <- get_dimension_indices self query ;;
  index <- get_value_index self indices ;;
  get_value_by_index self index.

(** ** pandas data frames

    Column labels and rows of cells.  Row labels are not kept: the module
    reads them nowhere, it only assigns them in [generate_df], where pandas
    checks their number. *)

Record DataFrame (L A : Type) : Type := mkDF {
  columns : list L;
  rows : list (list A)
}.
Arguments mkDF {L A} columns rows.
Arguments columns {L A} d.
Arguments rows {L A} d.

(** The frames that describe one dimension. *)
Definition frame : Type := DataFrame string json.

Fixpoint col_pos (cols : list string) (c : string) : option nat :=
  match cols with
  | [] => None
  | c' :: r => if String.eqb c' c then Some O else option_map S (col_pos r c)
  end.

Definition cell (p : nat) (row : list json) : json := nth p row JNull.

(** [df[c]]: the cells of column [c], top to bottom. *)
Definition df_column (df : frame) (c : string) : result (list json) :=
  match col_pos (columns df) c with
  | Some p => Ok (map (cell p) (rows df))
  | None => Raise KeyError
  end.

(** *** [sort_index(by=c)]

    An insertion sort, stable.  Integers order by value and strings
    lexicographically; values of different types order by type, as in
    Python 2.  pandas does not promise the order of rows with equal keys;
    no theorem below depends on it. *)

Definition rank (a : json) : Z :=
  match a with
  | JNull => 0
  | JInt _ => 1
  | JDict _ => 2
  | JList _ => 3
  | JStr _ => 4
  end.

Definition json_leb (a b : json) : bool :=
  match a, b with
  | JInt x, JInt y => x <=? y
  | JStr s, JStr t => String.leb s t
  | _, _ => rank a <=? rank b
  end.

Fixpoint insert_row (p : nat) (r : list json) (l : list (list json))
  : list (list json) :=
  match l with
  | [] => [r]
  | r' :: l' =>
      if json_leb (cell p r) (cell p r') then r :: l
      else r' :: insert_row p r l'
  end.

Definition sort_rows (p : nat) (l : list (list json)) : list (list json) :=
  fold_right (insert_row p) [] l.

Definition sort_index_by (df : frame) (c : string) : result frame :=
  match col_pos (columns df) c with
  | Some p => Ok (mkDF (columns df) (sort_rows p (rows df)))
  | None => Raise KeyError
  end.

(** *** [pd.merge(left, right, on=key)]

    The inner join: each left row with the right rows of the same key, the
    key column once (the order of the joined rows is not relied upon: the
    callers sort the result).  A label the two sides share outside the key gets the
    suffixes [_x] and [_y].  Keys are hashed, so a list or a dict as key is a
    [TypeError]. *)

Fixpoint remove_nth {A} (n : nat) (l : list A) : list A :=
  match l, n with
  | [], _ => []
  | _ :: r, O => r
  | x :: r, S n' => x :: remove_nth n' r
  end.

Definition atom_of (j : json) : result scalar :=
  match j with
  | JAtom a => Ok a
  | _ => Raise TypeError
  end.

Definition suffixed (others : list string) (sfx c : string) : string :=
  if existsb (String.eqb c) others then String.append c sfx else c.

Definition merge_on (key : string) (left right : frame) : result frame :=
  match col_pos (columns left) key, col_pos (columns right) key with
  | Some pl, Some pr =>
      let rrest := remove_nth pr (columns right) in
      let lrest := remove_nth pl (columns left) in
      lk <- mapM (fun r => atom_of (cell pl r)) (rows left) ;;
      rk <- mapM (fun r => atom_of (cell pr r)) (rows right) ;;
      Ok (mkDF
            (map (fun c => if String.eqb c key then c
                           else suffixed rrest "_x" c) (columns left)
             ++ map (suffixed lrest "_y") rrest)
            (flat_map
               (fun la =>
                  map (fun rb => fst la ++ remove_nth pr (fst rb))
                      (filter (fun rb => scalar_eqb (snd la) (snd rb))
                              (combine (rows right) rk)))
               (combine (rows left) lk)))
  | _, _ => Raise KeyError
  end.

(** [range(0, n)] as JSON integers *)
Definition range (n : nat) : list json :=
  map (fun k => JInt (Z.of_nat k)) (seq 0 n).

(** The frame with columns [id] and [index] that both resolvers build from
    [category.index]: a list gives positions by offset, a mapping gives the
    mapped values. *)
Definition index_frame (dim_index : json) : result frame :=
  match dim_index with
  | JList l =>
      Ok (mkDF ["id"; "index"]%string
               (map (fun p => [fst p; snd p]) (combine l (range (List.length l)))))
  | _ =>
      items <- py_items dim_index ;;
      Ok (mkDF ["id"; "index"]%string
               (map (fun kv => [JStr (fst kv); snd kv]) items))
  end.

(** The one-row frame [zip([dim_label['id'][0]], [0])]. *)
Definition single_index_frame (dim_label : frame) : result frame :=
  ids <- df_column dim_label "id" ;;
  first <- list_index ids 0 ;;
  Ok (mkDF ["id"; "index"]%string [[first; JInt 0]]).

(** ** get_dim_label and get_dim_index (source lines 198-284)

    The two call each other when a key is missing; with neither
    [category.index] nor [category.label] the recursion does not end, and
    Python raises [RecursionError] at its recursion limit: [fuel] is that
    limit. *)

Fixpoint get_dim_label (fuel : nat) (js_dict dim : json) (input : string)
  {struct fuel} : result frame :=
  match fuel with
  | O => Raise RecursionError
  | S fuel' =>
      '(input, label_col) <-
        (if String.eqb input "dataset" then
           d <- py_getitem js_dict (JStr "dimension") ;;
           i <- py_getitem d dim ;;
           Ok (i, "label"%string)
         else if String.eqb input "dimension" then
           l <- py_getitem js_dict (JStr "label") ;;
           match l with
           | JStr s =>
               (* a label that repeats the [id] column is not embedded *)
               if String.eqb s "id" then Raise ValueError
               else Ok (js_dict, s)
           | _ => Raise TypeError
           end
         else Raise ValueError) ;;
      dim_label <-
        match (c <- py_getitem input (JStr "category") ;;
               py_getitem c (JStr "label")) with
        | Raise KeyError =>
            dim_index <- get_dim_index fuel' js_dict dim ;;
            ids <- df_column dim_index "id" ;;
            Ok (mkDF ["id"; "label"]%string (map (fun i => [i; i]) ids))
        | Raise e => Raise e
        | Ok dim_label =>
            items <- py_items dim_label ;;
            Ok (mkDF ["id"%string; label_col]
                     (map (fun kv => [JStr (fst kv); snd kv]) items))
        end ;;
      (* index must be added to dim label so that it can be sorted *)
      dim_index <-
        match (c <- py_getitem input (JStr "category") ;;
               py_getitem c (JStr "index")) with
        | Raise KeyError => single_index_frame dim_label
        | Raise e => Raise e
        | Ok dim_index => index_frame dim_index
        end ;;
      merged <- merge_on "id" dim_label dim_index ;;
      sort_index_by merged "index"
  end

with get_dim_index (fuel : nat) (js_dict dim : json) {struct fuel}
  : result frame :=
  match fuel with
  | O => Raise RecursionError
  | S fuel' =>
      dim_index <-
        match (d <- py_getitem js_dict (JStr "dimension") ;;
               i <- py_getitem d dim ;;
               c <- py_getitem i (JStr "category") ;;
               py_getitem c (JStr "index")) with
        | Raise KeyError =>
            dim_label <- get_dim_label fuel' js_dict dim "dataset" ;;
            single_index_frame dim_label
        | Raise e => Raise e
        | Ok dim_index => index_frame dim_index
        end ;;
      sort_index_by dim_index "index"
  end.

Definition recursion_limit : nat := 1000.

(** ** get_dimensions (source lines 163-195) *)

(** One turn of the loop over the dimension ids. *)
Definition get_dimensions_step (js_dict : json) (naming : string)
  (acc : result (list frame * list json)) (dim : json)
  : result (list frame * list json) :=
  '(dimensions, dim_names) <- acc ;;
  d <- py_getitem js_dict (JStr "dimension") ;;
  i <- py_getitem d dim ;;
  dim_name <- py_getitem i (JStr "label") ;;
  let dim_name := if negb (truthy dim_name) then dim else dim_name in
  if String.eqb naming "label" then
    dim_label <- get_dim_label recursion_limit js_dict dim "dataset" ;;
    Ok (dimensions ++ [dim_label], dim_names ++ [dim_name])
  else
    dim_index <- get_dim_index recursion_limit js_dict dim ;;
    Ok (dimensions ++ [dim_index], dim_names ++ [dim]).

Definition get_dimensions (js_dict : json) (naming : string)
  : result (list frame * list json) :=
  v2 <- check_version_2 js_dict ;;
  dimension_dict <-
    (if v2 then Ok js_dict else py_getitem js_dict (JStr "dimension")) ;;
  ids <- py_getitem dimension_dict (JStr "id") ;;
  ids <- py_iter ids ;;
  fold_left (get_dimensions_step js_dict naming) ids (Ok ([], [])).

(** ** get_df_row (source lines 318-349)

    The generator appends to and pops from one shared list [record] and
    yields that list; a row is the content the list has when it is yielded,
    which is what [generate_df] reads before it resumes the generator.  The
    function returns the rows in the order they are yielded and the shared
    list as the call leaves it.  The recursion goes one level per dimension;
    [fuel] bounds it. *)

(** The [for] loop of one call, at level [i] of [n] dimensions; [below] is
    the recursive call on the shared list. *)
Fixpoint row_loop (n i : nat)
  (below : list json -> result (list (list json) * list json))
  (cats : list json) (record : list json) (yielded : list (list json))
  {struct cats} : result (list (list json) * list json) :=
  match cats with
  | [] => Ok (yielded, record)
  | dimension :: rest =>
      let record := record ++ [dimension] in
      let yielded :=
        if Nat.eqb (List.length record) n
        then yielded ++ [record] else yielded in
      '(yielded, record) <-
        (if Nat.ltb (i + 1) n then
           '(rows_below, record') <- below record ;;
           Ok (yielded ++ rows_below, record')
         else Ok (yielded, record)) ;;
      let record :=
        if Nat.eqb (List.length record) (i + 1)
        then removelast record else record in
      row_loop n i below rest record yielded
  end.

Fixpoint get_df_row_rec (fuel : nat) (dimensions : list frame)
  (naming : string) (i : nat) (record : option (list json)) {struct fuel}
  : result (list (list json) * list json) :=
  match fuel with
  | O => Raise RecursionError
  | S fuel' =>
      _ <- check_input naming ;;
      let record :=
        match record with
        | Some r => if Nat.eqb i 0 then [] else r
        | None => []
        end in
      d <- list_index dimensions (Z.of_nat i) ;;
      cats <- df_column d naming ;;
      row_loop (List.length dimensions) i
        (fun record =>
           get_df_row_rec fuel' dimensions naming (i + 1) (Some record))
        cats record []
  end.

Definition get_df_row (dimensions : list frame) (naming : string)
  : result (list (list json)) :=
  '(yielded, _) <-
    get_df_row_rec (S (List.length dimensions)) dimensions naming 0 None ;;
  Ok yielded.

(** ** uniquify (source lines 352-366) *)

Fixpoint uniquify_from (seen : list scalar) (seq : list scalar)
  : list scalar :=
  match seq with
  | [] => []
  | x :: r =>
      if existsb (scalar_eqb x) seen then uniquify_from seen r
      else x :: uniquify_from (x :: seen) r
  end.

Definition uniquify (seq : list scalar) : list scalar := uniquify_from [] seq.

(** ** generate_df (source lines 369-393) *)

(** [[category + [values[i]] for i, category in enumerate(rows)]] *)
Fixpoint attach_values (i : Z) (recs : list (list json)) (values : list json)
  : result (list (list json)) :=
  match recs with
  | [] => Ok []
  | category :: r =>
      v <- list_index values i ;;
      rest <- attach_values (i + 1) r values ;;
      Ok ((category ++ [v]) :: rest)
  end.

(** [pd.DataFrame(data)] gives as many columns as the rows are wide, none
    for no rows; assigning [columns] or [index] of another length is a
    [ValueError]. *)
Definition width {A} (data : list (list A)) : nat :=
  fold_right (fun r m => Nat.max (List.length r) m) O data.

Definition generate_df (js_dict : json) (naming value : string)
  : result (DataFrame json json) :=
  '(dimensions, dim_names) <- get_dimensions js_dict naming ;;
  values <- get_values js_dict value ;;
  recs <- get_df_row dimensions naming ;;
  data <- attach_values 0 recs values ;;
  let output_columns := dim_names ++ [JStr value] in
  if negb (Nat.eqb (width data) (List.length output_columns))
  then Raise ValueError
  else if negb (Nat.eqb (List.length data) (List.length values))
  then Raise ValueError
  else Ok (mkDF output_columns data).

(** ** to_json_stat (source lines 440-531)

    The function returns JSON text; the embedding returns the document that
    [json.loads(..., object_pairs_hook=OrderedDict)] reads back from that
    text, as [Dataset.read] does: dictionary keys are the strings
    [json.dumps] writes for them. *)

Definition table : Type := DataFrame scalar scalar.

(** What [json.dumps] writes for a dictionary key. *)
Definition json_key (k : scalar) : string :=
  match k with
  | SNone => "null"
  | SInt z => str_of_Z z
  | SStr s => s
  end.

(** [[item for item in columns if item not in value]]: [value] is a string,
    so [in] is the substring test and needs a string on its left. *)
Fixpoint items_not_in_value (cols : list scalar) (value : string)
  : result (list scalar) :=
  match cols with
  | [] => Ok []
  | item :: r =>
      match item with
      | SStr s =>
          rest <- items_not_in_value r value ;;
          Ok (if negb (str_contains s value) then item :: rest else rest)
      | _ => Raise TypeError
      end
  end.

Fixpoint label_pos (cols : list scalar) (c : scalar) : option nat :=
  match cols with
  | [] => None
  | c' :: r =>
      if scalar_eqb c' c then Some O else option_map S (label_pos r c)
  end.

Fixpoint nodupb (l : list scalar) : bool :=
  match l with
  | [] => true
  | x :: r => negb (existsb (scalar_eqb x) r) && nodupb r
  end.

Fixpoint scalars_eqb (l m : list scalar) : bool :=
  match l, m with
  | [], [] => true
  | x :: l', y :: m' => scalar_eqb x y && scalars_eqb l' m'
  | _, _ => false
  end.

Definition table_column (df : table) (p : nat) : list scalar :=
  map (fun r => nth p r SNone) (rows df).

(** [df.filter(items)] is [df.reindex(columns=[r for r in items if r in
    labels])]: nothing to do when the labels are already the target;
    otherwise a frame with a repeated label cannot be reindexed to a
    non-empty target. *)
Definition df_filter (df : table) (items : list scalar) : result table :=
  let labels := columns df in
  let target := filter (fun r => existsb (scalar_eqb r) labels) items in
  if scalars_eqb target labels then Ok df
  else if negb (nodupb labels)
          && negb (Nat.eqb (List.length target) 0) then Raise ValueError
  else
    let ps := map (fun t => match label_pos labels t with
                            | Some p => p | None => O end) target in
    Ok (mkDF target (map (fun r => map (fun p => nth p r SNone) ps) (rows df))).

(** [dataframe[value].values], iterated with
    [None if pd.isnull(x) else x]: a label that selects several columns makes
    every [x] a row of cells, whose null test has no truth value. *)
Definition value_list (dataframe : table) (value : string)
  : result (list json) :=
  match filter (scalar_eqb (SStr value)) (columns dataframe) with
  | [] => Raise KeyError
  | [_] =>
      match label_pos (columns dataframe) (SStr value) with
      | Some p =>
          Ok (map (fun x => match x with SNone => JNull | _ => JAtom x end)
                  (table_column dataframe p))
      | None => Raise KeyError
      end
  | _ => match rows dataframe with [] => Ok [] | _ => Raise ValueError end
  end.

(** [enumerate(l)] *)
Definition enumerate {A} (l : list A) : list (Z * A) :=
  combine (map Z.of_nat (seq 0 (List.length l))) l.

(** One element of [categories]: the entry of column [i] of [dims]. *)
Definition category_entry (dims : table) (i : scalar)
  : result (string * json) :=
  key <- to_int i ;;
  label <- to_str i ;;
  let col :=
    match label_pos (columns dims) i with
    | Some p => table_column dims p
    | None => []
    end in
  index <- mapM (fun kj => j' <- to_str (snd kj) ;;
                           k' <- to_int (SInt (fst kj)) ;;
                           Ok (json_key j', JAtom k'))
                (enumerate (uniquify col)) ;;
  labels <- mapM (fun kj => j1 <- to_str (snd kj) ;;
                            j2 <- to_str (snd kj) ;;
                            Ok (json_key j1, JAtom j2))
                 (enumerate (uniquify col)) ;;
  Ok (json_key key,
      JDict [("label"%string, JAtom label);
             ("category"%string,
              JDict [("index"%string, JDict (dict_update [] index));
                     ("label"%string, JDict (dict_update [] labels))])]).

(** [for category in categories: d["dimension"].update(category)] *)
Fixpoint update_dimension (d : list (string * json))
  (categories : list (string * json)) : result (list (string * json)) :=
  match categories with
  | [] => Ok d
  | category :: r =>
      match dict_get d "dimension" with
      | Some (JDict dimension) =>
          update_dimension
            (dict_set d "dimension"
               (JDict (dict_set dimension (fst category) (snd category)))) r
      | Some _ => Raise AttributeError
      | None => Raise KeyError
      end
  end.

(** [d["dimension"].update({k: v})] *)
Definition update_dimension_key (d : list (string * json)) (k : string)
  (v : json) : result (list (string * json)) :=
  update_dimension d [(k, v)].

(** The body of the loop over the frames: the dataset of one frame. *)
Definition encode_frame (row : nat) (dataframe : table)
  (value version : string) : result (list (string * json)) :=
  items <- items_not_in_value (columns dataframe) value ;;
  dims <- df_filter dataframe items ;;
  if negb (nodupb (columns dims)) then Raise ValueError
  else
    let dim_names := columns dims in
    categories <- mapM (category_entry dims) (columns dims) ;;
    let sizes :=
      map (fun i => JInt (Z.of_nat (List.length (uniquify
             match label_pos (columns dims) i with
             | Some p => table_column dims p
             | None => []
             end)))) (columns dims) in
    v2 <- float_str_ge_2 version ;;
    if v2 then
      vals <- value_list dataframe value ;;
      let dataset :=
        dict_set (dict_set [] "dimension" (JDict [])) value (JList vals) in
      let dataset := dict_set dataset "version" (JStr version) in
      let dataset := dict_set dataset "class" (JStr "dataset") in
      dataset <- update_dimension dataset categories ;;
      let dataset := dict_set dataset "id" (JList (map JAtom dim_names)) in
      let dataset := dict_set dataset "size" (JList sizes) in
      update_dimension dataset categories
    else
      vals <- value_list dataframe value ;;
      let inner :=
        dict_set (dict_set [] "dimension" (JDict [])) value (JList vals) in
      inner <- update_dimension inner categories ;;
      inner <- update_dimension_key inner "id" (JList (map JAtom dim_names)) ;;
      inner <- update_dimension_key inner "size" (JList sizes) ;;
      inner <- update_dimension inner categories ;;
      Ok [(String.append "dataset" (str_of_Z (Z.of_nat row + 1)), JDict inner)].

Inductive frames : Type :=
| OneFrame (df : table)
| FrameList (l : list table).

(** The loop over the frames; the variable [result] of the source is [res]
    here, and is unbound until an [output] other than ['list'] and ['dict']
    binds it to [None] in the loop. *)
Fixpoint encode_frames (row : nat) (data : list table)
  (value output version : string) (res : option json)
  : result (option json) :=
  match data with
  | [] => Ok res
  | dataframe :: r =>
      dataset <- encode_frame row dataframe value version ;;
      let res :=
        if String.eqb output "list" then
          match res with
          | Some (JList l) => Some (JList (l ++ [JDict dataset]))
          | _ => res
          end
        else if String.eqb output "dict" then
          match res with
          | Some (JDict d) => Some (JDict (dict_update d dataset))
          | _ => res
          end
        else Some JNull in
      encode_frames (S row) r value output version res
  end.

Definition to_json_stat (input_df : frames) (value output version : string)
  : result json :=
  let res :=
    if String.eqb output "list" then Some (JList [])
    else if String.eqb output "dict" then Some (JDict [])
    else None in
  let data :=
    match input_df with
    | OneFrame df => [df]
    | FrameList l => l
    end in
  res <- encode_frames 0 data value output version res ;;
  match res with
  | Some r => Ok r
  | None => Raise NameError
  end.

(** ** from_json_stat (source lines 396-437)

    The deprecation warning the function starts with does not change what
    it returns. *)

(** [v == s] for a string literal [s] *)
Definition is_str (v : json) (s : string) : bool :=
  match v with
  | JStr t => String.eqb t s
  | _ => false
  end.

Definition from_json_stat (datasets : json) (naming value : string)
  : result (list (DataFrame json json)) :=
  _ <- check_input naming ;;
  match datasets with
  | JList l =>
      results <-
        mapM (fun element =>
                names <- py_iter element ;;
                mapM (fun dataset =>
                        js_dict <- py_getitem element dataset ;;
                        generate_df js_dict naming value) names) l ;;
      Ok (List.concat results)
  | JDict _ =>
      has_class <- py_contains datasets "class" ;;
      if has_class then
        class <- py_getitem datasets (JStr "class") ;;
        if is_str class "dataset" then
          output <- generate_df datasets naming value ;;
          Ok [output]
        else Ok []
      else (* 1.00 bundle type *)
        names <- py_iter datasets ;;
        mapM (fun dataset =>
                js_dict <- py_getitem datasets dataset ;;
                generate_df js_dict naming value) names
  | _ => Ok []
  end.

(** ** The classes Dataset and Dimension (source lines 571-631, 723-790)

    Both are [OrderedDict]s; an object of either class is the [json]
    dictionary it holds.  [read] is embedded for a data frame and for an
    [OrderedDict]; reading from a URL, from JSON text or from a file needs
    the network or a parser and is not embedded.  [write] returns JSON text
    or a data frame; the text is represented by the document it
    serialises. *)

Inductive source (F : Type) : Type :=
| FromFrame (data : F)
| FromOrderedDict (data : list (string * json)).
Arguments FromFrame {F} data.
Arguments FromOrderedDict {F} data.

Inductive written (F : Type) : Type :=
| Text (doc : json)
| Frame (df : F).
Arguments Text {F} doc.
Arguments Frame {F} df.

Module Dataset.

Definition read (data : source table) : result json :=
  match data with
  | FromFrame df => to_json_stat (OneFrame df) "value" "dict" "2.0"
  | FromOrderedDict d => Ok (JDict d)
  end.

Definition write (self : json) (output : string)
  : result (written (DataFrame json json)) :=
  if String.eqb output "jsonstat" then Ok (Text self)
  else if String.eqb output "dataframe" then
    results <- from_json_stat self "label" "value" ;;
    df <- list_index results 0 ;;
    Ok (Frame df)
  else Raise ValueError.

End Dataset.

(** A cell used as a key of an [OrderedDict].  A list or a dict cannot be
    hashed.  The embedded dictionaries have string keys: keys of other
    types are outside the embedded fragment and reported as [TypeError]
    too. *)
Definition dict_key (j : json) : result string :=
  match j with
  | JStr s => Ok s
  | _ => Raise TypeError
  end.

Module Dimension.

Definition read (data : source frame) : result json :=
  match data with
  | FromFrame df =>
      (* [[label] = [x for x in columns if x not in ['id', 'index']]] *)
      match filter (fun x => negb (String.eqb x "id" || String.eqb x "index"))
                   (columns df) with
      | [label] =>
          (* [data.id] is a column only when one column has that name *)
          match filter (String.eqb "id") (columns df) with
          | [_] =>
              ids <- df_column df "id" ;;
              labels <- df_column df label ;;
              keys <- mapM dict_key ids ;;
              Ok (JDict
                    [("version"%string, JStr "2.0");
                     ("class"%string, JStr "dimension");
                     ("label"%string, JStr label);
                     ("category"%string,
                      JDict [("index"%string, JList ids);
                             ("label"%string,
                              JDict (dict_update [] (combine keys labels)))])])
          | _ => Raise AttributeError
          end
      | _ => Raise ValueError
      end
  | FromOrderedDict d => Ok (JDict d)
  end.

Definition write (self : json) (output : string) : result (written frame) :=
  if String.eqb output "jsonstat" then Ok (Text self)
  else if String.eqb output "dataframe" then
    label <- py_getitem self (JStr "label") ;;
    df <- get_dim_label recursion_limit self label "dimension" ;;
    Ok (Frame df)
  else Raise ValueError.

End Dimension.

(** * Specification-side definitions and sample data

    The formulas the claims are stated with (flat index, row-major
    enumeration, the shape of a cube table), the claims that fail as
    propositions, and the concrete documents and tables the theorems are
    applied to. *)

(** JSON lists of integers *)
Definition ints (l : list Z) : list json := map (fun z => JInt z) l.

Definition product (l : list Z) : Z := fold_right Z.mul 1 l.

(** The flat index in the words of the specification:
    [weight(d) = product(sizes[d+1..end])] and
    [flat_index = sum(dim_indices[d] * weight(d) for d in 0..n)]. *)
Definition weight (sizes : list Z) (d : nat) : Z :=
  product (skipn (S d) sizes).

Definition flat_index (dim_indices sizes : list Z) : Z :=
  fold_right Z.add 0
    (map (fun d => nth d dim_indices 0 * weight sizes d)
         (seq 0 (List.length sizes))).

(** A cube of sizes 2 and 3. *)
Definition cube_2_3 : json :=
  JDict [("size"%string, JList (ints [2; 3]));
         ("value"%string, JList (ints [10; 11; 12; 13; 14; 15]))].

(** The value the last item whose key reads as [z] carries. *)
Fixpoint last_parsed (items : list (string * json)) (z : Z) : option json :=
  match items with
  | [] => None
  | (k, v) :: r =>
      match last_parsed r z with
      | Some w => Some w
      | None =>
          match int_of_str k with
          | Some z' => if Z.eqb z' z then Some v else None
          | None => None
          end
      end
  end.

(** The sparse document of the specification's example. *)
Definition sparse_2_2 : json :=
  JDict [("size"%string, JList (ints [2; 2]));
         ("value"%string,
          JDict [("0"%string, JInt 10); ("3"%string, JInt 40)])].

(** Row-major enumeration: one category per column, the first column
    outermost and the last column varying fastest. *)
Fixpoint row_major {A} (cols : list (list A)) : list (list A) :=
  match cols with
  | [] => [[]]
  | c :: rest => flat_map (fun x => map (cons x) (row_major rest)) c
  end.

Definition nat_product (l : list nat) : nat := fold_right Nat.mul 1%nat l.

Definition sizes_of {A} (cols : list (list A)) : list Z :=
  map (fun c => Z.of_nat (List.length c)) cols.

Definition pick (idx : list nat) (cols : list (list json)) : list json :=
  map (fun ic => nth (fst ic) (snd ic) JNull) (combine idx cols).

(** The frame [get_dim_index] returns for a dimension whose [category.index]
    is the list [ids]. *)
Definition id_frame (ids : list string) : frame :=
  mkDF ["id"; "index"]%string
       (map (fun p => [JStr (fst p); snd p])
            (combine ids (range (List.length ids)))).

(** Three dimensions of cardinality 2, 3 and 4. *)
Definition dims_2_3_4 : list frame :=
  [id_frame ["a0"; "a1"]%string;
   id_frame ["b0"; "b1"; "b2"]%string;
   id_frame ["c0"; "c1"; "c2"; "c3"]%string].

Definition cols_2_3_4 : list (list json) :=
  [[JStr "a0"; JStr "a1"];
   [JStr "b0"; JStr "b1"; JStr "b2"];
   [JStr "c0"; JStr "c1"; JStr "c2"; JStr "c3"]].

(** The column the generator reads from the frames of [get_dimensions]. *)
Definition naming_columns (naming : string) : list string :=
  if String.eqb naming "label" then ["id"; "label"; "index"]%string
  else ["id"; "index"]%string.

Definition cardinality (d : frame) : nat := List.length (rows d).

(** A cube with one dimension of two categories and three values. *)
Definition cube_sex (values : list Z) : json :=
  JDict [("version"%string, JStr "2.0");
         ("class"%string, JStr "dataset");
         ("id"%string, JList [JStr "sex"]);
         ("size"%string, JList [JInt 2]);
         ("dimension"%string,
          JDict [("sex"%string,
                  JDict [("label"%string, JStr "Sex");
                         ("category"%string,
                          JDict [("index"%string,
                                  JList [JStr "M"; JStr "F"]);
                                 ("label"%string,
                                  JDict [("M"%string, JStr "Male");
                                         ("F"%string, JStr "Female")])])])]);
         ("value"%string, JList (ints values))].

Definition sex_frame : frame :=
  mkDF ["id"; "index"]%string [[JStr "M"; JInt 0]; [JStr "F"; JInt 1]].

(** The category ids a [category.index] declares and the positions it gives
    them. *)
Definition index_pairs (dim_index : json) : list (json * json) :=
  match dim_index with
  | JList l => combine l (range (List.length l))
  | JDict d => map (fun kv => (JStr (fst kv), snd kv)) d
  | _ => []
  end.

Definition index_ids (dim_index : json) : list json :=
  map fst (index_pairs dim_index).



(** The exception an index raises for an id it does not hold:
    [list.index] raises [ValueError], a mapping raises [KeyError]. *)
Definition unknown_category_error (dim_index : json) : exn :=
  match dim_index with
  | JList _ => ValueError
  | _ => KeyError
  end.

(** The categories a dimension is known by: the ids of its
    [category.index], or the keys of its [category.label] when it has no
    index. *)
Definition dimension_categories (self name : json) : list json :=
  match (d <- py_getitem self (JStr "dimension") ;;
         n <- py_getitem d name ;;
         py_getitem n (JStr "category")) with
  | Ok category =>
      match py_getitem category (JStr "index") with
      | Ok dim_index => index_ids dim_index
      | Raise _ =>
          match py_getitem category (JStr "label") with
          | Ok (JDict labels) => map (fun kv => JStr (fst kv)) labels
          | _ => []
          end
      end
  | Raise _ => []
  end.

(** C8 as it is stated: whenever the id a query asks for in some dimension
    is not among that dimension's categories, the point lookup fails. *)
Definition unknown_category_always_fails : Prop :=
  forall (self : json) (query : list (list (string * scalar)))
         (ids : json) (id_list : list json) (name : json) (value : scalar)
         (others : list scalar),
    own_or_dimension self "id" = Ok ids ->
    py_iter ids = Ok id_list ->
    In name id_list ->
    query_matches query name = Ok (value :: others) ->
    ~ In (JAtom value) (dimension_categories self name) ->
    exists e, get_value self query = Raise e.

(** A cube whose one dimension has the single category [T], declared by
    [category.label] alone. *)
Definition cube_total : json :=
  JDict [("version"%string, JStr "2.0");
         ("class"%string, JStr "dataset");
         ("id"%string, JList [JStr "sex"]);
         ("size"%string, JList [JInt 1]);
         ("dimension"%string,
          JDict [("sex"%string,
                  JDict [("label"%string, JStr "Sex");
                         ("category"%string,
                          JDict [("label"%string,
                                  JDict [("T"%string, JStr "Total")])])])]);
         ("value"%string, JList [JInt 7])].

Definition all_strings (cols : list scalar) : Prop :=
  Forall (fun c => exists s, c = SStr s) cols.

Definition is_substring_of (value : string) (c : scalar) : bool :=
  match c with
  | SStr s => str_contains s value
  | _ => false
  end.

Definition table_a : table :=
  mkDF [SStr "a"; SStr "value"] [[SStr "x"; SInt 1]].

Definition table_a_a : table :=
  mkDF [SStr "a"; SStr "a"; SStr "value"] [[SStr "x"; SStr "y"; SInt 1]].

Definition table_region_region : table :=
  mkDF [SStr "region"; SStr "region"; SStr "value"]
       [[SStr "x"; SStr "y"; SInt 1]].


Definition column_of (keys : list (list scalar)) (j : nat) : list scalar :=
  map (fun r => nth j r SNone) keys.

(** A cell the JSON text can hold under every Python 3 release: an
    integer is written, and read back, only when it has no more than
    [int_max_str_digits] digits. *)
Definition writable (c : scalar) : Prop :=
  match c with
  | SInt z => Z.abs z < 10 ^ Z.of_nat int_max_str_digits
  | _ => True
  end.

(** A column label every Python 3 release treats alike: a string of ASCII
    characters short enough for [int] to try. *)
Definition plain_label (c : scalar) : Prop :=
  match c with
  | SStr s => isascii s = true /\
              (String.length s <= int_max_str_digits)%nat
  | _ => True
  end.

(** A frame with such labels and with cells the JSON text can hold. *)
Definition plain_table (t : table) : Prop :=
  Forall plain_label (columns t) /\ Forall (Forall writable) (rows t).

(** The table with the category columns [names], then the column [value];
    row [i] holds the key [keys[i]] and the value [vals[i]]. *)
Definition cube_table (names : list string) (keys : list (list scalar))
  (vals : list scalar) : table :=
  mkDF (map SStr names ++ [SStr "value"])
       (map (fun kv => fst kv ++ [snd kv]) (combine keys vals)).

(** The categories of column [j] in the order they first occur. *)
Definition first_seen (keys : list (list scalar)) (j : nat) : list scalar :=
  uniquify (column_of keys j).

Definition str_of (c : scalar) : string :=
  match c with
  | SStr s => s
  | _ => ""
  end.

(** The entry [to_json_stat] writes under [dimension] for a column. *)
Definition dimension_entry (name : string) (cats : list scalar)
  : string * json :=
  (name,
   JDict [("label"%string, JStr name);
          ("category"%string,
           JDict [("index"%string,
                   JDict (map (fun kj => (str_of (snd kj), JInt (fst kj)))
                              (enumerate cats)));
                  ("label"%string,
                   JDict (map (fun kj => (str_of (snd kj), JAtom (snd kj)))
                              (enumerate cats)))])]).

(** The items of the version 2.0 dataset of a cube table. *)
Definition cube_dataset (names : list string) (keys : list (list scalar))
  (vals : list scalar) : list (string * json) :=
  [("dimension"%string,
          JDict (map (fun j => dimension_entry (nth j names ""%string)
                                               (first_seen keys j))
                     (seq 0 (List.length names))));
         ("value"%string, JList (map JAtom vals));
         ("version"%string, JStr "2.0");
         ("class"%string, JStr "dataset");
         ("id"%string, JList (map (fun s => JStr s) names));
         ("size"%string,
          JList (map (fun j => JInt (Z.of_nat (List.length (first_seen keys j))))
                     (seq 0 (List.length names))))].

(** The version 2.0 document of a cube table. *)
Definition cube_document (names : list string) (keys : list (list scalar))
  (vals : list scalar) : json :=
  JDict (cube_dataset names keys vals).


(** A cube of two regions and two sexes, listed in row-major order. *)
Definition keys_2_2 : list (list scalar) :=
  [[SStr "a"; SStr "x"]; [SStr "a"; SStr "y"];
   [SStr "b"; SStr "x"]; [SStr "b"; SStr "y"]].





(** The same cube listed with the first column varying fastest. *)
Definition table_column_major : table :=
  mkDF [SStr "region"; SStr "sex"; SStr "value"]
       [[SStr "a"; SStr "x"; SInt 1]; [SStr "b"; SStr "x"; SInt 2];
        [SStr "a"; SStr "y"; SInt 3]; [SStr "b"; SStr "y"; SInt 4]].

(** ** Definitions for the further properties *)

(** Where a document declares the ids of its dimensions: at the top level
    from version 2.0 on, under [dimension] before. *)
Definition declared_ids (js_dict : json) : result json :=
  v2 <- check_version_2 js_dict ;;
  if v2 then py_getitem js_dict (JStr "id")
  else d <- py_getitem js_dict (JStr "dimension") ;; py_getitem d (JStr "id").

(** The column name [get_dimensions] gives a dimension under the naming
    [label]: its label, or its id when the label is empty. *)
Definition display_name (js_dict dim : json) : result json :=
  d <- py_getitem js_dict (JStr "dimension") ;;
  i <- py_getitem d dim ;;
  dim_name <- py_getitem i (JStr "label") ;;
  Ok (if truthy dim_name then dim_name else dim).

(** A cube whose dimension has categories but no label of its own. *)
Definition cube_unlabelled : json :=
  JDict [("version"%string, JStr "2.0");
         ("class"%string, JStr "dataset");
         ("id"%string, JList [JStr "sex"]);
         ("size"%string, JList [JInt 2]);
         ("dimension"%string,
          JDict [("sex"%string,
                  JDict [("category"%string,
                          JDict [("index"%string,
                                  JList [JStr "M"; JStr "F"])])])]);
         ("value"%string, JList [JInt 1; JInt 2])].

(** A cube whose dimension declares no category at all. *)
Definition cube_bare : json :=
  JDict [("version"%string, JStr "2.0");
         ("class"%string, JStr "dataset");
         ("id"%string, JList [JStr "sex"]);
         ("size"%string, JList [JInt 1]);
         ("dimension"%string,
          JDict [("sex"%string,
                  JDict [("label"%string, JStr "Sex");
                         ("category"%string, JDict [])])]);
         ("value"%string, JList [JInt 1])].

(** The integer a row holds in column [p]. *)
Definition int_cell (p : nat) (r : list json) : Z :=
  match cell p r with
  | JInt z => z
  | _ => 0
  end.

Definition has_int_cell (p : nat) (r : list json) : Prop :=
  exists z, cell p r = JInt z.




(** The document [to_json_stat] makes of a table whose only column beside
    the value is dropped: no dimension and one value. *)
Definition cube_no_dimension : json :=
  JDict [("dimension"%string, JDict []);
         ("value"%string, JList [JInt 1]);
         ("version"%string, JStr "2.0");
         ("class"%string, JStr "dataset");
         ("id"%string, JList []);
         ("size"%string, JList [])].

(** Indices within the sizes of their dimensions. *)
Definition in_range (dim_indices sizes : list Z) : Prop :=
  Forall2 (fun i s => 0 <= i < s) dim_indices sizes.

(** The datasets of the frames of a list, each encoded with its position
    in the list, the first at [row]. *)
Definition encode_all (row : nat) (data : list table)
  (value version : string) : result (list (list (string * json))) :=
  mapM (fun p => encode_frame (fst p) (snd p) value version)
       (combine (seq row (List.length data)) data).

(** The names the members of a version 2.0 dataset have beside the
    values. *)
Definition reserved (value : string) : Prop :=
  In value ["dimension"; "version"; "class"; "id"; "size"]%string.




(** The query that names the categories of one key, one dict per
    dimension. *)
Definition query_of (names : list string) (key : list scalar)
  : list (list (string * scalar)) :=
  map (fun nc => [(fst nc, snd nc)]) (combine names key).




(** * Verification *)

(** ** General facts *)

Lemma scalar_eqb_spec a b : reflect (a = b) (scalar_eqb a b).
Proof.
  destruct a, b; simpl; try (constructor; congruence).
  - destruct (Z.eqb_spec z z0); constructor; congruence.
  - destruct (String.eqb_spec s s0); constructor; congruence.
Qed.

Lemma scalar_eqb_refl a : scalar_eqb a a = true.
Proof. destruct (scalar_eqb_spec a a); congruence. Qed.

Lemma bind_ok {A B} (m : result A) (k : A -> result B) a :
  m = Ok a -> bind m k = k a.
Proof. intros ->. reflexivity. Qed.

Lemma bind_raise {A B} (m : result A) (k : A -> result B) e :
  m = Raise e -> bind m k = Raise e.
Proof. intros ->. reflexivity. Qed.

Lemma bind_inv {A B} (m : result A) (k : A -> result B) b :
  bind m k = Ok b -> exists a, m = Ok a /\ k a = Ok b.
Proof. destruct m; simpl; intros H; [eauto | discriminate]. Qed.

Lemma bind_assoc {A B C} (m : result A) (f : A -> result B)
  (g : B -> result C) :
  bind (bind m f) g = bind m (fun a => bind (f a) g).
Proof. destruct m; reflexivity. Qed.

Lemma list_index_nth {A} (l : list A) (n : nat) (x : A) :
  nth_error l n = Some x -> list_index l (Z.of_nat n) = Ok x.
Proof.
  intros H. unfold list_index.
  assert (Hn : (n < List.length l)%nat)
    by (apply nth_error_Some; congruence).
  assert (E1 : (0 <=? Z.of_nat n) = true) by (apply Z.leb_le; lia).
  assert (E2 : (Z.of_nat n <? Z.of_nat (List.length l)) = true)
    by (apply Z.ltb_lt; lia).
  cbv zeta. rewrite E1, E1, E2. simpl. rewrite Nat2Z.id, H. reflexivity.
Qed.

Lemma list_index_beyond {A} (l : list A) (z : Z) :
  Z.of_nat (List.length l) <= z -> list_index l z = Raise IndexError.
Proof.
  intros H. unfold list_index.
  assert (E1 : (0 <=? z) = true) by (apply Z.leb_le; lia).
  assert (E2 : (z <? Z.of_nat (List.length l)) = false)
    by (apply Z.ltb_ge; lia).
  cbv zeta. rewrite E1, E1, E2. reflexivity.
Qed.

Lemma ints_length l : List.length (ints l) = List.length l.
Proof. apply length_map. Qed.

Lemma ints_index (l : list Z) (n : nat) :
  (n < List.length l)%nat ->
  list_index (ints l) (Z.of_nat n) = Ok (JInt (nth n l 0)).
Proof.
  intros H. apply list_index_nth. unfold ints.
  rewrite nth_error_map, (nth_error_nth' l 0 H). reflexivity.
Qed.

(** ** The numerals [int] and [float] read

    Whatever the embedded parsers read is a string of ASCII characters:
    a string with any other character is given [None] or [ValueError]. *)

Lemma isascii_app (s t : string) :
  isascii (String.append s t) = (isascii s && isascii t)%bool.
Proof.
  induction s as [|c s IH]; [reflexivity|].
  cbn [String.append isascii]. rewrite IH, andb_assoc. reflexivity.
Qed.

Lemma isascii_rev (s : string) : isascii (string_rev s) = isascii s.
Proof.
  induction s as [|c s IH]; [reflexivity|].
  cbn [string_rev]. rewrite isascii_app, IH. cbn [isascii].
  rewrite andb_true_r. apply andb_comm.
Qed.

Lemma is_space_below_128 (c : ascii) :
  is_space c = true -> Nat.ltb (nat_of_ascii c) 128 = true.
Proof.
  unfold is_space. cbv zeta. intros H. apply Nat.ltb_lt.
  apply orb_true_iff in H. destruct H as [H|H].
  - apply Nat.eqb_eq in H. lia.
  - apply andb_true_iff in H. destruct H as [_ H].
    apply Nat.leb_le in H. lia.
Qed.

Lemma lstrip_isascii (s : string) :
  isascii (lstrip s) = true -> isascii s = true.
Proof.
  induction s as [|c s IH]; [reflexivity|].
  cbn [lstrip]. destruct (is_space c) eqn:E; [|exact (fun H => H)].
  intros H. cbn [isascii]. rewrite (is_space_below_128 c E), (IH H).
  reflexivity.
Qed.

Lemma strip_isascii (s : string) :
  isascii (strip s) = true -> isascii s = true.
Proof.
  unfold strip. rewrite isascii_rev. intros H.
  apply lstrip_isascii in H. rewrite isascii_rev in H.
  apply lstrip_isascii. exact H.
Qed.

Lemma digit_of_below_128 (c : ascii) (d : Z) :
  digit_of c = Some d -> Nat.ltb (nat_of_ascii c) 128 = true.
Proof.
  unfold digit_of. cbv zeta.
  destruct (Nat.leb 48 (nat_of_ascii c) && Nat.leb (nat_of_ascii c) 57)%bool
    eqn:E; [|discriminate].
  intros _. apply andb_true_iff in E. destruct E as [_ E].
  apply Nat.leb_le in E. apply Nat.ltb_lt. lia.
Qed.

Lemma digits_value_isascii (s : string) :
  forall acc after_digit z,
    digits_value acc after_digit s = Some z -> isascii s = true.
Proof.
  induction s as [|c s IH]; intros acc after_digit z H; [reflexivity|].
  cbn [digits_value] in H. cbn [isascii].
  destruct (digit_of c) as [d|] eqn:Ed.
  - rewrite (digit_of_below_128 c d Ed), (IH _ _ _ H). reflexivity.
  - destruct (Ascii.eqb_spec c "_") as [->|_]; [|discriminate].
    destruct after_digit; [|discriminate]. cbn [andb] in H.
    rewrite (IH _ _ _ H). reflexivity.
Qed.

(** A string that [int] reads holds ASCII characters only. *)
Lemma int_of_str_isascii (s : string) (z : Z) :
  int_of_str s = Some z -> isascii s = true.
Proof.
  unfold int_of_str. intros H. apply strip_isascii.
  destruct (strip s) as [|c r]; [reflexivity|].
  destruct (Ascii.eqb_spec c "+") as [->|Hplus].
  { apply digits_value_isascii in H. cbn [isascii]. exact H. }
  destruct (Ascii.eqb_spec c "-") as [->|Hminus].
  { destruct (digits_value 0 false r) as [z'|] eqn:E; [|discriminate].
    apply digits_value_isascii in E. cbn [isascii]. exact E. }
  assert (H' : digits_value 0 false (String c r) = Some z).
  { destruct c as [[] [] [] [] [] [] [] []];
      first [exact H | exfalso; apply Hplus; reflexivity
            | exfalso; apply Hminus; reflexivity]. }
  exact (digits_value_isascii _ _ _ _ H').
Qed.

Lemma lower_below_128 (c : ascii) :
  Nat.ltb (nat_of_ascii (lower c)) 128 = Nat.ltb (nat_of_ascii c) 128.
Proof.
  unfold lower. cbv zeta.
  destruct (Nat.leb 65 (nat_of_ascii c) && Nat.leb (nat_of_ascii c) 90)%bool
    eqn:E; [|reflexivity].
  apply andb_true_iff in E. destruct E as [_ E]. apply Nat.leb_le in E.
  rewrite nat_ascii_embedding by lia.
  transitivity true; [|symmetry]; apply Nat.ltb_lt; lia.
Qed.

Lemma lower_str_isascii (s : string) : isascii (lower_str s) = isascii s.
Proof.
  induction s as [|c s IH]; [reflexivity|].
  cbn [lower_str isascii]. rewrite lower_below_128, IH. reflexivity.
Qed.

Lemma scan_digits_isascii (s : string) :
  forall acc cnt after_digit after_us n c rest,
    scan_digits acc cnt after_digit after_us s = Some (n, c, rest) ->
    isascii rest = true -> isascii s = true.
Proof.
  induction s as [|ch s IH]; intros acc cnt ad au n c rest H Hrest.
  - reflexivity.
  - cbn [scan_digits] in H. cbn [isascii].
    destruct (digit_of ch) as [d|] eqn:Ed.
    + rewrite (digit_of_below_128 ch d Ed), (IH _ _ _ _ _ _ _ H Hrest).
      reflexivity.
    + destruct (Ascii.eqb_spec ch "_") as [->|_].
      * destruct ad; [|discriminate].
        rewrite (IH _ _ _ _ _ _ _ H Hrest). reflexivity.
      * destruct au; [discriminate|]. injection H as _ _ <-. exact Hrest.
Qed.

Lemma signed_isascii (r : string) (P : bool * string -> Prop) :
  (forall r', r = String "+" r' -> P (false, r')) ->
  (forall r', r = String "-" r' -> P (true, r')) ->
  P (false, r) ->
  P match r with
    | String "+" r' => (false, r')
    | String "-" r' => (true, r')
    | _ => (false, r)
    end.
Proof.
  intros Hplus Hminus Hother. destruct r as [|c r']; [exact Hother|].
  destruct c as [[] [] [] [] [] [] [] []];
    first [exact Hother | exact (Hplus r' eq_refl) | exact (Hminus r' eq_refl)].
Qed.

Lemma scan_exponent_isascii (s : string) (e : Z) :
  scan_exponent s = Some e -> isascii s = true.
Proof.
  destruct s as [|c r]; [reflexivity|].
  cbn [scan_exponent].
  destruct (Ascii.eqb_spec (lower c) "e") as [Hc|_]; [|discriminate].
  assert (Hascii : Nat.ltb (nat_of_ascii c) 128 = true).
  { rewrite <- lower_below_128, Hc. reflexivity. }
  cbn [isascii]. rewrite Hascii. cbn [andb].
  apply (signed_isascii r
           (fun p => (let '(neg, digits) := p in
                      match scan_digits 0 0 false false digits with
                      | Some (e0, S _, EmptyString) =>
                          Some (if neg then - e0 else e0)
                      | _ => None
                      end) = Some e -> isascii r = true)).
  - intros r' -> H.
    destruct (scan_digits 0 0 false false r') as [[[e0 cnt] rest]|] eqn:E;
      [|discriminate].
    destruct cnt; [discriminate|]. destruct rest; [|discriminate].
    cbn [isascii]. apply (scan_digits_isascii _ _ _ _ _ _ _ _ E).
    reflexivity.
  - intros r' -> H.
    destruct (scan_digits 0 0 false false r') as [[[e0 cnt] rest]|] eqn:E;
      [|discriminate].
    destruct cnt; [discriminate|]. destruct rest; [|discriminate].
    cbn [isascii]. apply (scan_digits_isascii _ _ _ _ _ _ _ _ E).
    reflexivity.
  - intros H.
    destruct (scan_digits 0 0 false false r) as [[[e0 cnt] rest]|] eqn:E;
      [|discriminate].
    destruct cnt; [discriminate|]. destruct rest; [|discriminate].
    apply (scan_digits_isascii _ _ _ _ _ _ _ _ E). reflexivity.
Qed.

Lemma after_point {A} (r : string) (f : string -> A) (g : A)
  (P : A -> Prop) :
  (forall r', r = String "." r' -> P (f r')) ->
  P g ->
  P match r with
    | String "." r' => f r'
    | _ => g
    end.
Proof.
  intros Hpoint Hother. destruct r as [|c r']; [exact Hother|].
  destruct c as [[] [] [] [] [] [] [] []];
    first [exact Hother | exact (Hpoint r' eq_refl)].
Qed.

Lemma scan_float_isascii (s : string) (m e : Z) :
  scan_float s = Some (m, e) -> isascii s = true.
Proof.
  unfold scan_float.
  destruct (scan_digits 0 0 false false s) as [[[n1 c1] rest1]|] eqn:E1;
    [|discriminate].
  apply (after_point rest1
           (fun rest2 =>
              match scan_digits n1 0 false false rest2 with
              | None => None
              | Some (n2, c2, rest3) =>
                  if Nat.eqb (c1 + c2) 0 then None
                  else option_map (fun e => (n2, e - Z.of_nat c2))
                                  (scan_exponent rest3)
              end)
           (if Nat.eqb c1 0 then None
            else option_map (fun e => (n1, e)) (scan_exponent rest1))
           (fun r => r = Some (m, e) -> isascii s = true)).
  - intros rest2 -> H.
    destruct (scan_digits n1 0 false false rest2) as [[[n2 c2] rest3]|]
      eqn:E2; [|discriminate].
    destruct (Nat.eqb (c1 + c2) 0); [discriminate|].
    destruct (scan_exponent rest3) as [e'|] eqn:E3; [|discriminate].
    apply (scan_digits_isascii _ _ _ _ _ _ _ _ E1). cbn [isascii].
    apply (scan_digits_isascii _ _ _ _ _ _ _ _ E2).
    exact (scan_exponent_isascii _ _ E3).
  - intros H. destruct (Nat.eqb c1 0); [discriminate|].
    destruct (scan_exponent rest1) as [e'|] eqn:E3; [|discriminate].
    apply (scan_digits_isascii _ _ _ _ _ _ _ _ E1).
    exact (scan_exponent_isascii _ _ E3).
Qed.

Lemma float_body_isascii (neg : bool) (body : string) (b : bool) :
  (if (String.eqb (lower_str body) "inf"
       || String.eqb (lower_str body) "infinity")%bool
   then Ok (negb neg)
   else if String.eqb (lower_str body) "nan" then Ok false
   else
     match scan_float body with
     | None => Raise ValueError
     | Some (m, e) =>
         if neg then Ok false
         else if 0 <=? e then Ok (2 ^ 54 - 1 <=? m * 10 ^ e * 2 ^ 53)
         else Ok ((2 ^ 54 - 1) * 10 ^ (- e) <=? m * 2 ^ 53)
     end) = Ok b ->
  isascii body = true.
Proof.
  intros H. rewrite <- lower_str_isascii.
  destruct (String.eqb_spec (lower_str body) "inf") as [->|_];
    [reflexivity|].
  destruct (String.eqb_spec (lower_str body) "infinity") as [->|_];
    [reflexivity|].
  destruct (String.eqb_spec (lower_str body) "nan") as [->|_];
    [reflexivity|].
  cbn [orb] in H. rewrite lower_str_isascii.
  destruct (scan_float body) as [[m e]|] eqn:E; [|discriminate].
  exact (scan_float_isascii _ _ _ E).
Qed.

(** A version that [float] reads holds ASCII characters only. *)
Lemma float_str_ge_2_isascii (s : string) (b : bool) :
  float_str_ge_2 s = Ok b -> isascii s = true.
Proof.
  unfold float_str_ge_2. cbv zeta. intros H. apply strip_isascii.
  revert H.
  apply (signed_isascii (strip s)
           (fun p =>
              (let '(neg, body) := p in
               if (String.eqb (lower_str body) "inf"
                   || String.eqb (lower_str body) "infinity")%bool
               then Ok (negb neg)
               else if String.eqb (lower_str body) "nan" then Ok false
               else
                 match scan_float body with
                 | None => Raise ValueError
                 | Some (m, e) =>
                     if neg then Ok false
                     else if 0 <=? e
                          then Ok (2 ^ 54 - 1 <=? m * 10 ^ e * 2 ^ 53)
                          else Ok ((2 ^ 54 - 1) * 10 ^ (- e) <=? m * 2 ^ 53)
                 end) = Ok b -> isascii (strip s) = true)).
  - intros r' -> H. cbn [isascii]. exact (float_body_isascii false r' b H).
  - intros r' -> H. cbn [isascii]. exact (float_body_isascii true r' b H).
  - intros H. exact (float_body_isascii false (strip s) b H).
Qed.

(** The separators 28 to 31 are no white space for a numeral, and a
    numeral may have underscores between its digits. *)
Example numerals_read :
  int_of_str (String (ascii_of_nat 28) "0") = None /\
  float_str_ge_2 (String (ascii_of_nat 28) "2.0") = Raise ValueError /\
  int_of_str " +1_000 " = Some 1000 /\
  int_of_str "1__0" = None /\
  float_str_ge_2 " 2.0 " = Ok true /\
  float_str_ge_2 "1.999" = Ok false.
Proof. repeat split; reflexivity. Qed.

(** ** The dense pass-through of [get_values] *)

Lemma get_values_list (js_dict : json) (value : string) (l : list json) :
  py_getitem js_dict (JStr value) = Ok (JList l) ->
  get_values js_dict value =
  match l with [] => Raise IndexError | _ :: _ => Ok l end.
Proof.
  intros H. unfold get_values. rewrite H. simpl.
  destruct l as [|x l]; [reflexivity|].
  unfold list_index. simpl. rewrite orb_true_r. reflexivity.
Qed.

(** C10: when the value entry of a document is the empty list, [get_values]
    raises [IndexError] from [values[0]] and does not return the list; a
    list with a first element is returned unchanged. *)
Theorem get_values_empty_list_fails (js_dict : json) (value : string)
  (l : list json) (H : py_getitem js_dict (JStr value) = Ok (JList l)) :
  (l = [] -> get_values js_dict value = Raise IndexError) /\
  (l <> [] -> get_values js_dict value = Ok l).
Proof.
  rewrite (get_values_list _ _ _ H).
  split; intros Hl; destruct l; congruence.
Qed.

Lemma get_values_empty_list_fails_witness :
  py_getitem (JDict [("value"%string, JList [])]) (JStr "value")
  = Ok (JList []) /\
  get_values (JDict [("value"%string, JList [])]) "value" = Raise IndexError.
Proof.
  split; [reflexivity|].
  apply (get_values_empty_list_fails
           (JDict [("value"%string, JList [])]) "value" []);
    reflexivity.
Defined.

(** ** The mixed-radix index *)

Lemma flat_index_nil idx : flat_index idx [] = 0.
Proof. reflexivity. Qed.

Lemma flat_index_cons i idx s sizes :
  flat_index (i :: idx) (s :: sizes)
  = i * product sizes + flat_index idx sizes.
Proof.
  unfold flat_index. simpl List.length. rewrite <- cons_seq. simpl.
  rewrite <- seq_shift, map_map. reflexivity.
Qed.

Lemma skipn_nth_cons {A} (l : list A) (k : nat) (d : A) :
  (k < List.length l)%nat -> skipn k l = nth k l d :: skipn (S k) l.
Proof.
  revert k. induction l as [|x l IH]; intros k Hk; simpl in Hk; [lia|].
  destruct k; [reflexivity|]. simpl. apply IH. lia.
Qed.

Lemma value_index_loop_app size ndims indices l1 l2 st :
  value_index_loop size ndims indices (l1 ++ l2) st
  = bind (value_index_loop size ndims indices l1 st)
         (value_index_loop size ndims indices l2).
Proof.
  revert st. induction l1 as [|x l1 IH]; intros st; simpl; [reflexivity|].
  destruct (value_index_step size ndims indices st x); simpl; auto.
Qed.

Lemma weight_last (sizes : list Z) (m : nat) :
  (List.length sizes <= S m)%nat -> weight sizes m = 1.
Proof. intros H. unfold weight. rewrite skipn_all2 by lia. reflexivity. Qed.

Lemma weight_step (sizes : list Z) (m : nat) :
  (S m < List.length sizes)%nat ->
  weight sizes m = weight sizes (S m) * nth (S m) sizes 0.
Proof.
  intros H. unfold weight.
  rewrite (skipn_nth_cons sizes (S m) 0 H). simpl. lia.
Qed.

Lemma value_index_loop_prefix (sizes indices : list Z) (k : nat) :
  List.length indices = List.length sizes ->
  (k <= List.length sizes)%nat ->
  value_index_loop (JList (ints sizes)) (Z.of_nat (List.length sizes))
    (ints indices) (map Z.of_nat (seq 0 k)) (1, 0)
  = Ok (weight sizes (List.length sizes - k),
        flat_index (skipn (List.length sizes - k) indices)
                   (skipn (List.length sizes - k) sizes)).
Proof.
  intros Hlen Hk. set (n := List.length sizes) in *.
  induction k as [|k IH].
  - cbn [seq map value_index_loop]. rewrite Nat.sub_0_r, weight_last by (fold n; lia).
    rewrite !skipn_all2 by (fold n; lia). reflexivity.
  - rewrite seq_S, map_app, value_index_loop_app, IH by lia.
    cbn [map app bind value_index_loop Nat.add].
    unfold value_index_step.
    assert (Hs : skipn (n - S k) sizes
                 = nth (n - S k) sizes 0 :: skipn (n - k) sizes).
    { rewrite (skipn_nth_cons sizes (n - S k) 0) by (fold n; lia).
      do 2 f_equal. lia. }
    assert (Hi : skipn (n - S k) indices
                 = nth (n - S k) indices 0 :: skipn (n - k) indices).
    { rewrite (skipn_nth_cons indices (n - S k) 0) by (fold n; lia).
      do 2 f_equal. lia. }
    rewrite Hs, Hi, flat_index_cons.
    replace (Z.of_nat n - Z.of_nat k - 1) with (Z.of_nat (n - S k)) by lia.
    rewrite (ints_index indices) by (fold n; lia).
    assert (Hw : weight sizes (n - S k) = product (skipn (n - k) sizes)).
    { unfold weight. do 2 f_equal. lia. }
    destruct k as [|k].
    + rewrite Hw, !Nat.sub_0_r, weight_last by (fold n; lia).
      rewrite !skipn_all2 by (fold n; lia).
      cbn -[Z.mul Z.add]. f_equal; f_equal; lia.
    + replace (0 <? Z.of_nat (S k)) with true
        by (symmetry; apply Z.ltb_lt; lia).
      replace (Z.of_nat n - Z.of_nat (S k)) with (Z.of_nat (n - S k)) by lia.
      cbn [py_getitem]. rewrite (ints_index sizes) by (fold n; lia).
      cbn [bind].
      rewrite <- Hw.
      rewrite (weight_step sizes (n - S (S k))) by (fold n; lia).
      replace (S (n - S (S k))) with (n - S k)%nat by lia.
      f_equal; f_equal; lia.
Qed.

(** C2: for index and size lists of equal length, [get_value_index] returns
    the sum over the dimensions [d] of [dim_indices[d]] times the product of
    the sizes after [d], dimension 0 outermost; with sizes [[2,3]] it maps
    [[0,0]], [[0,1]], [[0,2]], [[1,0]], [[1,2]] to 0, 1, 2, 3, 5. *)
Theorem get_value_index_flat_index (self : json) (sizes dim_indices : list Z)
  (Hsize : own_or_dimension self "size" = Ok (JList (ints sizes)))
  (Hlen : List.length dim_indices = List.length sizes) :
  get_value_index self (ints dim_indices)
  = Ok (JInt (flat_index dim_indices sizes)) /\
  map (fun idx => get_value_index cube_2_3 (ints idx))
      [[0; 0]; [0; 1]; [0; 2]; [1; 0]; [1; 2]]
  = [Ok (JInt 0); Ok (JInt 1); Ok (JInt 2); Ok (JInt 3); Ok (JInt 5)].
Proof.
  split; [|reflexivity].
  unfold get_value_index. rewrite Hsize. cbn [bind py_len py_iter].
  rewrite ints_length, Nat2Z.id.
  rewrite value_index_loop_prefix by (auto; lia).
  rewrite Nat.sub_diag. reflexivity.
Qed.

Lemma get_value_index_flat_index_witness :
  (own_or_dimension cube_2_3 "size" = Ok (JList (ints [2; 3])) /\
   List.length [1; 2] = List.length [2; 3]) /\
  get_value_index cube_2_3 (ints [1; 2]) = Ok (JInt 5).
Proof.
  split; [split; reflexivity|].
  apply (get_value_index_flat_index cube_2_3 [2; 3] [1; 2]); reflexivity.
Defined.

(** ** Sparse values *)

Lemma zdict_get_set {V} (d : list (Z * V)) k v z :
  zdict_get (zdict_set d k v) z
  = if Z.eqb k z then Some v else zdict_get d z.
Proof.
  induction d as [|[k' v'] d IH]; simpl.
  - reflexivity.
  - destruct (Z.eqb_spec k' k) as [->|Hk]; simpl.
    + destruct (Z.eqb k z); reflexivity.
    + rewrite IH. destruct (Z.eqb_spec k' z) as [->|]; [|reflexivity].
      destruct (Z.eqb_spec k z); congruence.
Qed.

Lemma zdict_set_keys {V} (d : list (Z * V)) k v z :
  In z (map fst (zdict_set d k v)) <-> z = k \/ In z (map fst d).
Proof.
  induction d as [|[k' v'] d IH]; simpl.
  - intuition.
  - destruct (Z.eqb_spec k' k) as [->|Hk]; simpl; [intuition|].
    rewrite IH. intuition.
Qed.

Lemma zdict_set_nodup {V} (d : list (Z * V)) k v :
  NoDup (map fst d) -> NoDup (map fst (zdict_set d k v)).
Proof.
  induction d as [|[k' v'] d IH]; simpl; intros H.
  - constructor; [intros []|constructor].
  - inversion H as [|? ? Hn Hd]; subst.
    destruct (Z.eqb_spec k' k) as [->|Hk]; simpl.
    + constructor; assumption.
    + constructor; [|auto]. rewrite zdict_set_keys. intuition.
Qed.

Lemma zdict_get_none {V} (d : list (Z * V)) z :
  ~ In z (map fst d) -> zdict_get d z = None.
Proof.
  induction d as [|[k v] d IH]; simpl; intros H; [reflexivity|].
  destruct (Z.eqb_spec k z); [intuition|]. apply IH. intuition.
Qed.

Lemma last_parsed_none items z :
  (forall k v, In (k, v) items -> int_of_str k <> Some z) ->
  last_parsed items z = None.
Proof.
  induction items as [|[k v] r IH]; simpl; intros H; [reflexivity|].
  rewrite IH by eauto.
  destruct (int_of_str k) as [z'|] eqn:E; [|reflexivity].
  destruct (Z.eqb_spec z' z); [|reflexivity].
  subst. exfalso. apply (H k v); auto.
Qed.

Lemma last_parsed_some items z k v :
  In (k, v) items -> int_of_str k = Some z ->
  (forall k' v', In (k', v') items -> int_of_str k' = Some z -> v' = v) ->
  last_parsed items z = Some v.
Proof.
  induction items as [|[k0 v0] r IH]; simpl; intros Hin Hk Hall; [easy|].
  destruct (last_parsed r z) as [w|] eqn:E.
  - assert (Hw : exists k', In (k', w) r /\ int_of_str k' = Some z).
    { clear -E. induction r as [|[k1 v1] r IH]; simpl in *; [discriminate|].
      destruct (last_parsed r z) as [w'|].
      - injection E as ->. destruct IH as (k' & ? & ?); eauto.
      - destruct (int_of_str k1) as [z'|] eqn:E1; [|discriminate].
        destruct (Z.eqb_spec z' z); [|discriminate].
        injection E as ->. subst. eauto. }
    destruct Hw as (k' & Hin' & Hk'). f_equal. eapply Hall; eauto.
  - destruct Hin as [Heq|Hin].
    + injection Heq as -> ->. rewrite Hk, Z.eqb_refl. reflexivity.
    + assert (E' : @None json = Some v) by (apply IH; eauto).
      discriminate E'.
Qed.

Lemma int_keyed_spec (P : Z -> Prop) items acc :
  (forall k v, In (k, v) items -> exists z, int_of_str k = Some z /\ P z) ->
  NoDup (map fst acc) -> Forall P (map fst acc) ->
  exists d, int_keyed items acc = Ok d /\ NoDup (map fst d) /\
            Forall P (map fst d) /\
            forall z, zdict_get d z
                      = match last_parsed items z with
                        | Some v => Some v
                        | None => zdict_get acc z
                        end.
Proof.
  revert acc. induction items as [|[k v] r IH]; intros acc Hk Hnd HP.
  - exists acc. simpl. auto.
  - destruct (Hk k v) as (z & Ez & Pz); [left; reflexivity|].
    destruct (IH (zdict_set acc z v)) as (d & Hd & Hnd' & HP' & Hget).
    + intros k' v' Hin'. apply (Hk k' v'). right; assumption.
    + apply zdict_set_nodup; assumption.
    + apply Forall_forall. intros x Hx. apply zdict_set_keys in Hx.
      destruct Hx as [->|Hx]; [assumption|].
      rewrite Forall_forall in HP. auto.
    + exists d. simpl. rewrite Ez. simpl. rewrite Hd.
      repeat split; auto.
      intros z0. rewrite Hget, zdict_get_set.
      destruct (last_parsed r z0); [reflexivity|].
      destruct (z =? z0); reflexivity.
Qed.

Lemma set_nth_length {A} (l : list A) n v :
  List.length (set_nth l n v) = List.length l.
Proof.
  revert n. induction l; intros [|n]; simpl; auto.
Qed.

Lemma set_nth_same {A} (l : list A) n v :
  (n < List.length l)%nat -> nth_error (set_nth l n v) n = Some v.
Proof.
  revert n. induction l; intros [|n]; simpl; intros H; try lia; auto.
  apply IHl. lia.
Qed.

Lemma set_nth_other {A} (l : list A) n m v :
  n <> m -> nth_error (set_nth l n v) m = nth_error l m.
Proof.
  revert n m. induction l; intros [|n] [|m] H; simpl; auto; try congruence.
Qed.

Lemma assign_all_spec (d : list (Z * json)) (vals : list json) :
  NoDup (map fst d) ->
  Forall (fun z => 0 <= z < Z.of_nat (List.length vals)) (map fst d) ->
  exists vals', assign_all d vals = Ok vals' /\
    List.length vals' = List.length vals /\
    forall z, 0 <= z ->
      nth_error vals' (Z.to_nat z)
      = match zdict_get d z with
        | Some v => Some v
        | None => nth_error vals (Z.to_nat z)
        end.
Proof.
  revert vals. induction d as [|[k v] d IH]; intros vals Hnd Hr.
  - exists vals. simpl. auto.
  - simpl in Hnd, Hr. inversion Hnd as [|? ? Hk Hnd']; subst.
    inversion Hr as [|? ? Hk0 Hr']; subst.
    simpl. unfold list_setitem. cbv zeta.
    assert (E1 : (0 <=? k) = true) by (apply Z.leb_le; lia).
    assert (E2 : (k <? Z.of_nat (List.length vals)) = true)
      by (apply Z.ltb_lt; lia).
    rewrite E1, E1, E2. simpl.
    destruct (IH (set_nth vals (Z.to_nat k) v)) as (vals' & Ha & Hl & Hn).
    + assumption.
    + rewrite set_nth_length. assumption.
    + exists vals'. rewrite Ha. rewrite Hl, set_nth_length.
      repeat split; auto.
      intros z Hz. rewrite Hn by assumption.
      destruct (Z.eqb_spec k z) as [->|Hkz].
      * rewrite (zdict_get_none d z Hk).
        apply set_nth_same. lia.
      * destruct (zdict_get d z); [reflexivity|].
        apply set_nth_other. lia.
Qed.

Lemma fold_left_mul (l : list Z) (a : Z) :
  fold_left Z.mul l a = a * product l.
Proof.
  revert a. induction l as [|x l IH]; intros a; simpl; [lia|].
  rewrite IH. unfold product. lia.
Qed.

Lemma wrap64_small (z : Z) : - 2 ^ 63 <= z < 2 ^ 63 -> wrap64 z = z.
Proof.
  intros H. unfold wrap64. rewrite Z.mod_small; lia.
Qed.

Lemma mapM_int64_entry (l : list Z) :
  Forall (fun s => 0 <= s < 2 ^ 63) l ->
  mapM int64_entry (ints l) = Ok l.
Proof.
  induction 1 as [|x l Hx _ IH]; [reflexivity|].
  unfold ints in *. cbn [map mapM]. rewrite IH.
  unfold int64_entry, in_int64.
  replace (- 2 ^ 63 <=? x) with true by (symmetry; apply Z.leb_le; lia).
  replace (x <? 2 ^ 63) with true by (symmetry; apply Z.ltb_lt; lia).
  reflexivity.
Qed.

Lemma np_prod_ints (sizes : list Z) :
  sizes <> [] ->
  Forall (fun s => 0 <= s < 2 ^ 63) sizes ->
  product sizes < 2 ^ 63 ->
  np_prod (JList (ints sizes)) = Ok (np_int64 (product sizes)).
Proof.
  intros Hne Hall Hp.
  assert (H0 : 0 <= product sizes).
  { clear -Hall. induction Hall; simpl; [lia|]. nia. }
  destruct sizes as [|s sizes]; [congruence|].
  change (np_prod (JList (ints (s :: sizes))))
    with (bind (mapM int64_entry (ints (s :: sizes)))
               (fun zs => Ok (np_int64 (wrap64 (fold_left Z.mul zs 1))))).
  rewrite mapM_int64_entry by assumption. cbn [bind].
  rewrite fold_left_mul, Z.mul_1_l, wrap64_small by lia. reflexivity.
Qed.

Lemma nth_error_repeat {A} (x : A) (n i : nat) :
  (i < n)%nat -> nth_error (repeat x n) i = Some x.
Proof.
  revert i. induction n; intros [|i] H; simpl; try lia; auto.
  apply IHn. lia.
Qed.

(** C3: when the value entry is a mapping from decimal strings to values and
    the size list the reader finds (top level, else under [dimension]) has
    product [total], [get_values] returns a list of length [total] that holds
    each mapped value at the offset its key reads as and null at every
    offset no key reads as; sizes [[2,2]] with [{"0": 10, "3": 40}] give
    [[10, null, null, 40]].  The sizes are those of an array that exists:
    at least one dimension, machine-sized entries and product.  A key is a
    decimal string as [int] reads it: ASCII digits with an optional sign
    and white space around, of a length every Python 3 release
    converts. *)
Theorem get_values_sparse (js_dict : json) (value : string)
  (items : list (string * json)) (sizes : list Z)
  (Hvalue : py_getitem js_dict (JStr value) = Ok (JDict items))
  (Hsize : own_or_dimension js_dict "size" = Ok (JList (ints sizes)))
  (Hne : sizes <> [])
  (Hall : Forall (fun s => 0 <= s < 2 ^ 63) sizes)
  (Htotal : product sizes < 2 ^ 63)
  (Hkeys : forall k v, In (k, v) items ->
             exists z, int_of_str k = Some z /\ 0 <= z < product sizes)
  (Hshort : forall k v, In (k, v) items ->
              (String.length k <= int_max_str_digits)%nat) :
  (exists vals,
      get_values js_dict value = Ok vals /\
      List.length vals = Z.to_nat (product sizes) /\
      (forall k v z,
          In (k, v) items -> int_of_str k = Some z ->
          (forall k' v', In (k', v') items -> int_of_str k' = Some z ->
                         v' = v) ->
          nth_error vals (Z.to_nat z) = Some v) /\
      (forall i, 0 <= i < product sizes ->
          (forall k v, In (k, v) items -> int_of_str k <> Some i) ->
          nth_error vals (Z.to_nat i) = Some JNull)) /\
  get_values sparse_2_2 "value" = Ok [JInt 10; JNull; JNull; JInt 40].
Proof.
  split; [|reflexivity].
  destruct (int_keyed_spec (fun z => 0 <= z < product sizes) items [])
    as (d & Hd & Hnd & HP & Hget); [assumption|constructor|constructor|].
  assert (Hmax :
    bind (py_get js_dict "size")
      (fun size =>
         bind (if truthy size
               then s <- py_getitem js_dict (JStr "size") ;; np_prod s
               else dm <- py_getitem js_dict (JStr "dimension") ;;
                    s <- py_getitem dm (JStr "size") ;; np_prod s)
              (fun max_val =>
                 vals <- repeat_none max_val ;; assign_all d vals))
    = assign_all d (repeat JNull (Z.to_nat (product sizes)))).
  { unfold own_or_dimension in Hsize.
    destruct (py_get js_dict "size") as [own|e]; [|discriminate].
    cbn [bind] in *. destruct (truthy own).
    - rewrite Hsize. cbn [bind].
      rewrite np_prod_ints by assumption. reflexivity.
    - apply bind_inv in Hsize. destruct Hsize as (dm & Hdm & Hs).
      rewrite Hdm. cbn [bind]. rewrite Hs. cbn [bind].
      rewrite np_prod_ints by assumption. reflexivity. }
  destruct (assign_all_spec d (repeat JNull (Z.to_nat (product sizes))))
    as (vals & Ha & Hl & Hn).
  { assumption. }
  { rewrite repeat_length.
    assert (H0 : 0 <= product sizes).
    { clear -Hall. induction Hall; simpl; [lia|]. nia. }
    rewrite Z2Nat.id by assumption. assumption. }
  exists vals. repeat split.
  - unfold get_values. rewrite Hvalue. cbn [bind py_items]. rewrite Hd.
    cbn [bind]. rewrite Hmax. assumption.
  - rewrite Hl, repeat_length. reflexivity.
  - intros k v z Hin Hk Huniq.
    destruct (Hkeys k v Hin) as (z' & Hz' & Hr).
    assert (z' = z) by congruence. subst z'.
    rewrite Hn, Hget by lia.
    rewrite (last_parsed_some items z k v); auto.
  - intros i Hi Hnone. rewrite Hn, Hget by lia.
    rewrite last_parsed_none by assumption. simpl.
    apply nth_error_repeat. lia.
Qed.

Lemma get_values_sparse_witness :
  (py_getitem sparse_2_2 (JStr "value")
   = Ok (JDict [("0"%string, JInt 10); ("3"%string, JInt 40)]) /\
   own_or_dimension sparse_2_2 "size" = Ok (JList (ints [2; 2]))) /\
  exists vals, get_values sparse_2_2 "value" = Ok vals /\
               List.length vals = 4%nat.
Proof.
  split; [split; reflexivity|].
  destruct (get_values_sparse sparse_2_2 "value"
              [("0"%string, JInt 10); ("3"%string, JInt 40)] [2; 2])
    as [(vals & Hv & Hl & _) _].
  - reflexivity.
  - reflexivity.
  - discriminate.
  - repeat constructor; lia.
  - reflexivity.
  - intros k v [H|[H|[]]]; injection H as <- <-;
      [exists 0|exists 3]; split; try reflexivity; simpl; lia.
  - intros k v [H|[H|[]]]; injection H as <- <-; apply Nat.leb_le;
      reflexivity.
  - exists vals. split; [exact Hv|exact Hl].
Defined.

(** ** The row generator *)

Lemma flat_map_const_length {A B} (f : A -> list B) (l : list A) (n : nat) :
  (forall x, List.length (f x) = n) ->
  List.length (flat_map f l) = (List.length l * n)%nat.
Proof.
  intros H. induction l as [|x l IH]; simpl; [reflexivity|].
  rewrite length_app, H, IH. reflexivity.
Qed.

Lemma row_major_length {A} (cols : list (list A)) :
  List.length (row_major cols) = nat_product (map (@List.length A) cols).
Proof.
  induction cols as [|c rest IH]; simpl; [reflexivity|].
  rewrite (flat_map_const_length _ _ (List.length (row_major rest))).
  - rewrite IH. reflexivity.
  - intros x. apply length_map.
Qed.

Lemma row_major_width {A} (cols : list (list A)) (r : list A) :
  In r (row_major cols) -> List.length r = List.length cols.
Proof.
  revert r. induction cols as [|c rest IH]; simpl; intros r H.
  - destruct H as [<-|[]]. reflexivity.
  - apply in_flat_map in H. destruct H as (x & _ & H).
    apply in_map_iff in H. destruct H as (t & <- & Ht).
    simpl. f_equal. auto.
Qed.

Lemma mapM_length {A B} (f : A -> result B) l l' :
  mapM f l = Ok l' -> List.length l' = List.length l.
Proof.
  revert l'. induction l as [|x l IH]; simpl; intros l' H.
  - injection H as <-. reflexivity.
  - destruct (f x); [|discriminate]. simpl in H.
    destruct (mapM f l); [|discriminate]. simpl in H.
    injection H as <-. simpl. f_equal. auto.
Qed.

Lemma mapM_nth {A B} (f : A -> result B) l l' i x :
  mapM f l = Ok l' -> nth_error l i = Some x ->
  exists y, f x = Ok y /\ nth_error l' i = Some y /\
            skipn i l' = y :: skipn (S i) l'.
Proof.
  revert l' i. induction l as [|a l IH]; simpl; intros l' i H Hn.
  - destruct i; discriminate.
  - destruct (f a) as [b|] eqn:Ea; [|discriminate]. simpl in H.
    destruct (mapM f l) as [bs|] eqn:Em; [|discriminate]. simpl in H.
    injection H as <-. destruct i as [|i]; simpl in *.
    + injection Hn as <-. eauto.
    + apply (IH bs i eq_refl Hn).
Qed.

Lemma removelast_snoc {A} (l : list A) (x : A) : removelast (l ++ [x]) = l.
Proof. apply removelast_last. Qed.

(** One loop at level [i]: every category is appended, the rows below it are
    yielded with it as their prefix entry, and it is popped again. *)
Lemma row_loop_spec (n i : nat) below (rest : list (list json))
  (cats : list json) :
  (i < n)%nat ->
  (Nat.ltb (i + 1) n = false -> rest = []) ->
  (forall r, Nat.ltb (i + 1) n = true -> List.length r = S i ->
             below r = Ok (map (app r) (row_major rest), r)) ->
  forall record yielded,
    List.length record = i ->
    row_loop n i below cats record yielded
    = Ok (yielded ++ map (app record) (row_major (cats :: rest)), record).
Proof.
  intros Hi Hlast Hbelow. induction cats as [|x cats IH];
    intros record yielded Hlen.
  - simpl. rewrite app_nil_r. reflexivity.
  - cbn [row_loop]. cbv zeta.
    assert (Hl : List.length (record ++ [x]) = S i)
      by (rewrite length_app; simpl; lia).
    rewrite Hl. replace (i + 1)%nat with (S i) by lia.
    assert (Hrows : map (app record) (row_major ((x :: cats) :: rest))
                    = map (app (record ++ [x])) (row_major rest)
                      ++ map (app record) (row_major (cats :: rest))).
    { simpl. rewrite map_app, map_map. f_equal.
      apply map_ext. intros t. rewrite <- app_assoc. reflexivity. }
    rewrite Hrows.
    destruct (Nat.ltb (S i) n) eqn:Elt.
    + assert (Hne : Nat.eqb (S i) n = false)
        by (apply Nat.eqb_neq; apply Nat.ltb_lt in Elt; lia).
      rewrite Hne, Hbelow
        by (auto; replace (i + 1)%nat with (S i) by lia; assumption).
      cbn [bind]. rewrite Hl, Nat.eqb_refl, removelast_snoc.
      rewrite IH by assumption.
      rewrite <- app_assoc. reflexivity.
    + assert (He : Nat.eqb (S i) n = true)
        by (apply Nat.eqb_eq; apply Nat.ltb_ge in Elt; lia).
      rewrite He. cbn [bind]. rewrite Hl, Nat.eqb_refl, removelast_snoc.
      rewrite IH by assumption.
      rewrite Hlast
        by (replace (i + 1)%nat with (S i) by lia; assumption).
      simpl. rewrite app_nil_r, <- app_assoc. reflexivity.
Qed.

Lemma get_df_row_rec_spec (dimensions : list frame) (naming : string)
  (cols : list (list json)) :
  check_input naming = Ok tt ->
  mapM (fun d => df_column d naming) dimensions = Ok cols ->
  forall fuel i record,
    (i < List.length dimensions)%nat ->
    (List.length dimensions - i <= fuel)%nat ->
    List.length record = i ->
    get_df_row_rec fuel dimensions naming i
      (if Nat.eqb i 0 then None else Some record)
    = Ok (map (app record) (row_major (skipn i cols)), record).
Proof.
  intros Hnaming Hcols fuel.
  induction fuel as [|fuel IH]; intros i record Hi Hfuel Hlen; [lia|].
  cbn [get_df_row_rec]. rewrite Hnaming. cbn [bind].
  destruct (nth_error dimensions i) as [d|] eqn:Ed;
    [|apply nth_error_None in Ed; lia].
  rewrite (list_index_nth _ _ _ Ed). cbn [bind].
  destruct (mapM_nth _ _ _ _ _ Hcols Ed) as (c & Hc & _ & Hskip).
  rewrite Hc. cbn [bind].
  assert (Hrec : (match (if Nat.eqb i 0 then None else Some record) with
                  | Some r => if Nat.eqb i 0 then [] else r
                  | None => []
                  end) = record).
  { destruct i; simpl; [|reflexivity].
    destruct record; [reflexivity|discriminate]. }
  cbv zeta. rewrite Hrec, Hskip.
  rewrite (row_loop_spec _ i _ (skipn (S i) cols)); auto.
  - intros Hlast. apply skipn_all2. rewrite (mapM_length _ _ _ Hcols).
    apply Nat.ltb_ge in Hlast. lia.
  - intros r Hlt Hr. apply Nat.ltb_lt in Hlt.
    specialize (IH (i + 1)%nat r).
    replace (Nat.eqb (i + 1) 0) with false in IH
      by (symmetry; apply Nat.eqb_neq; lia).
    rewrite IH by lia. replace (i + 1)%nat with (S i) by lia. reflexivity.
Qed.

Lemma get_df_row_spec (dimensions : list frame) (naming : string)
  (cols : list (list json)) :
  dimensions <> [] ->
  check_input naming = Ok tt ->
  mapM (fun d => df_column d naming) dimensions = Ok cols ->
  get_df_row dimensions naming = Ok (row_major cols).
Proof.
  intros Hne Hnaming Hcols. unfold get_df_row.
  assert (H := get_df_row_rec_spec dimensions naming cols Hnaming Hcols
                 (S (List.length dimensions)) 0 []).
  cbn [Nat.eqb] in H. rewrite H.
  - cbn [bind]. simpl skipn. rewrite map_id. reflexivity.
  - destruct dimensions; [congruence|simpl; lia].
  - lia.
  - reflexivity.
Qed.

(** The position of a row in the enumeration is the flat index of its
    categories' positions. *)

Lemma nth_error_flat_map_block {A B} (f : A -> list B) (l : list A)
  (p i j : nat) (d : A) :
  (forall x, List.length (f x) = p) ->
  (i < List.length l)%nat -> (j < p)%nat ->
  nth_error (flat_map f l) (i * p + j) = nth_error (f (nth i l d)) j.
Proof.
  intros Hp. revert i. induction l as [|x l IH]; intros i Hi Hj;
    simpl in Hi; [lia|].
  simpl. destruct i as [|i].
  - simpl. rewrite nth_error_app1 by (rewrite Hp; assumption). reflexivity.
  - rewrite nth_error_app2 by (rewrite Hp; simpl; lia).
    rewrite Hp. replace (S i * p + j - p)%nat with (i * p + j)%nat
      by (simpl; lia).
    apply IH; lia.
Qed.

Lemma product_cons x l : product (x :: l) = x * product l.
Proof. reflexivity. Qed.

Lemma sizes_of_cons {A} (c : list A) cols :
  sizes_of (c :: cols) = Z.of_nat (List.length c) :: sizes_of cols.
Proof. reflexivity. Qed.

Lemma nat_product_cons x l : nat_product (x :: l) = (x * nat_product l)%nat.
Proof. reflexivity. Qed.

Lemma product_sizes_of {A} (cols : list (list A)) :
  product (sizes_of cols) = Z.of_nat (nat_product (map (@List.length A) cols)).
Proof.
  induction cols as [|c rest IH]; [reflexivity|].
  rewrite sizes_of_cons, product_cons, IH. cbn [map].
  rewrite nat_product_cons. lia.
Qed.

Lemma flat_index_bound {A} (idx : list nat) (cols : list (list A)) :
  Forall2 (fun i c => (i < List.length c)%nat) idx cols ->
  0 <= flat_index (map Z.of_nat idx) (sizes_of cols)
    < product (sizes_of cols).
Proof.
  induction 1 as [|i c idx cols Hi _ IH].
  - cbn [map sizes_of]. rewrite flat_index_nil. unfold product. simpl. lia.
  - cbn [map]. rewrite sizes_of_cons, flat_index_cons, product_cons. nia.
Qed.

Lemma row_major_nth (idx : list nat) (cols : list (list json)) :
  Forall2 (fun i c => (i < List.length c)%nat) idx cols ->
  nth_error (row_major cols)
    (Z.to_nat (flat_index (map Z.of_nat idx) (sizes_of cols)))
  = Some (pick idx cols).
Proof.
  induction 1 as [|i c idx cols Hi Hall IH]; [reflexivity|].
  pose proof (flat_index_bound idx cols Hall) as Hb.
  cbn [map]. rewrite sizes_of_cons, flat_index_cons.
  rewrite product_sizes_of in *.
  set (p := nat_product (map (@List.length json) cols)) in *.
  set (j := flat_index (map Z.of_nat idx) (sizes_of cols)) in *.
  replace (Z.to_nat (Z.of_nat i * Z.of_nat p + j))
    with (i * p + Z.to_nat j)%nat by lia.
  cbn [row_major].
  rewrite (nth_error_flat_map_block _ c p i (Z.to_nat j) JNull).
  - rewrite nth_error_map, IH. reflexivity.
  - intros x. rewrite length_map. apply row_major_length.
  - assumption.
  - lia.
Qed.

Lemma flat_index_zeros {A} (cols : list (list A)) :
  flat_index (map Z.of_nat (map (fun _ => O) cols)) (sizes_of cols) = 0.
Proof.
  induction cols as [|c rest IH]; [reflexivity|].
  cbn [map]. rewrite sizes_of_cons, flat_index_cons, IH. lia.
Qed.

Lemma flat_index_lasts {A} (cols : list (list A)) :
  Forall (fun c => c <> []) cols ->
  flat_index (map Z.of_nat (map (fun c => (List.length c - 1)%nat) cols))
             (sizes_of cols)
  = product (sizes_of cols) - 1.
Proof.
  induction 1 as [|c rest Hc _ IH]; [reflexivity|].
  cbn [map]. rewrite sizes_of_cons, flat_index_cons, IH, product_cons.
  assert (0 < List.length c)%nat by (destruct c; [congruence|simpl; lia]).
  replace (Z.of_nat (List.length c - 1)) with (Z.of_nat (List.length c) - 1)
    by lia.
  ring.
Qed.

Lemma pick_zeros (cols : list (list json)) :
  pick (map (fun _ => O) cols) cols = map (hd JNull) cols.
Proof.
  unfold pick. induction cols as [|c rest IH]; [reflexivity|].
  simpl. rewrite IH. destruct c; reflexivity.
Qed.

Lemma nth_last {A} (l : list A) (d : A) :
  nth (List.length l - 1) l d = last l d.
Proof.
  induction l as [|x l IH]; [reflexivity|].
  destruct l as [|y l]; [reflexivity|].
  simpl in *. rewrite Nat.sub_0_r in IH. exact IH.
Qed.

Lemma pick_lasts (cols : list (list json)) :
  pick (map (fun c => (List.length c - 1)%nat) cols) cols
  = map (fun c => last c JNull) cols.
Proof.
  unfold pick. induction cols as [|c rest IH]; [reflexivity|].
  simpl map. simpl combine. simpl map. rewrite IH. f_equal.
  apply nth_last.
Qed.

Lemma check_input_ok naming :
  naming = "label"%string \/ naming = "id"%string ->
  check_input naming = Ok tt.
Proof. intros [->| ->]; reflexivity. Qed.

(** C4: for a non-empty list of dimension frames, the generator yields the
    rows of the row-major enumeration of the category columns: their number
    is the product of the cardinalities, the row at the flat index of a
    tuple of positions holds the categories at those positions (dimension 0
    outermost, the last dimension fastest), the first row holds the first
    category of every dimension and the row at the product minus one the
    last category of every dimension; three dimensions of 2, 3 and 4
    categories give 24 rows, from (first, first, first) to (last, last,
    last). *)
Theorem get_df_row_row_major (dimensions : list frame) (naming : string)
  (cols : list (list json))
  (Hne : dimensions <> [])
  (Hnaming : naming = "label"%string \/ naming = "id"%string)
  (Hcols : mapM (fun d => df_column d naming) dimensions = Ok cols) :
  get_df_row dimensions naming = Ok (row_major cols) /\
  List.length (row_major cols)
  = nat_product (map (@List.length json) cols) /\
  (forall idx,
      Forall2 (fun i c => (i < List.length c)%nat) idx cols ->
      nth_error (row_major cols)
        (Z.to_nat (flat_index (map Z.of_nat idx) (sizes_of cols)))
      = Some (pick idx cols)) /\
  (Forall (fun c => c <> []) cols ->
   nth_error (row_major cols) 0 = Some (map (hd JNull) cols) /\
   nth_error (row_major cols)
     (nat_product (map (@List.length json) cols) - 1)
   = Some (map (fun c => last c JNull) cols)) /\
  (exists rows_,
      get_df_row dims_2_3_4 "id" = Ok rows_ /\
      List.length rows_ = 24%nat /\
      nth_error rows_ 0 = Some [JStr "a0"; JStr "b0"; JStr "c0"] /\
      nth_error rows_ 23 = Some [JStr "a1"; JStr "b2"; JStr "c3"]).
Proof.
  split; [|split; [|split; [|split]]];
    [| | | |exists (row_major cols_2_3_4); repeat split].
  - apply get_df_row_spec; auto using check_input_ok.
  - apply row_major_length.
  - intros idx Hidx. apply row_major_nth. exact Hidx.
  - intros Hall. split.
    + rewrite <- pick_zeros.
      pose proof (row_major_nth (map (fun _ => O) cols) cols) as H.
      rewrite flat_index_zeros in H. apply H.
      clear -Hall. induction Hall as [|c rest Hc _ IH]; simpl;
        constructor; auto.
      destruct c; [congruence|simpl; lia].
    + rewrite <- pick_lasts.
      pose proof (row_major_nth
                    (map (fun c => (List.length c - 1)%nat) cols) cols) as H.
      rewrite flat_index_lasts, product_sizes_of in H by assumption.
      replace (Z.to_nat (Z.of_nat (nat_product (map (@List.length json) cols))
                         - 1))
        with (nat_product (map (@List.length json) cols) - 1)%nat in H by lia.
      apply H.
      clear -Hall. induction Hall as [|c rest Hc _ IH]; simpl;
        constructor; auto.
      destruct c; [congruence|simpl; lia].
Qed.

Lemma get_df_row_row_major_witness :
  (dims_2_3_4 <> [] /\
   mapM (fun d => df_column d "id") dims_2_3_4 = Ok cols_2_3_4) /\
  get_df_row dims_2_3_4 "id" = Ok (row_major cols_2_3_4) /\
  List.length (row_major cols_2_3_4) = 24%nat.
Proof.
  split; [split; [discriminate|reflexivity]|].
  destruct (get_df_row_row_major dims_2_3_4 "id" cols_2_3_4)
    as (Hrows & Hlen & _).
  - discriminate.
  - right; reflexivity.
  - reflexivity.
  - split; [exact Hrows|exact Hlen].
Defined.

(** ** The frames of the dimension resolvers *)

Ltac inv_bind H :=
  repeat match type of H with
         | bind ?m ?k = Ok _ =>
             let x := fresh "x" in
             let Hx := fresh "Hx" in
             apply bind_inv in H; destruct H as (x & Hx & H)
         end.

Lemma sort_index_by_inv (df f : frame) (c : string) :
  sort_index_by df c = Ok f ->
  exists p, col_pos (columns df) c = Some p /\
            columns f = columns df /\ rows f = sort_rows p (rows df).
Proof.
  unfold sort_index_by. destruct (col_pos (columns df) c) as [p|];
    [|discriminate].
  intros H. injection H as <-. eauto.
Qed.

Lemma index_frame_columns (j : json) (f : frame) :
  index_frame j = Ok f -> columns f = ["id"; "index"]%string.
Proof.
  unfold index_frame. destruct j as [a|l|d]; simpl; intros H;
    try discriminate; injection H as <-; reflexivity.
Qed.

Lemma single_index_frame_columns (df f : frame) :
  single_index_frame df = Ok f -> columns f = ["id"; "index"]%string.
Proof.
  unfold single_index_frame. intros H. inv_bind H.
  injection H as <-. reflexivity.
Qed.

Lemma get_dim_index_columns fuel js dim f :
  get_dim_index fuel js dim = Ok f -> columns f = ["id"; "index"]%string.
Proof.
  destruct fuel as [|fuel]; [discriminate|]. cbn [get_dim_index].
  intros H. inv_bind H.
  apply sort_index_by_inv in H. destruct H as (p & _ & Hc & _).
  rewrite Hc. clear Hc.
  match type of Hx with
  | match ?s with _ => _ end = _ => destruct s as [j|[]]
  end; try discriminate.
  - eapply index_frame_columns; eassumption.
  - inv_bind Hx. eapply single_index_frame_columns; eassumption.
Qed.

Lemma merge_on_id_columns (l r f : frame) :
  columns l = ["id"; "label"]%string ->
  columns r = ["id"; "index"]%string ->
  merge_on "id" l r = Ok f ->
  columns f = ["id"; "label"; "index"]%string.
Proof.
  intros Hl Hr. unfold merge_on. rewrite Hl, Hr.
  change (col_pos ["id"; "label"]%string "id") with (Some O).
  change (col_pos ["id"; "index"]%string "id") with (Some O).
  intros H. cbv zeta iota beta in H. inv_bind H. injection H as <-.
  reflexivity.
Qed.

Ltac split_outcome H :=
  match type of H with
  | match ?s with _ => _ end = _ => destruct s as [?|[]]; try discriminate H
  end.

Lemma get_dim_label_dataset_columns fuel js dim f :
  get_dim_label fuel js dim "dataset" = Ok f ->
  columns f = ["id"; "label"; "index"]%string.
Proof.
  destruct fuel as [|fuel]; [discriminate|]. cbn [get_dim_label].
  change (String.eqb "dataset" "dataset") with true. cbv iota.
  intros H. inv_bind H. destruct x as [input label_col].
  inv_bind Hx. injection Hx as <- <-.
  inv_bind H.
  apply sort_index_by_inv in H. destruct H as (p & _ & Hc & _).
  rewrite Hc. clear Hc.
  lazymatch goal with
  | Hl : _ = Ok ?l, Hr : _ = Ok ?r, Hm : merge_on _ ?l ?r = Ok _ |- _ =>
      apply (merge_on_id_columns l r); [| |exact Hm];
      [split_outcome Hl|split_outcome Hr]
  end.
  - inv_bind Hx. injection Hx as <-. reflexivity.
  - inv_bind Hx. injection Hx as <-. reflexivity.
  - eapply index_frame_columns; eassumption.
  - eapply single_index_frame_columns; eassumption.
Qed.

Lemma fold_get_dimensions_raise js naming ids e :
  fold_left (get_dimensions_step js naming) ids (Raise e) = Raise e.
Proof. induction ids; simpl; auto. Qed.

Lemma fold_get_dimensions_columns js naming ids :
  forall dims names dims' names',
    Forall (fun d => columns d = naming_columns naming) dims ->
    fold_left (get_dimensions_step js naming) ids (Ok (dims, names))
    = Ok (dims', names') ->
    Forall (fun d => columns d = naming_columns naming) dims'.
Proof.
  induction ids as [|dim ids IH]; intros dims names dims' names' Hall H.
  - simpl in H. injection H as <- <-. assumption.
  - cbn [fold_left] in H.
    destruct (get_dimensions_step js naming (Ok (dims, names)) dim)
      as [[dims1 names1]|e] eqn:E;
      [|rewrite fold_get_dimensions_raise in H; discriminate].
    apply (IH _ _ _ _) in H; [assumption|].
    unfold get_dimensions_step in E. cbn [bind] in E. inv_bind E.
    unfold naming_columns in *.
    destruct (String.eqb naming "label"); inv_bind E;
      injection E as <- <-; apply Forall_app; (split; [assumption|]);
      (constructor; [|constructor]).
    + eapply get_dim_label_dataset_columns; eassumption.
    + eapply get_dim_index_columns; eassumption.
Qed.

Lemma get_dimensions_columns js naming dims names :
  get_dimensions js naming = Ok (dims, names) ->
  Forall (fun d => columns d = naming_columns naming) dims.
Proof.
  unfold get_dimensions. intros H. inv_bind H.
  eapply fold_get_dimensions_columns; [|eassumption]. constructor.
Qed.

Lemma naming_columns_has naming :
  naming = "label"%string \/ naming = "id"%string ->
  exists p, col_pos (naming_columns naming) naming = Some p.
Proof. intros [->| ->]; simpl; eauto. Qed.

Lemma mapM_df_column (dims : list frame) (naming : string) :
  naming = "label"%string \/ naming = "id"%string ->
  Forall (fun d => columns d = naming_columns naming) dims ->
  exists cols, mapM (fun d => df_column d naming) dims = Ok cols /\
               map (@List.length json) cols = map cardinality dims.
Proof.
  intros Hn. induction 1 as [|d dims Hd _ (cols & Hc & Hl)].
  - exists []. split; reflexivity.
  - destruct (naming_columns_has naming Hn) as (p & Hp).
    exists (map (cell p) (rows d) :: cols). simpl.
    unfold df_column at 1. rewrite Hd, Hp. simpl. rewrite Hc. simpl.
    split; [reflexivity|]. rewrite length_map, Hl. reflexivity.
Qed.

(** ** Shape mismatch in the decoder *)

Lemma attach_values_ok (recs : list (list json)) (values : list json) :
  forall k, (k + List.length recs <= List.length values)%nat ->
  exists data, attach_values (Z.of_nat k) recs values = Ok data /\
               List.length data = List.length recs.
Proof.
  induction recs as [|c recs IH]; intros k Hk.
  - exists []. split; reflexivity.
  - simpl in Hk. cbn [attach_values].
    destruct (nth_error values k) as [v|] eqn:Ev;
      [|apply nth_error_None in Ev; lia].
    rewrite (list_index_nth _ _ _ Ev). cbn [bind].
    destruct (IH (S k)) as (data & Hd & Hl); [lia|].
    replace (Z.of_nat k + 1) with (Z.of_nat (S k)) by lia.
    rewrite Hd. cbn [bind]. exists ((c ++ [v]) :: data).
    split; [reflexivity|]. simpl. congruence.
Qed.

Lemma attach_values_short (recs : list (list json)) (values : list json) :
  forall k, (k <= List.length values)%nat ->
  (List.length values < k + List.length recs)%nat ->
  attach_values (Z.of_nat k) recs values = Raise IndexError.
Proof.
  induction recs as [|c recs IH]; intros k Hk Hlt; simpl in Hlt; [lia|].
  cbn [attach_values].
  destruct (nth_error values k) as [v|] eqn:Ev.
  - rewrite (list_index_nth _ _ _ Ev). cbn [bind].
    assert (k < List.length values)%nat
      by (apply nth_error_Some; congruence).
    replace (Z.of_nat k + 1) with (Z.of_nat (S k)) by lia.
    rewrite IH by lia. reflexivity.
  - apply nth_error_None in Ev.
    rewrite list_index_beyond by lia. reflexivity.
Qed.

Lemma check_input_inv naming :
  check_input naming = Ok tt ->
  naming = "label"%string \/ naming = "id"%string.
Proof.
  unfold check_input.
  destruct (String.eqb_spec naming "label"); [auto|].
  destruct (String.eqb_spec naming "id"); [auto|discriminate].
Qed.

Lemma get_df_row_bad_naming dimensions naming :
  check_input naming <> Ok tt ->
  get_df_row dimensions naming = Raise ValueError.
Proof.
  intros H. unfold get_df_row. cbn [get_df_row_rec].
  unfold check_input in *.
  destruct (String.eqb naming "label" || String.eqb naming "id")%bool;
    [congruence|reflexivity].
Qed.

Lemma get_df_row_no_dimensions naming :
  check_input naming = Ok tt ->
  get_df_row [] naming = Raise IndexError.
Proof.
  intros H. unfold get_df_row. cbn [get_df_row_rec List.length].
  rewrite H. reflexivity.
Qed.

(** C9: when the product of the cardinalities of the resolved dimensions
    differs from the number of resolved values, [generate_df] fails: with
    [IndexError] from [values[i]] when there are more rows than values, and
    with [ValueError] from pandas' length check on the assigned axis labels
    when there are fewer. *)
Theorem generate_df_shape_mismatch (js_dict : json) (naming value : string)
  (dimensions : list frame) (dim_names values : list json)
  (Hdims : get_dimensions js_dict naming = Ok (dimensions, dim_names))
  (Hvalues : get_values js_dict value = Ok values)
  (Hmismatch : nat_product (map cardinality dimensions)
               <> List.length values) :
  (exists e, generate_df js_dict naming value = Raise e /\
             (e = IndexError \/ e = ValueError)) /\
  (dimensions <> [] ->
   naming = "label"%string \/ naming = "id"%string ->
   generate_df js_dict naming value
   = Raise (if Nat.ltb (List.length values)
                       (nat_product (map cardinality dimensions))
            then IndexError else ValueError)).
Proof.
  assert (Hmain :
    dimensions <> [] ->
    naming = "label"%string \/ naming = "id"%string ->
    generate_df js_dict naming value
    = Raise (if Nat.ltb (List.length values)
                        (nat_product (map cardinality dimensions))
             then IndexError else ValueError)).
  { intros Hne Hn. unfold generate_df. rewrite Hdims, Hvalues. cbn [bind].
    destruct (mapM_df_column dimensions naming Hn
                (get_dimensions_columns _ _ _ _ Hdims)) as (cols & Hc & Hl).
    rewrite (get_df_row_spec dimensions naming cols Hne
               (check_input_ok naming Hn) Hc). cbn [bind].
    pose proof (row_major_length cols) as Hlen. rewrite Hl in Hlen.
    destruct (Nat.ltb_spec (List.length values)
                (nat_product (map cardinality dimensions))) as [Hlt|Hge].
    - rewrite (attach_values_short _ _ 0%nat) by (simpl; lia).
      reflexivity.
    - destruct (attach_values_ok (row_major cols) values 0%nat)
        as (data & Hd & Hdl); [simpl; lia|].
      change (Z.of_nat 0) with 0 in Hd. rewrite Hd. cbn [bind].
      destruct (negb (Nat.eqb (width data)
                        (List.length (dim_names ++ [JStr value]))));
        [reflexivity|].
      replace (Nat.eqb (List.length data) (List.length values)) with false
        by (symmetry; apply Nat.eqb_neq; lia).
      reflexivity. }
  split; [|exact Hmain].
  destruct (check_input naming) as [[]|e] eqn:Ec.
  - apply check_input_inv in Ec.
    destruct dimensions as [|d dimensions].
    + exists IndexError. split; [|auto].
      unfold generate_df. rewrite Hdims, Hvalues. cbn [bind].
      rewrite get_df_row_no_dimensions by (apply check_input_ok; assumption).
      reflexivity.
    + rewrite Hmain by (auto; discriminate).
      eexists. split; [reflexivity|].
      destruct (Nat.ltb _ _); auto.
  - exists ValueError. split; [|auto].
    unfold generate_df. rewrite Hdims, Hvalues. cbn [bind].
    rewrite get_df_row_bad_naming by congruence. reflexivity.
Qed.

Lemma generate_df_shape_mismatch_witness :
  (get_dimensions (cube_sex [1; 2; 3]) "id" = Ok ([sex_frame], [JStr "sex"]) /\
   get_values (cube_sex [1; 2; 3]) "value" = Ok (ints [1; 2; 3]) /\
   nat_product (map cardinality [sex_frame]) <> List.length (ints [1; 2; 3]))
  /\ generate_df (cube_sex [1; 2; 3]) "id" "value" = Raise ValueError.
Proof.
  split; [split; [vm_compute; reflexivity|split; [reflexivity|discriminate]]|].
  apply (proj2 (generate_df_shape_mismatch (cube_sex [1; 2; 3]) "id" "value"
                  [sex_frame] [JStr "sex"] (ints [1; 2; 3])
                  ltac:(vm_compute; reflexivity) eq_refl
                  ltac:(discriminate))).
  - discriminate.
  - right; reflexivity.
Defined.

(** ** Label fallback *)

Lemma insert_row_perm p r l : Permutation (insert_row p r l) (r :: l).
Proof.
  induction l as [|r' l IH]; simpl; [reflexivity|].
  destruct (json_leb (cell p r) (cell p r')); [reflexivity|].
  rewrite IH. apply perm_swap.
Qed.

Lemma sort_rows_perm p l : Permutation (sort_rows p l) l.
Proof.
  induction l as [|r l IH]; simpl; [reflexivity|].
  rewrite insert_row_perm. constructor. exact IH.
Qed.

Lemma range_length n : List.length (range n) = n.
Proof. unfold range. rewrite length_map, length_seq. reflexivity. Qed.

Lemma map_fst_combine {A B} (l : list A) (l' : list B) :
  List.length l = List.length l' -> map fst (combine l l') = l.
Proof.
  revert l'. induction l as [|x l IH]; intros [|y l'] H; simpl in *;
    try discriminate; [reflexivity|].
  f_equal. apply IH. lia.
Qed.

Lemma map_snd_combine {A B} (l : list A) (l' : list B) :
  List.length l = List.length l' -> map snd (combine l l') = l'.
Proof.
  revert l'. induction l as [|x l IH]; intros [|y l'] H; simpl in *;
    try discriminate; [reflexivity|].
  f_equal. apply IH. lia.
Qed.

Lemma index_ids_list l : index_ids (JList l) = l.
Proof.
  unfold index_ids, index_pairs.
  apply map_fst_combine. rewrite range_length. reflexivity.
Qed.








(** A dimension document read on its own ([Dimension.write('dataframe')],
    [input='dimension']) takes another path: without [category.label] the
    fallback calls [get_dim_index], which looks for the descriptor under
    [js_dict['dimension']], and the [KeyError] of that lookup ends the
    call. *)
Example get_dim_label_standalone_no_label :
  get_dim_label recursion_limit
    (JDict [("label"%string, JStr "Sex");
            ("category"%string,
             JDict [("index"%string, JList [JStr "M"; JStr "F"])])])
    (JStr "Sex") "dimension"
  = Raise KeyError.
Proof. reflexivity. Qed.

(** ** Point queries *)

Lemma mapM_raise {A B} (f : A -> result B) (l : list A) (x : A) (e : exn) :
  In x l -> f x = Raise e -> exists e', mapM f l = Raise e'.
Proof.
  induction l as [|a l IH]; intros Hin Hx; [contradiction|].
  simpl. destruct Hin as [->|Hin].
  - rewrite Hx. simpl. eauto.
  - destruct (f a); simpl; [|eauto].
    destruct (IH Hin Hx) as (e' & ->). simpl. eauto.
Qed.

Lemma list_find_absent (l : list json) (v : scalar) (pos : Z) :
  ~ In (JAtom v) l -> list_find l v pos = Raise ValueError.
Proof.
  revert pos. induction l as [|x l IH]; intros pos H; simpl; [reflexivity|].
  destruct x as [a|?|?]; try (apply IH; simpl in H; tauto).
  destruct (scalar_eqb_spec a v) as [->|Hne].
  - exfalso. apply H. left. reflexivity.
  - apply IH. simpl in H. tauto.
Qed.

Lemma dict_get_absent {V} (d : list (string * V)) (s : string) :
  ~ In s (map fst d) -> dict_get d s = None.
Proof.
  induction d as [|[k v] d IH]; simpl; intros H; [reflexivity|].
  destruct (String.eqb_spec k s); [tauto|]. apply IH. tauto.
Qed.

(** C8, amended: when a dimension declares a [category.index] (a list or
    a mapping) and the id the query asks for in that dimension is not among
    the ids of that index, [get_dimension_index] raises ([ValueError] for a
    list, [KeyError] for a mapping), and so [get_dimension_indices] and
    [get_value] raise and return no value. *)
Theorem get_value_unknown_category
  (self_items dimension descriptor category : list (string * json))
  (query : list (list (string * scalar)))
  (ids : json) (id_list : list json) (name : string) (value : scalar)
  (others : list scalar) (dim_index : json)
  (Hids : own_or_dimension (JDict self_items) "id" = Ok ids)
  (Hiter : py_iter ids = Ok id_list)
  (Hname : In (JStr name) id_list)
  (Hquery : query_matches query (JStr name) = Ok (value :: others))
  (Hdimension : dict_get self_items "dimension" = Some (JDict dimension))
  (Hdescriptor : dict_get dimension name = Some (JDict descriptor))
  (Hcategory : dict_get descriptor "category" = Some (JDict category))
  (Hindex : dict_get category "index" = Some dim_index)
  (Hshape : is_dict dim_index = true \/ exists l, dim_index = JList l)
  (Hunknown : ~ In (JAtom value) (index_ids dim_index)) :
  get_dimension_index (JDict self_items) (JStr name) value
  = Raise (unknown_category_error dim_index) /\
  (exists e, get_dimension_indices (JDict self_items) query = Raise e) /\
  (exists e, get_value (JDict self_items) query = Raise e).
Proof.
  assert (Hone : get_dimension_index (JDict self_items) (JStr name) value
                 = Raise (unknown_category_error dim_index)).
  { unfold get_dimension_index.
    cbn [py_get_default py_getitem bind].
    rewrite Hdimension. cbn [py_get_default py_getitem bind].
    rewrite Hdescriptor. cbn [py_get_default py_getitem bind].
    rewrite Hcategory. cbn [py_contains py_getitem bind].
    unfold dict_mem. rewrite Hindex. cbn [negb bind].
    destruct Hshape as [Hd|(l & ->)].
    - destruct dim_index as [a|l|d]; try discriminate Hd.
      cbn [py_getitem unknown_category_error].
      destruct value as [|z|s]; try reflexivity.
      rewrite dict_get_absent; [reflexivity|].
      intros Hin. apply Hunknown. unfold index_ids. cbn [index_pairs].
      rewrite map_map. cbn [fst]. apply in_map_iff in Hin.
      destruct Hin as ([k v] & <- & Hin). apply in_map_iff.
      exists (k, v). split; [reflexivity|exact Hin].
    - rewrite index_ids_list in Hunknown.
      apply list_find_absent. exact Hunknown. }
  assert (Hall : exists e,
             get_dimension_indices (JDict self_items) query = Raise e).
  { unfold get_dimension_indices. rewrite Hids. cbn [bind].
    rewrite Hiter. cbn [bind].
    eapply mapM_raise; [exact Hname|].
    cbn beta. rewrite Hquery. cbn [bind].
    change (list_index (value :: others) 0) with (Ok value).
    cbn [bind]. exact Hone. }
  split; [exact Hone|]. split; [exact Hall|].
  destruct Hall as (e & He). exists e.
  unfold get_value. rewrite He. reflexivity.
Qed.

Lemma get_value_unknown_category_witness :
  (own_or_dimension (cube_sex [1; 2]) "id" = Ok (JList [JStr "sex"]) /\
   query_matches [[("sex"%string, SStr "X")]] (JStr "sex") = Ok [SStr "X"] /\
   ~ In (JStr "X") (index_ids (JList [JStr "M"; JStr "F"]))) /\
  get_dimension_index (cube_sex [1; 2]) (JStr "sex") (SStr "X")
  = Raise ValueError /\
  (exists e, get_dimension_indices (cube_sex [1; 2])
               [[("sex"%string, SStr "X")]] = Raise e) /\
  (exists e, get_value (cube_sex [1; 2]) [[("sex"%string, SStr "X")]]
             = Raise e).
Proof.
  assert (Hunknown : ~ In (JStr "X") (index_ids (JList [JStr "M"; JStr "F"]))).
  { intros [H|[H|[]]]; discriminate H. }
  split; [split; [reflexivity|split; [reflexivity|exact Hunknown]]|].
  unfold cube_sex.
  eapply (get_value_unknown_category _ _ _ _
            [[("sex"%string, SStr "X")]] (JList [JStr "sex"]) [JStr "sex"]
            "sex" (SStr "X") [] (JList [JStr "M"; JStr "F"]));
    try reflexivity.
  - left; reflexivity.
  - right. eexists; reflexivity.
  - exact Hunknown.
Defined.

(** Without [category.index] the guard of [get_dimension_index] answers 0
    for every id, so a query for the unknown category [X] returns the value
    of the only cell. *)
Lemma get_value_unknown_category_counterexample :
  ~ unknown_category_always_fails.
Proof.
  intros H.
  destruct (H cube_total [[("sex"%string, SStr "X")]]
              (JList [JStr "sex"]) [JStr "sex"] (JStr "sex") (SStr "X") [])
    as (e & He).
  - reflexivity.
  - reflexivity.
  - left; reflexivity.
  - reflexivity.
  - intros [Hin|[]]. discriminate Hin.
  - vm_compute in He. discriminate He.
Qed.

Example get_value_cube_total :
  get_value cube_total [[("sex"%string, SStr "X")]] = Ok (JInt 7).
Proof. reflexivity. Qed.

(** The guard itself: a dimension without [category.index] gives position
    0 to whatever id is asked for. *)
Lemma get_dimension_index_no_index
  (self_items dimension descriptor category : list (string * json))
  (name : string) (value : scalar) :
  dict_get self_items "dimension" = Some (JDict dimension) ->
  dict_get dimension name = Some (JDict descriptor) ->
  dict_get descriptor "category" = Some (JDict category) ->
  dict_get category "index" = None ->
  get_dimension_index (JDict self_items) (JStr name) value = Ok (JInt 0).
Proof.
  intros Hd Hn Hc Hi. unfold get_dimension_index.
  cbn [py_get_default bind]. rewrite Hd. cbn [py_get_default bind].
  rewrite Hn. cbn [py_get_default bind]. rewrite Hc.
  cbn [py_contains bind]. unfold dict_mem. rewrite Hi. reflexivity.
Qed.

(** ** The encoder's choice of category columns *)

(** What the comprehension keeps: the columns whose name does not occur
    inside [value]. *)
Lemma items_not_in_value_strings (cols : list scalar) (value : string) :
  all_strings cols ->
  items_not_in_value cols value
  = Ok (filter (fun c => negb (is_substring_of value c)) cols).
Proof.
  induction 1 as [|c cols (s & ->) _ IH]; [reflexivity|].
  cbn [items_not_in_value filter is_substring_of]. rewrite IH. cbn [bind].
  destruct (str_contains s value); reflexivity.
Qed.

(** C5: the table with the columns [a] and [value] is encoded without any
    dimension: the column [a] differs from the value column, but its name
    occurs inside ["value"], and [item not in value] drops it. *)
Theorem to_json_stat_drops_substring_column :
  items_not_in_value (columns table_a) "value" = Ok [] /\
  to_json_stat (OneFrame table_a) "value" "dict" "2.0"
  = Ok (JDict [("dimension"%string, JDict []);
               ("value"%string, JList [JInt 1]);
               ("version"%string, JStr "2.0");
               ("class"%string, JStr "dataset");
               ("id"%string, JList []);
               ("size"%string, JList [])]).
Proof. split; reflexivity. Qed.

(** ** Repeated column names *)

Lemma existsb_scalar_in (x : scalar) (l : list scalar) :
  In x l -> existsb (scalar_eqb x) l = true.
Proof.
  intros H. apply existsb_exists. exists x. split; [exact H|].
  apply scalar_eqb_refl.
Qed.

Lemma nodupb_repeated (l1 l2 l3 : list scalar) (x : scalar) :
  nodupb (l1 ++ x :: l2 ++ x :: l3) = false.
Proof.
  induction l1 as [|y l1 IH]; simpl.
  - rewrite existsb_scalar_in; [reflexivity|].
    apply in_or_app. right. left. reflexivity.
  - rewrite IH. apply andb_false_r.
Qed.

Lemma filter_repeated {A} (f : A -> bool) (l1 l2 l3 : list A) (x : A) :
  f x = true ->
  exists m1 m2 m3, filter f (l1 ++ x :: l2 ++ x :: l3)
                   = m1 ++ x :: m2 ++ x :: m3.
Proof.
  intros Hx. exists (filter f l1), (filter f l2), (filter f l3).
  rewrite filter_app. cbn [filter]. rewrite Hx.
  rewrite filter_app. cbn [filter]. rewrite Hx. reflexivity.
Qed.

Lemma filter_all {A} (f : A -> bool) (l : list A) :
  (forall x, In x l -> f x = true) -> filter f l = l.
Proof.
  induction l as [|x l IH]; intros H; simpl; [reflexivity|].
  rewrite H by (left; reflexivity). f_equal. apply IH.
  intros y Hy. apply H. right. exact Hy.
Qed.

(** The rejection the encoder does make: a name that does not occur inside
    [value] and labels two columns is refused, by pandas when it reindexes
    or by the explicit test that follows. *)
Lemma encode_frame_duplicate_column (row : nat) (dataframe : table)
  (value version : string) (name : string) (l1 l2 l3 : list scalar) :
  all_strings (columns dataframe) ->
  columns dataframe = l1 ++ SStr name :: l2 ++ SStr name :: l3 ->
  str_contains name value = false ->
  encode_frame row dataframe value version = Raise ValueError.
Proof.
  intros Hstr Hcols Hsub. unfold encode_frame.
  rewrite (items_not_in_value_strings _ _ Hstr). cbn [bind].
  set (items := filter (fun c => negb (is_substring_of value c))
                       (columns dataframe)).
  assert (Htarget : filter (fun r => existsb (scalar_eqb r)
                                       (columns dataframe)) items = items).
  { apply filter_all. intros x Hx. apply existsb_scalar_in.
    unfold items in Hx. apply filter_In in Hx. tauto. }
  destruct (filter_repeated (fun c => negb (is_substring_of value c))
              l1 l2 l3 (SStr name)) as (m1 & m2 & m3 & Hitems).
  { cbn [is_substring_of]. rewrite Hsub. reflexivity. }
  rewrite <- Hcols in Hitems. fold items in Hitems.
  unfold df_filter. cbv zeta. rewrite Htarget.
  destruct (scalars_eqb items (columns dataframe)).
  - cbn [bind]. rewrite Hcols, nodupb_repeated. reflexivity.
  - rewrite Hcols at 1. rewrite nodupb_repeated.
    rewrite Hitems. rewrite length_app. cbn [List.length negb andb].
    replace (Nat.eqb (List.length m1 + S (List.length (m2 ++ SStr name :: m3))) 0)
      with false by (symmetry; apply Nat.eqb_neq; lia).
    reflexivity.
Qed.

(** C7: two columns named [a] beside the value column [value] are encoded
    without an error: both names occur inside ["value"], the comprehension
    drops both before pandas or the test for repeated names sees them, and
    a document with no dimension comes out.  Two columns named [region] are
    refused. *)
Theorem to_json_stat_accepts_repeated_substring_column :
  to_json_stat (OneFrame table_a_a) "value" "dict" "2.0"
  = Ok (JDict [("dimension"%string, JDict []);
               ("value"%string, JList [JInt 1]);
               ("version"%string, JStr "2.0");
               ("class"%string, JStr "dataset");
               ("id"%string, JList []);
               ("size"%string, JList [])]) /\
  to_json_stat (OneFrame table_region_region) "value" "dict" "2.0"
  = Raise ValueError.
Proof. split; reflexivity. Qed.

(** ** Round trip *)

(** *** Insertion sort on a frame already in order *)



(** *** Dictionaries built from pairs with distinct keys *)

Lemma dict_set_fresh {V} (d : list (string * V)) k v :
  ~ In k (map fst d) -> dict_set d k v = d ++ [(k, v)].
Proof.
  induction d as [|[k' v'] d IH]; simpl; intros H; [reflexivity|].
  destruct (String.eqb_spec k' k); [tauto|]. rewrite IH by tauto.
  reflexivity.
Qed.

Lemma dict_update_fresh {V} (d e : list (string * V)) :
  NoDup (map fst (d ++ e)) -> dict_update d e = d ++ e.
Proof.
  revert d. induction e as [|[k v] e IH]; intros d H.
  - unfold dict_update. simpl. rewrite app_nil_r. reflexivity.
  - unfold dict_update in *. cbn [fold_left fst snd].
    rewrite dict_set_fresh.
    + rewrite IH; rewrite <- app_assoc; [reflexivity|exact H].
    + rewrite map_app in H. apply NoDup_remove_2 in H.
      intros Hin. apply H. apply in_or_app. left. exact Hin.
Qed.

Lemma dict_get_in {V} (d : list (string * V)) k v :
  NoDup (map fst d) -> In (k, v) d -> dict_get d k = Some v.
Proof.
  induction d as [|[k' v'] d IH]; simpl; intros Hnd Hin; [contradiction|].
  inversion Hnd as [|? ? Hk Hd]; subst.
  destruct Hin as [Heq|Hin].
  - injection Heq as -> ->. rewrite String.eqb_refl. reflexivity.
  - destruct (String.eqb_spec k' k) as [->|]; [|auto].
    exfalso. apply Hk. apply in_map_iff. exists (k, v). auto.
Qed.

Lemma dict_set_same {V} (d : list (string * V)) k v :
  dict_get d k = Some v -> dict_set d k v = d.
Proof.
  induction d as [|[k' v'] d IH]; simpl; intros H; [discriminate|].
  destruct (String.eqb_spec k' k) as [->|].
  - injection H as ->. reflexivity.
  - rewrite IH by exact H. reflexivity.
Qed.

Lemma dict_get_set_same {V} (d : list (string * V)) k v :
  dict_get (dict_set d k v) k = Some v.
Proof.
  induction d as [|[k' v'] d IH]; simpl.
  - rewrite String.eqb_refl. reflexivity.
  - destruct (String.eqb_spec k' k) as [->|Hne]; simpl.
    + rewrite String.eqb_refl. reflexivity.
    + destruct (String.eqb_spec k' k); [contradiction|]. exact IH.
Qed.

Lemma dict_set_set {V} (d : list (string * V)) k v w :
  dict_set (dict_set d k v) k w = dict_set d k w.
Proof.
  induction d as [|[k' v'] d IH]; simpl.
  - rewrite String.eqb_refl. reflexivity.
  - destruct (String.eqb_spec k' k) as [->|Hne]; simpl.
    + rewrite String.eqb_refl. reflexivity.
    + destruct (String.eqb_spec k' k); [contradiction|]. rewrite IH.
      reflexivity.
Qed.

Lemma update_dimension_spec (d : list (string * json))
  (dimension categories : list (string * json)) :
  dict_get d "dimension" = Some (JDict dimension) ->
  update_dimension d categories
  = Ok (dict_set d "dimension" (JDict (dict_update dimension categories))).
Proof.
  revert d dimension. induction categories as [|[k v] cs IH];
    intros d dimension Hd.
  - cbn [update_dimension dict_update fold_left].
    rewrite dict_set_same by exact Hd. reflexivity.
  - cbn [update_dimension]. rewrite Hd. cbn [fst snd].
    rewrite (IH _ (dict_set dimension k v)) by apply dict_get_set_same.
    rewrite dict_set_set. reflexivity.
Qed.

Lemma dict_update_idempotent {V} (pairs : list (string * V)) :
  NoDup (map fst pairs) -> dict_update pairs pairs = pairs.
Proof.
  intros Hnd. unfold dict_update.
  assert (H : forall e, (forall kv, In kv e -> In kv pairs) ->
                        fold_left (fun acc kv => dict_set acc (fst kv) (snd kv))
                                  e pairs = pairs).
  { induction e as [|[k v] e IH]; intros He; [reflexivity|].
    cbn [fold_left fst snd]. rewrite dict_set_same.
    - apply IH. intros kv Hkv. apply He. right. exact Hkv.
    - apply dict_get_in; [exact Hnd|]. apply He. left. reflexivity. }
  apply H. auto.
Qed.

(** *** List facts for the round trip *)

Lemma map_nth_seq {A} (l : list A) (d : A) :
  map (fun j => nth j l d) (seq 0 (List.length l)) = l.
Proof.
  induction l as [|x l IH]; [reflexivity|].
  cbn [List.length seq map nth]. f_equal.
  rewrite <- seq_shift, map_map. exact IH.
Qed.

Lemma map_nth_seq_app {A} (l r : list A) (d : A) :
  map (fun j => nth j (l ++ r) d) (seq 0 (List.length l)) = l.
Proof.
  rewrite <- (map_nth_seq l d) at 2. apply map_ext_in.
  intros j Hj. apply in_seq in Hj. apply app_nth1. lia.
Qed.

Lemma mapM_map_ok {A B C} (f : B -> result C) (g : A -> B) (h : A -> C)
  (l : list A) :
  (forall x, In x l -> f (g x) = Ok (h x)) ->
  mapM f (map g l) = Ok (map h l).
Proof.
  induction l as [|x l IH]; intros H; [reflexivity|].
  cbn [map mapM]. rewrite H by (left; reflexivity). cbn [bind].
  rewrite IH; [reflexivity|]. intros y Hy. apply H. right. exact Hy.
Qed.


Lemma nodupb_NoDup (l : list scalar) : NoDup l -> nodupb l = true.
Proof.
  induction 1 as [|x l Hx _ IH]; [reflexivity|].
  cbn [nodupb]. rewrite IH, andb_true_r.
  destruct (existsb (scalar_eqb x) l) eqn:E; [|reflexivity].
  apply existsb_exists in E. destruct E as (y & Hy & Heq).
  destruct (scalar_eqb_spec x y); [subst; contradiction|discriminate].
Qed.

Lemma scalars_eqb_shorter (l : list scalar) (x : scalar) :
  scalars_eqb l (l ++ [x]) = false.
Proof.
  induction l as [|y l IH]; [reflexivity|].
  cbn [app scalars_eqb]. rewrite IH. apply andb_false_r.
Qed.

Lemma label_pos_fresh (pre : list scalar) (x : scalar) (rest : list scalar) :
  ~ In x pre -> label_pos (pre ++ x :: rest) x = Some (List.length pre).
Proof.
  induction pre as [|y pre IH]; intros H.
  - cbn [app label_pos]. rewrite scalar_eqb_refl. reflexivity.
  - cbn [app label_pos List.length].
    destruct (scalar_eqb_spec y x) as [->|_]; [exfalso; apply H; left; auto|].
    rewrite IH by (intros Hin; apply H; right; exact Hin). reflexivity.
Qed.

Lemma label_positions (pre l rest : list scalar) :
  NoDup (pre ++ l) ->
  map (fun t => match label_pos (pre ++ l ++ rest) t with
                | Some p => p
                | None => O
                end) l
  = seq (List.length pre) (List.length l).
Proof.
  revert pre. induction l as [|x l IH]; intros pre Hnd; [reflexivity|].
  cbn [map List.length seq]. f_equal.
  - cbn [app]. rewrite label_pos_fresh; [reflexivity|].
    apply NoDup_remove_2 in Hnd. intros Hin. apply Hnd.
    apply in_or_app. left. exact Hin.
  - specialize (IH (pre ++ [x])).
    rewrite <- !app_assoc in IH. cbn [app] in IH.
    rewrite length_app in IH. cbn [List.length] in IH.
    replace (List.length pre + 1)%nat with (S (List.length pre)) in IH by lia.
    apply IH. exact Hnd.
Qed.

Lemma NoDup_map_SStr (l : list string) : NoDup l -> NoDup (map SStr l).
Proof.
  induction 1 as [|x l Hx _ IH]; [constructor|].
  cbn [map]. constructor; [|exact IH].
  intros Hin. apply in_map_iff in Hin. destruct Hin as (y & Hy & Hin).
  injection Hy as ->. contradiction.
Qed.

(** [uniquify] keeps each value once. *)
Lemma uniquify_from_spec (seen seq : list scalar) :
  NoDup (uniquify_from seen seq) /\
  forall x, In x (uniquify_from seen seq) <-> In x seq /\ ~ In x seen.
Proof.
  revert seen. induction seq as [|y seq IH]; intros seen.
  - split; [constructor|]. simpl. tauto.
  - cbn [uniquify_from].
    destruct (existsb (scalar_eqb y) seen) eqn:E.
    + apply existsb_exists in E. destruct E as (z & Hz & Heq).
      destruct (scalar_eqb_spec y z) as [->|]; [|discriminate].
      destruct (IH seen) as [Hnd Hin]. split; [exact Hnd|].
      intros x. rewrite Hin. simpl. split; [tauto|].
      intros [[->|H] Hn]; tauto.
    + assert (Hy : ~ In y seen).
      { intros Hin. rewrite existsb_scalar_in in E by exact Hin.
        discriminate. }
      destruct (IH (y :: seen)) as [Hnd Hin]. split.
      * constructor; [|exact Hnd]. rewrite Hin. simpl. tauto.
      * intros x. simpl. rewrite Hin. simpl.
        destruct (scalar_eqb_spec y x) as [->|Hne]; tauto.
Qed.

Lemma uniquify_NoDup (seq : list scalar) : NoDup (uniquify seq).
Proof. apply uniquify_from_spec. Qed.

Lemma uniquify_In (seq : list scalar) (x : scalar) :
  In x (uniquify seq) <-> In x seq.
Proof.
  unfold uniquify. rewrite (proj2 (uniquify_from_spec [] seq)).
  simpl. tauto.
Qed.

(** *** A table that lists a cube in row-major order *)

Lemma enumerate_snd {A} (l : list A) : map snd (enumerate l) = l.
Proof.
  unfold enumerate. apply map_snd_combine.
  rewrite length_map, length_seq. reflexivity.
Qed.

Lemma enumerate_in {A} (l : list A) (kj : Z * A) :
  In kj (enumerate l) -> In (snd kj) l.
Proof.
  destruct kj as [k j]. unfold enumerate. intros H.
  apply in_combine_r in H. exact H.
Qed.

Lemma to_str_string (s : string) : to_str (SStr s) = Ok (SStr s).
Proof.
  unfold to_str, py_int. destruct (int_of_str s); reflexivity.
Qed.

Lemma to_int_text (s : string) :
  int_of_str s = None -> to_int (SStr s) = Ok (SStr s).
Proof. intros H. unfold to_int, py_int. rewrite H. reflexivity. Qed.

Lemma str_contains_refl (s : string) : str_contains s s = true.
Proof.
  destruct s as [|c s]; [reflexivity|].
  cbn [str_contains]. rewrite (proj2 (String.prefix_correct _ _)).
  - reflexivity.
  - clear. generalize (String c s). intros t.
    induction t as [|a t IH]; [reflexivity|].
    cbn [String.length String.substring]. f_equal. exact IH.
Qed.

Lemma label_pos_nth (l : list string) (j : nat) :
  NoDup l -> (j < List.length l)%nat ->
  label_pos (map SStr l) (SStr (nth j l ""%string)) = Some j.
Proof.
  intros Hnd. revert j. induction Hnd as [|a l Ha _ IH]; intros j Hj;
    [simpl in Hj; lia|].
  destruct j as [|j]; cbn [map label_pos nth].
  - rewrite scalar_eqb_refl. reflexivity.
  - simpl in Hj.
    destruct (scalar_eqb_spec (SStr a) (SStr (nth j l ""%string))) as [E|_].
    + exfalso. injection E as E. apply Ha. rewrite E. apply nth_In. lia.
    + rewrite IH by lia. reflexivity.
Qed.

Lemma mapM_ok {A B} (f : A -> result B) (h : A -> B) (l : list A) :
  (forall x, In x l -> f x = Ok (h x)) -> mapM f l = Ok (map h l).
Proof.
  intros H. rewrite <- (map_id l) at 1. apply mapM_map_ok. exact H.
Qed.

Lemma NoDup_map_str_of (u : list scalar) :
  NoDup u -> (forall c, In c u -> exists s, c = SStr s) ->
  NoDup (map str_of u).
Proof.
  induction 1 as [|x u Hx _ IH]; intros Hs; [constructor|].
  cbn [map]. constructor.
  - intros Hin. apply in_map_iff in Hin. destruct Hin as (y & Hy & Hin).
    destruct (Hs x) as (a & ->); [left; reflexivity|].
    destruct (Hs y) as (b & ->); [right; exact Hin|].
    cbn [str_of] in Hy. subst. contradiction.
  - apply IH. intros c Hc. apply Hs. right. exact Hc.
Qed.

(** Putting the dataset of version 2.0 together. *)
Lemma assemble_dataset (categories : list (string * json))
  (vals ids sizes : json) :
  NoDup (map fst categories) ->
  bind (update_dimension
          (dict_set
             (dict_set
                (dict_set (dict_set [] "dimension" (JDict [])) "value" vals)
                "version" (JStr "2.0"))
             "class" (JStr "dataset"))
          categories)
       (fun dataset =>
          update_dimension
            (dict_set (dict_set dataset "id" ids) "size" sizes) categories)
  = Ok [("dimension"%string, JDict categories);
        ("value"%string, vals);
        ("version"%string, JStr "2.0");
        ("class"%string, JStr "dataset");
        ("id"%string, ids);
        ("size"%string, sizes)].
Proof.
  intros Hnd.
  rewrite (update_dimension_spec _ []) by reflexivity. cbn [bind].
  rewrite (dict_update_fresh [] categories) by exact Hnd. cbn [app].
  rewrite (update_dimension_spec _ categories) by reflexivity.
  rewrite dict_update_idempotent by exact Hnd. reflexivity.
Qed.






(** ** Encoding and decoding a cube table

    The assumptions on the table are shared by the lemmas that follow the
    encoder and then the decoder through it.  The names of the category
    columns are strings of ASCII characters that are no numerals: [to_int]
    leaves such a name alone, whereas a name that [int] reads, in whatever
    script, is filed under the integer. *)

Section RoundTrip.
Variables (names : list string) (keys : list (list scalar))
          (vals : list scalar).

Hypothesis Hnames_ne : names <> [].
Hypothesis Hnames_nodup : NoDup names.
Hypothesis Hnames_free :
  forall s, In s names -> str_contains s "value" = false.
Hypothesis Hnames_text :
  forall s, In s names -> isascii s = true /\ int_of_str s = None.
Hypothesis Hvals : List.length vals = List.length keys.
Hypothesis Hvals_writable : Forall writable vals.
Hypothesis Hrows : keys <> [].
Hypothesis Hcells :
  forall k c, In k keys -> In c k -> exists s, c = SStr s.
Hypothesis Horder :
  keys = row_major (map (first_seen keys) (seq 0 (List.length names))).

Lemma key_width k : In k keys -> List.length k = List.length names.
Proof.
  intros H. rewrite Horder in H. apply row_major_width in H.
  rewrite H, length_map, length_seq. reflexivity.
Qed.

Lemma value_not_a_name : ~ In "value"%string names.
Proof.
  intros H. apply Hnames_free in H.
  rewrite str_contains_refl in H. discriminate.
Qed.

Lemma labels_nodup : NoDup (map SStr names ++ [SStr "value"]).
Proof.
  apply NoDup_app.
  - apply NoDup_map_SStr. exact Hnames_nodup.
  - constructor; [intros []|constructor].
  - intros x Hx [<-|[]]. apply in_map_iff in Hx.
    destruct Hx as (s & Hs & Hin). injection Hs as ->.
    apply value_not_a_name. exact Hin.
Qed.

Lemma cube_items :
  items_not_in_value (columns (cube_table names keys vals)) "value"
  = Ok (map SStr names).
Proof.
  rewrite items_not_in_value_strings.
  - f_equal. cbn [cube_table columns]. rewrite filter_app.
    cbn [filter is_substring_of]. rewrite str_contains_refl.
    cbn [negb]. rewrite app_nil_r. apply filter_all.
    intros x Hx. apply in_map_iff in Hx. destruct Hx as (s & <- & Hs).
    cbn [is_substring_of]. rewrite Hnames_free by exact Hs. reflexivity.
  - apply Forall_forall. intros x Hx. cbn [cube_table columns] in Hx.
    apply in_app_or in Hx. destruct Hx as [Hx|[<-|[]]]; [|eauto].
    apply in_map_iff in Hx. destruct Hx as (s & <- & _). eauto.
Qed.

Lemma cube_rows_keys :
  map (fun r => map (fun p => nth p r SNone)
                    (seq 0 (List.length names)))
      (rows (cube_table names keys vals))
  = keys.
Proof.
  cbn [cube_table rows]. rewrite map_map.
  rewrite <- (map_fst_combine keys vals) at 2 by (symmetry; exact Hvals).
  apply map_ext_in. intros [k v] Hkv. cbn [fst snd].
  apply in_combine_l in Hkv.
  rewrite <- (key_width k Hkv). apply map_nth_seq_app.
Qed.

Lemma cube_dims :
  df_filter (cube_table names keys vals) (map SStr names)
  = Ok (mkDF (map SStr names) keys).
Proof.
  unfold df_filter. cbv zeta.
  assert (Htarget :
    filter (fun r => existsb (scalar_eqb r)
                       (columns (cube_table names keys vals)))
           (map SStr names) = map SStr names).
  { apply filter_all. intros x Hx. apply existsb_scalar_in.
    cbn [cube_table columns]. apply in_or_app. left. exact Hx. }
  rewrite Htarget. cbn [cube_table columns].
  rewrite scalars_eqb_shorter, (nodupb_NoDup _ labels_nodup).
  cbn [negb andb].
  pose proof (label_positions [] (map SStr names) [SStr "value"]) as Hps.
  cbn [app List.length] in Hps. rewrite Hps by
    (apply NoDup_map_SStr; exact Hnames_nodup).
  rewrite length_map. f_equal. f_equal. apply cube_rows_keys.
Qed.

Lemma dims_label_pos j :
  (j < List.length names)%nat ->
  label_pos (map SStr names) (SStr (nth j names ""%string)) = Some j.
Proof. apply label_pos_nth. exact Hnames_nodup. Qed.

Lemma first_seen_strings j c :
  (j < List.length names)%nat ->
  In c (first_seen keys j) -> exists s, c = SStr s.
Proof.
  unfold first_seen. rewrite uniquify_In. unfold column_of.
  intros Hj H. apply in_map_iff in H. destruct H as (k & <- & Hk).
  apply (Hcells k); [exact Hk|]. apply nth_In.
  rewrite (key_width k Hk). exact Hj.
Qed.

Lemma cube_category_entry j :
  (j < List.length names)%nat ->
  category_entry (mkDF (map SStr names) keys)
                 (SStr (nth j names ""%string))
  = Ok (dimension_entry (nth j names ""%string) (first_seen keys j)).
Proof.
  intros Hj. unfold category_entry.
  assert (Hin : In (nth j names ""%string) names) by (apply nth_In; lia).
  rewrite (to_int_text _ (proj2 (Hnames_text _ Hin))), to_str_string.
  cbn [bind columns]. rewrite (dims_label_pos j Hj).
  change (table_column (mkDF (map SStr names) keys) j)
    with (column_of keys j).
  fold (first_seen keys j).
  rewrite (mapM_ok _ (fun kj => (str_of (snd kj), JInt (fst kj)))).
  2:{ intros [k c] Hkc. apply enumerate_in in Hkc. cbn [fst snd] in *.
      destruct (first_seen_strings j c Hj Hkc) as (s & ->).
      rewrite to_str_string. reflexivity. }
  cbn [bind].
  rewrite (mapM_ok _ (fun kj => (str_of (snd kj), JAtom (snd kj)))).
  2:{ intros [k c] Hkc. apply enumerate_in in Hkc. cbn [fst snd] in *.
      destruct (first_seen_strings j c Hj Hkc) as (s & ->).
      rewrite to_str_string. reflexivity. }
  cbn [bind].
  assert (Hnd : forall (V : Type) (f : Z * scalar -> V),
             NoDup (map fst (map (fun kj => (str_of (snd kj), f kj))
                                 (enumerate (first_seen keys j))))).
  { intros V f. rewrite map_map. cbn [fst].
    rewrite <- (map_map snd str_of), enumerate_snd.
    apply NoDup_map_str_of; [apply uniquify_NoDup|].
    intros c Hc. apply (first_seen_strings j c Hj Hc). }
  rewrite !(dict_update_fresh []) by apply Hnd.
  reflexivity.
Qed.

Lemma names_by_position :
  map SStr names
  = map (fun j => SStr (nth j names ""%string)) (seq 0 (List.length names)).
Proof.
  rewrite <- (map_map (fun j => nth j names ""%string) SStr).
  rewrite map_nth_seq. reflexivity.
Qed.

Lemma cube_categories :
  mapM (category_entry (mkDF (map SStr names) keys)) (map SStr names)
  = Ok (map (fun j => dimension_entry (nth j names ""%string)
                                      (first_seen keys j))
            (seq 0 (List.length names))).
Proof.
  transitivity
    (mapM (category_entry (mkDF (map SStr names) keys))
          (map (fun j => SStr (nth j names ""%string))
               (seq 0 (List.length names)))).
  { f_equal. apply names_by_position. }
  apply mapM_map_ok.
  intros j Hj. apply in_seq in Hj. apply cube_category_entry. lia.
Qed.

Lemma cube_sizes :
  map (fun i => JInt (Z.of_nat (List.length (uniquify
         match label_pos (map SStr names) i with
         | Some p => table_column (mkDF (map SStr names) keys) p
         | None => []
         end)))) (map SStr names)
  = map (fun j => JInt (Z.of_nat (List.length (first_seen keys j))))
        (seq 0 (List.length names)).
Proof.
  set (f := fun i => JInt (Z.of_nat (List.length (uniquify
         match label_pos (map SStr names) i with
         | Some p => table_column (mkDF (map SStr names) keys) p
         | None => []
         end)))).
  transitivity (map f (map (fun j => SStr (nth j names ""%string))
                           (seq 0 (List.length names)))).
  { f_equal. apply names_by_position. }
  rewrite map_map. apply map_ext_in. intros j Hj. apply in_seq in Hj.
  unfold f. rewrite dims_label_pos by lia. reflexivity.
Qed.

Lemma cube_value_list :
  value_list (cube_table names keys vals) "value" = Ok (map JAtom vals).
Proof.
  unfold value_list. cbn [cube_table columns].
  assert (Hf : filter (scalar_eqb (SStr "value"))
                      (map SStr names ++ [SStr "value"])
               = [SStr "value"]).
  { rewrite filter_app. cbn [filter scalar_eqb String.eqb].
    change (String.eqb "value" "value") with true. cbv iota.
    replace (filter (scalar_eqb (SStr "value")) (map SStr names))
      with (@nil scalar); [reflexivity|].
    symmetry. clear -Hnames_free. pose proof value_not_a_name as Hv.
    induction names as [|a l IH]; [reflexivity|].
    cbn [map filter].
    destruct (scalar_eqb_spec (SStr "value") (SStr a)) as [E|_].
    - injection E as <-. exfalso. apply Hv. left. reflexivity.
    - apply IH.
      + intros s Hs. apply Hnames_free. right. exact Hs.
      + intros Hin. apply Hv. right. exact Hin. }
  rewrite Hf.
  rewrite label_pos_fresh.
  2:{ intros Hin. apply in_map_iff in Hin.
      destruct Hin as (s & Hs & Hin). injection Hs as ->.
      apply value_not_a_name. exact Hin. }
  f_equal. unfold table_column, cube_table. cbn [rows]. rewrite !map_map.
  rewrite <- (map_snd_combine keys vals) at 2 by (symmetry; exact Hvals).
  rewrite map_map. apply map_ext_in. intros [k v] Hkv. cbn [fst snd].
  apply in_combine_l in Hkv. rewrite length_map.
  rewrite <- (key_width k Hkv), nth_middle.
  destruct v; reflexivity.
Qed.

Lemma category_names :
  map fst (map (fun j => dimension_entry (nth j names ""%string)
                                         (first_seen keys j))
               (seq 0 (List.length names)))
  = names.
Proof.
  rewrite map_map. cbn [dimension_entry fst]. apply map_nth_seq.
Qed.

Lemma encode_frame_cube row :
  encode_frame row (cube_table names keys vals) "value" "2.0"
  = Ok (cube_dataset names keys vals).
Proof.
  unfold encode_frame.
  rewrite cube_items. cbn [bind]. rewrite cube_dims. cbn [bind columns].
  rewrite (nodupb_NoDup _ (NoDup_map_SStr _ Hnames_nodup)).
  cbn [negb]. rewrite cube_categories. cbn [bind].
  change (float_str_ge_2 "2.0") with (@Ok bool true). cbn [bind].
  rewrite cube_value_list. cbn [bind]. cbv zeta.
  rewrite cube_sizes.
  rewrite assemble_dataset by (rewrite category_names; exact Hnames_nodup).
  unfold cube_dataset. rewrite map_map. reflexivity.
Qed.


Lemma encode_cube_table_dict :
  to_json_stat (OneFrame (cube_table names keys vals)) "value" "dict" "2.0"
  = Ok (cube_document names keys vals).
Proof.
  unfold to_json_stat.
  change (String.eqb "dict" "list") with false.
  change (String.eqb "dict" "dict") with true. cbv iota zeta.
  cbn [encode_frames]. rewrite encode_frame_cube. cbn [bind].
  change (String.eqb "dict" "list") with false.
  change (String.eqb "dict" "dict") with true. cbv iota.
  reflexivity.
Qed.

Lemma cube_entry_lookup j :
  (j < List.length names)%nat ->
  dict_get (map (fun j => dimension_entry (nth j names ""%string)
                                          (first_seen keys j))
                (seq 0 (List.length names)))
           (nth j names ""%string)
  = Some (snd (dimension_entry (nth j names ""%string)
                               (first_seen keys j))).
Proof.
  intros Hj. apply dict_get_in.
  - rewrite category_names. exact Hnames_nodup.
  - apply in_map_iff. exists j. split; [reflexivity|].
    apply in_seq. lia.
Qed.








End RoundTrip.

Lemma writable_digit (z : Z) : Z.abs z < 10 -> writable (SInt z).
Proof.
  unfold writable. intros H. apply (Z.lt_trans _ _ _ H).
  apply Z.ltb_lt. vm_compute. reflexivity.
Qed.

Ltac plain_cells :=
  repeat first
    [ apply Forall_nil
    | apply Forall_cons
    | exact I
    | apply writable_digit; reflexivity
    | split; [reflexivity|apply Nat.leb_le; reflexivity] ].

Lemma writable_1_to_4 : Forall writable [SInt 1; SInt 2; SInt 3; SInt 4].
Proof. plain_cells. Qed.

Lemma table_column_major_plain : plain_table table_column_major.
Proof. split; plain_cells. Qed.

Lemma table_a_plain : plain_table table_a.
Proof. split; plain_cells. Qed.


(** *** The claim without the order of the rows *)

Example decode_column_major :
  (docs <- to_json_stat (OneFrame table_column_major) "value" "list" "2.0" ;;
   doc <- py_getitem docs (JInt 0) ;;
   generate_df doc "id" "value")
  = Ok (mkDF [JStr "region"; JStr "sex"; JStr "value"]
             [[JStr "a"; JStr "x"; JInt 1]; [JStr "a"; JStr "y"; JInt 2];
              [JStr "b"; JStr "x"; JInt 3]; [JStr "b"; JStr "y"; JInt 4]]).
Proof. vm_compute. reflexivity. Qed.


(** * Further properties of the module *)

(** ** uniquify *)

Lemma uniquify_from_snoc (seen seq : list scalar) (x : scalar) :
  uniquify_from seen (seq ++ [x])
  = uniquify_from seen seq
    ++ (if existsb (scalar_eqb x) (seen ++ seq) then [] else [x]).
Proof.
  revert seen. induction seq as [|y seq IH]; intros seen.
  - cbn [app uniquify_from]. rewrite app_nil_r.
    destruct (existsb (scalar_eqb x) seen); reflexivity.
  - assert (Hmove : existsb (scalar_eqb x) ((y :: seen) ++ seq)
                    = existsb (scalar_eqb x) (seen ++ y :: seq)).
    { cbn [app existsb]. rewrite !existsb_app. cbn [existsb].
      destruct (scalar_eqb x y), (existsb (scalar_eqb x) seen); reflexivity. }
    cbn [app uniquify_from].
    destruct (existsb (scalar_eqb y) seen) eqn:E.
    + rewrite IH. f_equal. rewrite !existsb_app. cbn [existsb].
      destruct (scalar_eqb_spec x y) as [->|_]; [|reflexivity].
      rewrite E. reflexivity.
    + rewrite IH, Hmove. reflexivity.
Qed.

(** [uniquify] keeps the first occurrence of every value, in the order of
    the list: the result has no repetition and the same members, and a
    value appended to the list is appended to the result exactly when the
    list does not hold it yet. *)
Theorem uniquify_first_occurrences (seq : list scalar) :
  NoDup (uniquify seq) /\
  (forall x, In x (uniquify seq) <-> In x seq) /\
  (forall x, uniquify (seq ++ [x])
             = uniquify seq
               ++ (if existsb (scalar_eqb x) seq then [] else [x])).
Proof.
  split; [apply uniquify_NoDup|]. split; [apply uniquify_In|].
  intros x. unfold uniquify. rewrite uniquify_from_snoc. reflexivity.
Qed.

(** ** get_values: the keys of a sparse value *)

Lemma int_keyed_bad_key (items : list (string * json)) (k : string)
  (v : json) :
  In (k, v) items -> int_of_str k = None ->
  forall acc, int_keyed items acc = Raise ValueError.
Proof.
  induction items as [|[k' v'] items IH]; intros Hin Hk acc; [contradiction|].
  cbn [int_keyed py_int].
  destruct (int_of_str k') as [z|] eqn:E; cbn [bind]; [|reflexivity].
  destruct Hin as [H|Hin]; [congruence|]. apply IH; assumption.
Qed.

(** A key of a sparse value that is a string of ASCII characters and
    does not read as an integer makes [get_values] raise [ValueError],
    whatever the other keys and the sizes are: the keys are converted
    before the sizes are looked at, and converting a key raises nothing
    else. *)
Theorem get_values_sparse_bad_key (js_dict : json) (value : string)
  (items : list (string * json)) (k : string) (v : json)
  (Hvalue : py_getitem js_dict (JStr value) = Ok (JDict items))
  (Hin : In (k, v) items)
  (Hascii : isascii k = true)
  (Hbad : int_of_str k = None) :
  get_values js_dict value = Raise ValueError.
Proof.
  unfold get_values. rewrite Hvalue. cbn [bind py_items].
  rewrite (int_keyed_bad_key items k v Hin Hbad). reflexivity.
Qed.

Lemma get_values_sparse_bad_key_witness :
  (py_getitem (JDict [("value"%string, JDict [("x"%string, JInt 1)])])
              (JStr "value") = Ok (JDict [("x"%string, JInt 1)]) /\
   isascii "x" = true /\ int_of_str "x" = None) /\
  get_values (JDict [("value"%string, JDict [("x"%string, JInt 1)])]) "value"
  = Raise ValueError.
Proof.
  split; [split; [|split]; reflexivity|].
  apply (get_values_sparse_bad_key _ _ [("x"%string, JInt 1)] "x" (JInt 1)).
  - reflexivity.
  - left; reflexivity.
  - reflexivity.
  - reflexivity.
Defined.

Lemma product_nonneg (sizes : list Z) :
  Forall (fun s => 0 <= s < 2 ^ 63) sizes -> 0 <= product sizes.
Proof. induction 1; simpl; [lia|nia]. Qed.

(** The sparse branch, once the keys are converted. *)
Lemma get_values_dict (js_dict : json) (value : string)
  (items : list (string * json)) (sizes : list Z) (d : list (Z * json)) :
  py_getitem js_dict (JStr value) = Ok (JDict items) ->
  own_or_dimension js_dict "size" = Ok (JList (ints sizes)) ->
  sizes <> [] ->
  Forall (fun s => 0 <= s < 2 ^ 63) sizes ->
  product sizes < 2 ^ 63 ->
  int_keyed items [] = Ok d ->
  get_values js_dict value
  = assign_all d (repeat JNull (Z.to_nat (product sizes))).
Proof.
  intros Hvalue Hsize Hne Hall Htotal Hd.
  unfold get_values. rewrite Hvalue. cbn [bind py_items]. rewrite Hd.
  cbn [bind]. unfold own_or_dimension in Hsize.
  destruct (py_get js_dict "size") as [own|e]; [|discriminate].
  cbn [bind] in *. destruct (truthy own).
  - rewrite Hsize. cbn [bind]. rewrite np_prod_ints by assumption.
    reflexivity.
  - apply bind_inv in Hsize. destruct Hsize as (dm & Hdm & Hs).
    rewrite Hdm. cbn [bind]. rewrite Hs. cbn [bind].
    rewrite np_prod_ints by assumption. reflexivity.
Qed.

Lemma zdict_get_in {V} (d : list (Z * V)) (z : Z) (v : V) :
  zdict_get d z = Some v -> In (z, v) d.
Proof.
  induction d as [|[k w] d IH]; simpl; [discriminate|].
  destruct (Z.eqb_spec k z) as [->|_].
  - intros H. injection H as ->. left. reflexivity.
  - intros H. right. apply IH. exact H.
Qed.

Lemma zdict_in_get {V} (d : list (Z * V)) (z : Z) (v : V) :
  NoDup (map fst d) -> In (z, v) d -> zdict_get d z = Some v.
Proof.
  induction d as [|[k w] d IH]; simpl; intros Hnd Hin; [contradiction|].
  inversion Hnd as [|? ? Hk Hnd']; subst.
  destruct Hin as [H|Hin].
  - injection H as -> ->. rewrite Z.eqb_refl. reflexivity.
  - destruct (Z.eqb_spec k z) as [->|_]; [|apply IH; assumption].
    exfalso. apply Hk. apply in_map_iff. exists (z, v). split; auto.
Qed.

Lemma last_parsed_in (items : list (string * json)) (z : Z) (v : json) :
  last_parsed items z = Some v ->
  exists k, In (k, v) items /\ int_of_str k = Some z.
Proof.
  induction items as [|[k w] items IH]; simpl; [discriminate|].
  destruct (last_parsed items z) as [u|].
  - intros H. injection H as ->. destruct IH as (k' & Hin & Hk'); auto.
    exists k'. split; [right|]; assumption.
  - destruct (int_of_str k) as [z'|] eqn:E; [|discriminate].
    destruct (Z.eqb_spec z' z) as [->|_]; [|discriminate].
    intros H. injection H as ->. exists k. split; [left; reflexivity|exact E].
Qed.

Lemma last_parsed_found (items : list (string * json)) (z : Z) (k : string)
  (v : json) :
  In (k, v) items -> int_of_str k = Some z ->
  exists w, last_parsed items z = Some w.
Proof.
  induction items as [|[k' w] items IH]; simpl; intros Hin Hk; [contradiction|].
  destruct Hin as [H|Hin].
  - injection H as -> ->. rewrite Hk, Z.eqb_refl.
    destruct (last_parsed items z); eauto.
  - destruct (IH Hin Hk) as (u & ->). eauto.
Qed.

Lemma list_setitem_out {A} (l : list A) (z : Z) (v : A) :
  z < - Z.of_nat (List.length l) \/ Z.of_nat (List.length l) <= z ->
  list_setitem l z v = Raise IndexError.
Proof.
  intros H. unfold list_setitem. cbv zeta.
  destruct (Z.leb_spec 0 z).
  - replace (z <? Z.of_nat (List.length l)) with false
      by (symmetry; apply Z.ltb_ge; lia).
    rewrite andb_false_r. reflexivity.
  - replace (0 <=? Z.of_nat (List.length l) + z) with false
      by (symmetry; apply Z.leb_gt; lia).
    reflexivity.
Qed.

Lemma list_setitem_wrap {A} (l : list A) (z : Z) (v : A) :
  - Z.of_nat (List.length l) <= z < Z.of_nat (List.length l) ->
  list_setitem l z v
  = Ok (set_nth l (Z.to_nat (z mod Z.of_nat (List.length l))) v).
Proof.
  intros H. unfold list_setitem. cbv zeta.
  destruct (Z.leb_spec 0 z).
  - replace (0 <=? z) with true by (symmetry; apply Z.leb_le; lia).
    replace (z <? Z.of_nat (List.length l)) with true
      by (symmetry; apply Z.ltb_lt; lia).
    cbn [andb]. rewrite Z.mod_small by lia. reflexivity.
  - replace (0 <=? Z.of_nat (List.length l) + z) with true
      by (symmetry; apply Z.leb_le; lia).
    replace (Z.of_nat (List.length l) + z <? Z.of_nat (List.length l))
      with true by (symmetry; apply Z.ltb_lt; lia).
    cbn [andb]. do 3 f_equal.
    apply Z.mod_unique with (q := -1); lia.
Qed.

Lemma assign_all_out_of_range (d : list (Z * json)) (z : Z) :
  In z (map fst d) ->
  forall vals,
    z < - Z.of_nat (List.length vals) \/ Z.of_nat (List.length vals) <= z ->
    assign_all d vals = Raise IndexError.
Proof.
  induction d as [|[k w] d IH]; intros Hin vals Hz; [contradiction|].
  cbn [assign_all].
  destruct (Z_lt_dec k (- Z.of_nat (List.length vals))) as [Hlo|Hlo];
    [rewrite list_setitem_out by lia; reflexivity|].
  destruct (Z_le_dec (Z.of_nat (List.length vals)) k) as [Hhi|Hhi];
    [rewrite list_setitem_out by lia; reflexivity|].
  rewrite list_setitem_wrap by lia. cbn [bind].
  destruct Hin as [H|Hin]; [cbn [fst] in H; lia|].
  apply IH; [exact Hin|]. rewrite set_nth_length. exact Hz.
Qed.

(** When every key is a numeral [int] reads, of a length every Python 3
    release converts, a key outside [-n, n), for [n] the product of the
    sizes, makes [get_values] raise [IndexError]. *)
Theorem get_values_sparse_out_of_range (js_dict : json) (value : string)
  (items : list (string * json)) (sizes : list Z) (k : string) (v : json)
  (z : Z)
  (Hvalue : py_getitem js_dict (JStr value) = Ok (JDict items))
  (Hsize : own_or_dimension js_dict "size" = Ok (JList (ints sizes)))
  (Hne : sizes <> [])
  (Hall : Forall (fun s => 0 <= s < 2 ^ 63) sizes)
  (Htotal : product sizes < 2 ^ 63)
  (Hkeys : forall k v, In (k, v) items -> int_of_str k <> None)
  (Hshort : forall k v, In (k, v) items ->
              (String.length k <= int_max_str_digits)%nat)
  (Hin : In (k, v) items)
  (Hk : int_of_str k = Some z)
  (Hout : z < - product sizes \/ product sizes <= z) :
  get_values js_dict value = Raise IndexError.
Proof.
  destruct (int_keyed_spec (fun _ => True) items [])
    as (d & Hd & _ & _ & Hget).
  { intros k' v' Hin'. specialize (Hkeys k' v' Hin').
    destruct (int_of_str k') as [z'|]; [eauto|congruence]. }
  { constructor. }
  { constructor. }
  rewrite (get_values_dict js_dict value items sizes d) by assumption.
  pose proof (product_nonneg sizes Hall) as H0.
  apply (assign_all_out_of_range d z).
  - destruct (last_parsed_found items z k v Hin Hk) as (w & Hw).
    specialize (Hget z). rewrite Hw in Hget.
    apply zdict_get_in in Hget. apply in_map_iff.
    exists (z, w). split; [reflexivity|exact Hget].
  - rewrite repeat_length, Z2Nat.id by exact H0. exact Hout.
Qed.

Lemma get_values_sparse_out_of_range_witness :
  (py_getitem
     (JDict [("size"%string, JList (ints [2; 2]));
             ("value"%string, JDict [("4"%string, JInt 1)])]) (JStr "value")
   = Ok (JDict [("4"%string, JInt 1)]) /\
   int_of_str "4" = Some 4 /\ product [2; 2] <= 4) /\
  get_values
    (JDict [("size"%string, JList (ints [2; 2]));
            ("value"%string, JDict [("4"%string, JInt 1)])]) "value"
  = Raise IndexError.
Proof.
  split; [split; [reflexivity|split; [reflexivity|simpl; lia]]|].
  apply (get_values_sparse_out_of_range _ _ [("4"%string, JInt 1)] [2; 2]
           "4" (JInt 1) 4).
  - reflexivity.
  - reflexivity.
  - discriminate.
  - repeat constructor; lia.
  - reflexivity.
  - intros k v [H|[]]. injection H as <- <-. discriminate.
  - intros k v [H|[]]. injection H as <- <-. apply Nat.leb_le. reflexivity.
  - left; reflexivity.
  - reflexivity.
  - right. simpl. lia.
Defined.

(** The assignments [vals[key] = value] with keys in [-n, n): a key
    addresses the cell [key mod n]. *)
Lemma assign_all_wraps (d : list (Z * json)) :
  forall vals,
    Forall (fun z => - Z.of_nat (List.length vals) <= z
                     < Z.of_nat (List.length vals)) (map fst d) ->
    exists vals',
      assign_all d vals = Ok vals' /\
      List.length vals' = List.length vals /\
      (forall p,
          (forall z v, In (z, v) d ->
                       z mod Z.of_nat (List.length vals) <> Z.of_nat p) ->
          nth_error vals' p = nth_error vals p) /\
      (forall z v,
          In (z, v) d ->
          (forall z' v', In (z', v') d ->
                         z' mod Z.of_nat (List.length vals)
                         = z mod Z.of_nat (List.length vals) -> v' = v) ->
          nth_error vals' (Z.to_nat (z mod Z.of_nat (List.length vals)))
          = Some v).
Proof.
  induction d as [|[k w] d IH]; intros vals Hr.
  - exists vals. split; [reflexivity|]. split; [reflexivity|].
    split; [reflexivity|intros z v []].
  - cbn [map fst] in Hr. inversion Hr as [|? ? Hk Hr']; subst.
    set (n := Z.of_nat (List.length vals)) in *.
    cbn [assign_all]. unfold n in Hk. rewrite list_setitem_wrap by exact Hk.
    fold n in Hk |- *. cbn [bind].
    set (vals1 := set_nth vals (Z.to_nat (k mod n)) w).
    assert (Hlen1 : List.length vals1 = List.length vals)
      by apply set_nth_length.
    destruct (IH vals1) as (vals' & Ha & Hl & Hkeep & Hput).
    { rewrite Hlen1. exact Hr'. }
    rewrite Hlen1 in Hkeep, Hput. fold n in Hkeep, Hput.
    assert (Hpos : 0 < n) by lia.
    exists vals'. split; [exact Ha|]. split; [congruence|]. split.
    + intros p Hp. rewrite Hkeep.
      * apply set_nth_other. intros E.
        apply (Hp k w); [left; reflexivity|].
        rewrite <- E, Z2Nat.id; [reflexivity|].
        apply Z.mod_pos_bound. exact Hpos.
      * intros z v Hin. apply (Hp z v). right. exact Hin.
    + intros z v Hin Hagree.
      destruct (existsb (fun zv => fst zv mod n =? z mod n) d) eqn:E.
      * apply existsb_exists in E. destruct E as ([z' v'] & Hin' & Hm).
        cbn [fst] in Hm. apply Z.eqb_eq in Hm.
        assert (v' = v) by (apply (Hagree z' v'); [right|]; assumption).
        subst v'. rewrite <- Hm. apply Hput; [exact Hin'|].
        intros z'' v'' Hin'' Hm''. apply (Hagree z'' v''); [right; exact Hin''|].
        congruence.
      * assert (Hnone : forall z' v', In (z', v') d -> z' mod n <> z mod n).
        { intros z' v' Hin' Hm.
          assert (existsb (fun zv => fst zv mod n =? z mod n) d = true).
          { apply existsb_exists. exists (z', v'). split; [exact Hin'|].
            cbn [fst]. apply Z.eqb_eq. exact Hm. }
          congruence. }
        destruct Hin as [H|Hin];
          [|exfalso; apply (Hnone z v Hin); reflexivity].
        injection H as -> ->. rewrite Hkeep.
        -- apply set_nth_same.
           pose proof (Z.mod_pos_bound z n Hpos). unfold n in *. lia.
        -- intros z' v' Hin'. rewrite Z2Nat.id
             by (apply Z.mod_pos_bound; exact Hpos).
           apply (Hnone z' v' Hin').
Qed.

(** Keys of a sparse value in [-n, n), for [n] the product of the sizes,
    are all accepted: a key addresses the cell [key mod n], so that a
    negative key counts from the end of the list of values.  The keys are
    numerals [int] reads, of a length every Python 3 release converts. *)
Theorem get_values_sparse_negative_keys (js_dict : json) (value : string)
  (items : list (string * json)) (sizes : list Z)
  (Hvalue : py_getitem js_dict (JStr value) = Ok (JDict items))
  (Hsize : own_or_dimension js_dict "size" = Ok (JList (ints sizes)))
  (Hne : sizes <> [])
  (Hall : Forall (fun s => 0 <= s < 2 ^ 63) sizes)
  (Htotal : product sizes < 2 ^ 63)
  (Hkeys : forall k v, In (k, v) items ->
             exists z, int_of_str k = Some z /\
                       - product sizes <= z < product sizes)
  (Hshort : forall k v, In (k, v) items ->
              (String.length k <= int_max_str_digits)%nat) :
  exists vals,
    get_values js_dict value = Ok vals /\
    List.length vals = Z.to_nat (product sizes) /\
    forall k v z,
      In (k, v) items -> int_of_str k = Some z ->
      (forall k' v' z', In (k', v') items -> int_of_str k' = Some z' ->
                        z' mod product sizes = z mod product sizes ->
                        v' = v) ->
      nth_error vals (Z.to_nat (z mod product sizes)) = Some v.
Proof.
  destruct (int_keyed_spec
              (fun z => - product sizes <= z < product sizes) items [])
    as (d & Hd & Hnd & HP & Hget); [assumption|constructor|constructor|].
  rewrite (get_values_dict js_dict value items sizes d) by assumption.
  pose proof (product_nonneg sizes Hall) as H0.
  set (vals0 := repeat JNull (Z.to_nat (product sizes))).
  assert (Hn : Z.of_nat (List.length vals0) = product sizes).
  { unfold vals0. rewrite repeat_length. apply Z2Nat.id. exact H0. }
  destruct (assign_all_wraps d vals0) as (vals & Ha & Hl & _ & Hput).
  { rewrite Hn. exact HP. }
  rewrite Hn in Hput.
  exists vals. split; [exact Ha|]. split.
  { rewrite Hl. unfold vals0. apply repeat_length. }
  intros k v z Hin Hk Hagree.
  destruct (last_parsed_found items z k v Hin Hk) as (w & Hw).
  assert (Hzw : In (z, w) d).
  { apply zdict_get_in. rewrite Hget, Hw. reflexivity. }
  assert (w = v).
  { destruct (last_parsed_in items z w Hw) as (k' & Hin' & Hk').
    apply (Hagree k' w z Hin' Hk'). reflexivity. }
  subst w. apply Hput; [exact Hzw|].
  intros z' v' Hin' Hm.
  apply (zdict_in_get d z' v' Hnd) in Hin'. rewrite Hget in Hin'.
  destruct (last_parsed items z') as [u|] eqn:Hu.
  - injection Hin' as ->.
    destruct (last_parsed_in items z' v' Hu) as (k' & Hink' & Hk').
    apply (Hagree k' v' z' Hink' Hk' Hm).
  - discriminate Hin'.
Qed.

Lemma get_values_sparse_negative_keys_witness :
  (py_getitem
     (JDict [("size"%string, JList (ints [2; 2]));
             ("value"%string, JDict [("-1"%string, JInt 7)])]) (JStr "value")
   = Ok (JDict [("-1"%string, JInt 7)]) /\
   int_of_str "-1" = Some (-1) /\ - product [2; 2] <= -1 < product [2; 2]) /\
  get_values
    (JDict [("size"%string, JList (ints [2; 2]));
            ("value"%string, JDict [("-1"%string, JInt 7)])]) "value"
  = Ok [JNull; JNull; JNull; JInt 7].
Proof.
  split; [split; [reflexivity|split; [reflexivity|simpl; lia]]|].
  destruct (get_values_sparse_negative_keys
              (JDict [("size"%string, JList (ints [2; 2]));
                      ("value"%string, JDict [("-1"%string, JInt 7)])])
              "value" [("-1"%string, JInt 7)] [2; 2])
    as (vals & Hv & _).
  - reflexivity.
  - reflexivity.
  - discriminate.
  - repeat constructor; lia.
  - reflexivity.
  - intros k v [H|[]]. injection H as <- <-. exists (-1).
    split; [reflexivity|simpl; lia].
  - intros k v [H|[]]. injection H as <- <-. apply Nat.leb_le. reflexivity.
  - rewrite Hv. vm_compute in Hv. injection Hv as <-. reflexivity.
Defined.

(** ** get_dimensions: the names of the columns *)

Lemma get_dimensions_fold (js_dict : json) (naming : string) :
  get_dimensions js_dict naming
  = (ids <- declared_ids js_dict ;;
     ids <- py_iter ids ;;
     fold_left (get_dimensions_step js_dict naming) ids (Ok ([], []))).
Proof.
  unfold get_dimensions, declared_ids.
  destruct (check_version_2 js_dict) as [[|]|e]; cbn [bind]; try reflexivity.
  destruct (py_getitem js_dict (JStr "dimension")); reflexivity.
Qed.

Lemma get_dimensions_step_inv js_dict naming dims names dim dims' names' :
  get_dimensions_step js_dict naming (Ok (dims, names)) dim
  = Ok (dims', names') ->
  exists f name,
    dims' = dims ++ [f] /\ names' = names ++ [name] /\
    (naming <> "label"%string -> name = dim) /\
    (naming = "label"%string -> display_name js_dict dim = Ok name).
Proof.
  unfold get_dimensions_step, display_name. cbn [bind]. intros H.
  destruct (py_getitem js_dict (JStr "dimension")) as [d|]; [|discriminate].
  cbn [bind] in *.
  destruct (py_getitem d dim) as [i|]; [|discriminate]. cbn [bind] in *.
  destruct (py_getitem i (JStr "label")) as [l|]; [|discriminate].
  cbn [bind] in *.
  destruct (String.eqb_spec naming "label") as [->|Hn].
  - destruct (get_dim_label recursion_limit js_dict dim "dataset") as [f|];
      [|discriminate].
    cbn [bind] in H. injection H as <- <-.
    exists f, (if negb (truthy l) then dim else l).
    repeat split; [congruence|].
    intros _. destruct (truthy l); reflexivity.
  - destruct (get_dim_index recursion_limit js_dict dim) as [f|];
      [|discriminate].
    cbn [bind] in H. injection H as <- <-.
    exists f, dim. repeat split. congruence.
Qed.

Lemma fold_get_dimensions_names js_dict naming ids :
  forall dims names dims' names',
    fold_left (get_dimensions_step js_dict naming) ids (Ok (dims, names))
    = Ok (dims', names') ->
    exists fs ns,
      dims' = dims ++ fs /\ names' = names ++ ns /\
      List.length fs = List.length ids /\
      (naming <> "label"%string -> ns = ids) /\
      (naming = "label"%string ->
       Forall2 (fun dim name => display_name js_dict dim = Ok name) ids ns).
Proof.
  induction ids as [|dim ids IH]; intros dims names dims' names' H.
  - cbn [fold_left] in H. injection H as <- <-. exists [], [].
    rewrite !app_nil_r. repeat split. constructor.
  - cbn [fold_left] in H.
    destruct (get_dimensions_step js_dict naming (Ok (dims, names)) dim)
      as [[dims1 names1]|e] eqn:E.
    + apply get_dimensions_step_inv in E.
      destruct E as (f & name & -> & -> & Hid & Hlab).
      apply IH in H. destruct H as (fs & ns & -> & -> & Hlen & Hids & Hlabs).
      exists (f :: fs), (name :: ns). rewrite <- !app_assoc. cbn [app].
      split; [reflexivity|]. split; [reflexivity|].
      split; [cbn [List.length]; congruence|]. split.
      * intros Hn. rewrite (Hid Hn), (Hids Hn). reflexivity.
      * intros Hn. constructor; [apply Hlab|apply Hlabs]; exact Hn.
    + rewrite fold_get_dimensions_raise in H. discriminate H.
Qed.

(** When [get_dimensions] succeeds it returns one frame and one name per
    declared dimension id, in the order of the ids.  Under every naming
    but [label] the names are the ids themselves; under [label] each name
    is the label of the dimension, or its id when the label is empty. *)
Theorem get_dimensions_names (js_dict : json) (naming : string)
  (ids : json) (id_list : list json)
  (dimensions : list frame) (dim_names : list json)
  (Hids : declared_ids js_dict = Ok ids)
  (Hiter : py_iter ids = Ok id_list)
  (Hok : get_dimensions js_dict naming = Ok (dimensions, dim_names)) :
  List.length dimensions = List.length id_list /\
  List.length dim_names = List.length id_list /\
  (naming <> "label"%string -> dim_names = id_list) /\
  (naming = "label"%string ->
   Forall2 (fun dim name => display_name js_dict dim = Ok name)
           id_list dim_names).
Proof.
  rewrite get_dimensions_fold, Hids in Hok. cbn [bind] in Hok.
  rewrite Hiter in Hok. cbn [bind] in Hok.
  apply fold_get_dimensions_names in Hok.
  destruct Hok as (fs & ns & -> & -> & Hlen & Hid & Hlab).
  cbn [app]. split; [exact Hlen|]. split; [|split; assumption].
  destruct (String.eqb_spec naming "label") as [E|E].
  - symmetry. eapply Forall2_length. apply Hlab. exact E.
  - rewrite (Hid E). reflexivity.
Qed.

Lemma get_dimensions_names_witness :
  (declared_ids (cube_sex [1; 2]) = Ok (JList [JStr "sex"]) /\
   get_dimensions (cube_sex [1; 2]) "label"
   = Ok ([mkDF ["id"; "label"; "index"]%string
               [[JStr "M"; JStr "Male"; JInt 0];
                [JStr "F"; JStr "Female"; JInt 1]]], [JStr "Sex"])) /\
  Forall2 (fun dim name => display_name (cube_sex [1; 2]) dim = Ok name)
          [JStr "sex"] [JStr "Sex"].
Proof.
  split; [split; reflexivity|].
  apply (get_dimensions_names (cube_sex [1; 2]) "label"
           (JList [JStr "sex"]) [JStr "sex"]
           [mkDF ["id"; "label"; "index"]%string
                 [[JStr "M"; JStr "Male"; JInt 0];
                  [JStr "F"; JStr "Female"; JInt 1]]] [JStr "Sex"]);
    reflexivity.
Defined.

(** Every dimension needs a [label], whatever the naming: the label is
    read before the naming is looked at.  A declared dimension without one
    makes [get_dimensions] fail, with [KeyError] when it is the first. *)
Theorem get_dimensions_needs_label (js_dict : json) (naming : string)
  (ids : json) (id_list : list json) (dim dimension descriptor : json)
  (Hids : declared_ids js_dict = Ok ids)
  (Hiter : py_iter ids = Ok id_list)
  (Hdim : In dim id_list)
  (Hdimension : py_getitem js_dict (JStr "dimension") = Ok dimension)
  (Hdescriptor : py_getitem dimension dim = Ok descriptor)
  (Hnolabel : py_getitem descriptor (JStr "label") = Raise KeyError) :
  (exists e, get_dimensions js_dict naming = Raise e) /\
  (hd_error id_list = Some dim ->
   get_dimensions js_dict naming = Raise KeyError).
Proof.
  rewrite get_dimensions_fold, Hids. cbn [bind]. rewrite Hiter. cbn [bind].
  assert (Hstep : forall dims names,
             get_dimensions_step js_dict naming (Ok (dims, names)) dim
             = Raise KeyError).
  { intros dims names. unfold get_dimensions_step. cbn [bind].
    rewrite Hdimension. cbn [bind]. rewrite Hdescriptor. cbn [bind].
    rewrite Hnolabel. reflexivity. }
  split.
  - clear Hiter Hids. generalize (@nil frame) (@nil json).
    induction id_list as [|d l IH]; intros dims names; [contradiction|].
    cbn [fold_left]. destruct Hdim as [->|Hdim].
    + rewrite Hstep, fold_get_dimensions_raise. eauto.
    + destruct (get_dimensions_step js_dict naming (Ok (dims, names)) d)
        as [[dims1 names1]|e].
      * apply IH. exact Hdim.
      * rewrite fold_get_dimensions_raise. eauto.
  - destruct id_list as [|d l]; [discriminate|].
    intros H. injection H as ->. cbn [fold_left].
    rewrite Hstep. apply fold_get_dimensions_raise.
Qed.

Lemma get_dimensions_needs_label_witness :
  (declared_ids cube_unlabelled = Ok (JList [JStr "sex"]) /\
   py_getitem (JDict [("category"%string,
                       JDict [("index"%string, JList [JStr "M"; JStr "F"])])])
              (JStr "label") = Raise KeyError) /\
  get_dimensions cube_unlabelled "id" = Raise KeyError.
Proof.
  split; [split; reflexivity|].
  apply (get_dimensions_needs_label cube_unlabelled "id"
           (JList [JStr "sex"]) [JStr "sex"] (JStr "sex")
           (JDict [("sex"%string,
                    JDict [("category"%string,
                            JDict [("index"%string,
                                    JList [JStr "M"; JStr "F"])])])])
           (JDict [("category"%string,
                    JDict [("index"%string, JList [JStr "M"; JStr "F"])])]));
    try reflexivity.
  left; reflexivity.
Defined.

(** ** The resolvers when [category.index] or [category.label] is missing *)

(** A dimension that has neither [category.index] nor [category.label]
    cannot be resolved: the two resolvers call each other until the
    recursion limit, whatever that limit is. *)
Theorem get_dim_index_unresolvable (fuel : nat)
  (js_dict dim dimension descriptor category : json)
  (Hdimension : py_getitem js_dict (JStr "dimension") = Ok dimension)
  (Hdescriptor : py_getitem dimension dim = Ok descriptor)
  (Hcategory : py_getitem descriptor (JStr "category") = Ok category)
  (Hnoindex : py_getitem category (JStr "index") = Raise KeyError)
  (Hnolabel : py_getitem category (JStr "label") = Raise KeyError) :
  get_dim_index fuel js_dict dim = Raise RecursionError /\
  get_dim_label fuel js_dict dim "dataset" = Raise RecursionError.
Proof.
  induction fuel as [|fuel [IHi IHl]]; [split; reflexivity|].
  split.
  - cbn [get_dim_index]. rewrite Hdimension. cbn [bind].
    rewrite Hdescriptor. cbn [bind]. rewrite Hcategory. cbn [bind].
    rewrite Hnoindex, IHl. reflexivity.
  - cbn [get_dim_label].
    change (String.eqb "dataset" "dataset") with true. cbv iota.
    rewrite Hdimension. cbn [bind]. rewrite Hdescriptor. cbn [bind].
    rewrite Hcategory. cbn [bind]. rewrite Hnolabel, IHi. reflexivity.
Qed.

Lemma get_dim_index_unresolvable_witness :
  (py_getitem (JDict []) (JStr "index") = Raise KeyError /\
   py_getitem (JDict []) (JStr "label") = Raise KeyError) /\
  get_dim_index recursion_limit cube_bare (JStr "sex") = Raise RecursionError
  /\ get_dimensions cube_bare "id" = Raise RecursionError.
Proof.
  split; [split; reflexivity|].
  destruct (get_dim_index_unresolvable recursion_limit cube_bare (JStr "sex")
              (JDict [("sex"%string,
                       JDict [("label"%string, JStr "Sex");
                              ("category"%string, JDict [])])])
              (JDict [("label"%string, JStr "Sex");
                      ("category"%string, JDict [])])
              (JDict [])) as [Hi _]; try reflexivity.
  split; [exact Hi|].
  unfold get_dimensions.
  change (check_version_2 cube_bare) with (@Ok bool true). cbn [bind].
  change (py_getitem cube_bare (JStr "id"))
    with (@Ok json (JList [JStr "sex"])).
  cbn [bind py_iter fold_left]. unfold get_dimensions_step. cbn [bind].
  change (py_getitem cube_bare (JStr "dimension"))
    with (@Ok json (JDict [("sex"%string,
                            JDict [("label"%string, JStr "Sex");
                                   ("category"%string, JDict [])])])).
  cbn [bind]. change (String.eqb "id" "label") with false. cbv iota.
  cbn [py_getitem dict_get String.eqb Ascii.eqb Bool.eqb bind truthy negb].
  rewrite Hi. reflexivity.
Defined.




(** ** Sorting a frame by a column of integers *)

Lemma json_leb_int_cell (p : nat) (r r' : list json) :
  has_int_cell p r -> has_int_cell p r' ->
  json_leb (cell p r) (cell p r') = (int_cell p r <=? int_cell p r').
Proof.
  intros (z & Hz) (z' & Hz'). unfold int_cell. rewrite Hz, Hz'. reflexivity.
Qed.

Lemma insert_row_In (p : nat) (r x : list json) (l : list (list json)) :
  In x (insert_row p r l) <-> x = r \/ In x l.
Proof.
  split.
  - intros H. apply (Permutation_in _ (insert_row_perm p r l)) in H.
    destruct H as [<-|H]; auto.
  - intros H. apply (Permutation_in _ (Permutation_sym (insert_row_perm p r l))).
    destruct H as [->|H]; [left; reflexivity|right; exact H].
Qed.

Lemma insert_row_sorted (p : nat) (r : list json) (l : list (list json)) :
  has_int_cell p r -> Forall (has_int_cell p) l ->
  StronglySorted (fun a b => int_cell p a <= int_cell p b) l ->
  StronglySorted (fun a b => int_cell p a <= int_cell p b)
                 (insert_row p r l).
Proof.
  intros Hr Hl Hs. induction Hs as [|a l Hs IH Ha]; cbn [insert_row].
  - constructor; constructor.
  - inversion Hl as [|? ? Hia Hl']; subst.
    rewrite (json_leb_int_cell p r a Hr Hia).
    destruct (Z.leb_spec (int_cell p r) (int_cell p a)) as [Hle|Hgt].
    + constructor; [constructor; assumption|].
      constructor; [exact Hle|].
      rewrite Forall_forall in Ha |- *. intros x Hx.
      specialize (Ha x Hx). lia.
    + constructor; [apply IH; exact Hl'|].
      rewrite Forall_forall in Ha |- *. intros x Hx.
      apply insert_row_In in Hx. destruct Hx as [->|Hx]; [lia|auto].
Qed.

Lemma sort_rows_sorted (p : nat) (l : list (list json)) :
  Forall (has_int_cell p) l ->
  StronglySorted (fun a b => int_cell p a <= int_cell p b) (sort_rows p l).
Proof.
  induction 1 as [|r l Hr Hl IH]; [constructor|].
  cbn [sort_rows fold_right]. apply insert_row_sorted; [exact Hr| |exact IH].
  rewrite Forall_forall in Hl |- *. intros x Hx. apply Hl.
  apply (Permutation_in _ (sort_rows_perm p l)). exact Hx.
Qed.

(** A list in strictly increasing order of a key is the only sorted
    arrangement of its members. *)
Lemma sorted_perm_unique {A} (key : A -> Z) (l l' : list A) :
  StronglySorted (fun a b => key a <= key b) l ->
  StronglySorted (fun a b => key a < key b) l' ->
  Permutation l l' -> l = l'.
Proof.
  intros Hs. revert l'. induction Hs as [|a l Hs IH Ha]; intros l' Hs' Hp.
  - apply Permutation_nil in Hp. congruence.
  - destruct l' as [|a' l'];
      [apply Permutation_sym, Permutation_nil in Hp; discriminate|].
    inversion Hs' as [|? ? Hs'' Ha']; subst.
    assert (a = a').
    { assert (H1 : In a (a' :: l'))
        by (apply (Permutation_in _ Hp); left; reflexivity).
      assert (H2 : In a' (a :: l))
        by (apply (Permutation_in _ (Permutation_sym Hp)); left; reflexivity).
      destruct H1 as [H1|H1]; [congruence|].
      destruct H2 as [H2|H2]; [congruence|].
      rewrite Forall_forall in Ha, Ha'.
      specialize (Ha a' H2). specialize (Ha' a H1). lia. }
    subst a'. f_equal. apply IH; [exact Hs''|].
    apply Permutation_cons_inv in Hp. exact Hp.
Qed.


(** ** The join of label and index *)












Lemma StronglySorted_map_le {A} (key : A -> Z) (l : list A) :
  StronglySorted (fun a b => key a <= key b) l ->
  StronglySorted Z.le (map key l).
Proof.
  induction 1 as [|a l Hs IH Ha]; cbn [map]; constructor; [exact IH|].
  rewrite Forall_forall in Ha |- *. intros z Hz.
  apply in_map_iff in Hz. destruct Hz as (b & <- & Hb). auto.
Qed.

Lemma seq_sorted (k n : nat) :
  StronglySorted Z.lt (map Z.of_nat (seq k n)).
Proof.
  revert k. induction n as [|n IH]; intros k; cbn [seq map]; constructor;
    [apply IH|].
  apply Forall_forall. intros z Hz. apply in_map_iff in Hz.
  destruct Hz as (j & <- & Hj). apply in_seq in Hj. lia.
Qed.

(** When [category.index] is a mapping that gives the categories the
    positions 0 to n-1, in whatever order it lists them, row [k] of the
    frame of [get_dim_index] holds the category of position [k]. *)
Theorem get_dim_index_by_position (fuel : nat)
  (js_dict dim dimension descriptor category : json)
  (pairs : list (string * Z))
  (Hdimension : py_getitem js_dict (JStr "dimension") = Ok dimension)
  (Hdescriptor : py_getitem dimension dim = Ok descriptor)
  (Hcategory : py_getitem descriptor (JStr "category") = Ok category)
  (Hindex : py_getitem category (JStr "index")
            = Ok (JDict (map (fun p => (fst p, JInt (snd p))) pairs)))
  (Hpositions : Permutation (map snd pairs)
                  (map Z.of_nat (seq 0 (List.length pairs)))) :
  exists rows_,
    get_dim_index (S fuel) js_dict dim
    = Ok (mkDF ["id"; "index"]%string rows_) /\
    List.length rows_ = List.length pairs /\
    forall id k, In (id, Z.of_nat k) pairs ->
                 nth_error rows_ k = Some [JStr id; JInt (Z.of_nat k)].
Proof.
  set (rows0 := map (fun p : string * Z => [JStr (fst p); JInt (snd p)])
                    pairs).
  exists (sort_rows 1 rows0).
  assert (Hint : Forall (has_int_cell 1) rows0).
  { apply Forall_forall. intros r Hr. apply in_map_iff in Hr.
    destruct Hr as ([i z] & <- & _). exists z. reflexivity. }
  assert (Hkeys : map (int_cell 1) (sort_rows 1 rows0)
                  = map Z.of_nat (seq 0 (List.length pairs))).
  { apply (sorted_perm_unique (fun z => z)).
    - apply StronglySorted_map_le. apply sort_rows_sorted. exact Hint.
    - apply seq_sorted.
    - rewrite (Permutation_map (int_cell 1) (sort_rows_perm 1 rows0)).
      unfold rows0. rewrite map_map. cbn [int_cell cell nth snd].
      exact Hpositions. }
  split; [|split].
  - cbn [get_dim_index]. rewrite Hdimension. cbn [bind].
    rewrite Hdescriptor. cbn [bind]. rewrite Hcategory. cbn [bind].
    rewrite Hindex. cbn [index_frame py_items bind].
    rewrite map_map. cbn [fst snd]. reflexivity.
  - rewrite (Permutation_length (sort_rows_perm 1 rows0)).
    unfold rows0. apply length_map.
  - intros id k Hin.
    assert (Hr : In [JStr id; JInt (Z.of_nat k)] (sort_rows 1 rows0)).
    { apply (Permutation_in _ (Permutation_sym (sort_rows_perm 1 rows0))).
      unfold rows0. apply in_map_iff. exists (id, Z.of_nat k).
      split; [reflexivity|exact Hin]. }
    apply In_nth_error in Hr. destruct Hr as (j & Hj).
    assert (Hkj : nth_error (map (int_cell 1) (sort_rows 1 rows0)) j
                  = Some (Z.of_nat k)).
    { rewrite nth_error_map, Hj. reflexivity. }
    rewrite Hkeys, nth_error_map in Hkj.
    destruct (nth_error (seq 0 (List.length pairs)) j) as [m|] eqn:Hm;
      [|discriminate].
    assert (Hlt : (j < List.length (seq 0 (List.length pairs)))%nat)
      by (apply nth_error_Some; congruence).
    rewrite length_seq in Hlt.
    rewrite (nth_error_nth' _ 0%nat) in Hm by (rewrite length_seq; exact Hlt).
    rewrite seq_nth in Hm by exact Hlt. injection Hm as <-.
    cbn [option_map Nat.add] in Hkj. injection Hkj as Hkj.
    apply Nat2Z.inj in Hkj. subst j. exact Hj.
Qed.

Lemma get_dim_index_by_position_witness :
  (Permutation (map snd [("F"%string, 1); ("M"%string, 0)])
               (map Z.of_nat (seq 0 2)) /\
   In ("M"%string, Z.of_nat 0) [("F"%string, 1); ("M"%string, 0)]) /\
  exists rows_,
    get_dim_index 1
      (JDict [("dimension"%string,
               JDict [("sex"%string,
                       JDict [("category"%string,
                               JDict [("index"%string,
                                       JDict [("F"%string, JInt 1);
                                              ("M"%string, JInt 0)])])])])])
      (JStr "sex")
    = Ok (mkDF ["id"; "index"]%string rows_) /\
    nth_error rows_ 0 = Some [JStr "M"; JInt 0].
Proof.
  assert (Hp : Permutation (map snd [("F"%string, 1); ("M"%string, 0)])
                           (map Z.of_nat (seq 0 2))).
  { cbn. apply perm_swap. }
  split; [split; [exact Hp|right; left; reflexivity]|].
  destruct (get_dim_index_by_position 0
              (JDict [("dimension"%string,
                 JDict [("sex"%string,
                         JDict [("category"%string,
                                 JDict [("index"%string,
                                         JDict [("F"%string, JInt 1);
                                                ("M"%string, JInt 0)])])])])])
              (JStr "sex")
              (JDict [("sex"%string,
                       JDict [("category"%string,
                               JDict [("index"%string,
                                       JDict [("F"%string, JInt 1);
                                              ("M"%string, JInt 0)])])])])
              (JDict [("category"%string,
                       JDict [("index"%string,
                               JDict [("F"%string, JInt 1);
                                      ("M"%string, JInt 0)])])])
              (JDict [("index"%string,
                       JDict [("F"%string, JInt 1); ("M"%string, JInt 0)])])
              [("F"%string, 1); ("M"%string, 0)])
    as (rows_ & Hok & _ & Hrow); try reflexivity; [exact Hp|].
  exists rows_. split; [exact Hok|].
  apply (Hrow "M"%string 0%nat). right. left. reflexivity.
Defined.

(** ** The decoder on well-shaped and on degenerate documents *)

(** When the generator is exhausted its shared list is empty again: every
    level has popped what it appended.  The rows are what the list held at
    each [yield]; a caller that keeps the yielded object itself, without
    copying it, is left with that one empty list. *)
Theorem get_df_row_leaves_record_empty (dimensions : list frame)
  (naming : string) (cols : list (list json))
  (Hne : dimensions <> [])
  (Hnaming : naming = "label"%string \/ naming = "id"%string)
  (Hcols : mapM (fun d => df_column d naming) dimensions = Ok cols) :
  get_df_row_rec (S (List.length dimensions)) dimensions naming 0 None
  = Ok (row_major cols, []).
Proof.
  assert (H := get_df_row_rec_spec dimensions naming cols
                 (check_input_ok naming Hnaming) Hcols
                 (S (List.length dimensions)) 0 []).
  cbn [Nat.eqb] in H. rewrite H.
  - cbn [skipn]. rewrite map_id. reflexivity.
  - destruct dimensions; [congruence|simpl; lia].
  - lia.
  - reflexivity.
Qed.

Lemma get_df_row_leaves_record_empty_witness :
  (dims_2_3_4 <> [] /\
   mapM (fun d => df_column d "id") dims_2_3_4 = Ok cols_2_3_4) /\
  get_df_row_rec 4 dims_2_3_4 "id" 0 None = Ok (row_major cols_2_3_4, []).
Proof.
  split; [split; [discriminate|reflexivity]|].
  apply (get_df_row_leaves_record_empty dims_2_3_4 "id" cols_2_3_4).
  - discriminate.
  - right; reflexivity.
  - reflexivity.
Defined.




(** A document that declares no dimension cannot be decoded, although the
    product of no sizes is 1 and the document may hold its one value: the
    generator reads the first dimension before anything else. *)
Theorem generate_df_no_dimension (js_dict : json) (naming value : string)
  (dim_names values : list json)
  (Hdims : get_dimensions js_dict naming = Ok ([], dim_names))
  (Hvalues : get_values js_dict value = Ok values)
  (Hnaming : naming = "label"%string \/ naming = "id"%string) :
  generate_df js_dict naming value = Raise IndexError.
Proof.
  unfold generate_df. rewrite Hdims, Hvalues. cbn [bind].
  rewrite get_df_row_no_dimensions by (apply check_input_ok; exact Hnaming).
  reflexivity.
Qed.

Lemma generate_df_no_dimension_witness :
  (get_dimensions cube_no_dimension "id" = Ok ([], []) /\
   get_values cube_no_dimension "value" = Ok [JInt 1]) /\
  generate_df cube_no_dimension "id" "value" = Raise IndexError.
Proof.
  split; [split; reflexivity|].
  apply (generate_df_no_dimension cube_no_dimension "id" "value" []
           [JInt 1]).
  - reflexivity.
  - reflexivity.
  - right; reflexivity.
Defined.

(** ** The value index *)

Lemma get_value_index_spec (self : json) (sizes dim_indices : list Z) :
  own_or_dimension self "size" = Ok (JList (ints sizes)) ->
  List.length dim_indices = List.length sizes ->
  get_value_index self (ints dim_indices)
  = Ok (JInt (flat_index dim_indices sizes)).
Proof.
  intros Hsize Hlen.
  unfold get_value_index. rewrite Hsize. cbn [bind py_len py_iter].
  rewrite ints_length, Nat2Z.id.
  rewrite value_index_loop_prefix by (auto; lia).
  rewrite Nat.sub_diag. reflexivity.
Qed.

Lemma list_index_firstn {A} (l : list A) (n : nat) (z : Z) :
  0 <= z < Z.of_nat n ->
  list_index (firstn n l) z = list_index l z.
Proof.
  intros Hz. unfold list_index. cbv zeta.
  assert (H0 : (0 <=? z) = true) by (apply Z.leb_le; lia).
  rewrite !H0. cbn [andb]. rewrite length_firstn.
  destruct (Z.ltb_spec z (Z.of_nat (List.length l))) as [Hlt|Hge].
  - replace (z <? Z.of_nat (Nat.min n (List.length l))) with true
      by (symmetry; apply Z.ltb_lt; lia).
    rewrite nth_error_firstn.
    replace (Nat.ltb (Z.to_nat z) n) with true
      by (symmetry; apply Nat.ltb_lt; lia).
    reflexivity.
  - replace (z <? Z.of_nat (Nat.min n (List.length l))) with false
      by (symmetry; apply Z.ltb_ge; lia).
    reflexivity.
Qed.

Lemma value_index_loop_firstn (size : json) (n : nat) (indices : list json)
  (idxs : list Z) :
  Forall (fun idx => 0 <= idx < Z.of_nat n) idxs ->
  forall st,
    value_index_loop size (Z.of_nat n) (firstn n indices) idxs st
    = value_index_loop size (Z.of_nat n) indices idxs st.
Proof.
  induction 1 as [|idx idxs Hidx _ IH]; intros st; [reflexivity|].
  cbn [value_index_loop].
  assert (Hstep : value_index_step size (Z.of_nat n) (firstn n indices) st idx
                  = value_index_step size (Z.of_nat n) indices st idx).
  { unfold value_index_step. destruct st as [mult num].
    rewrite list_index_firstn by lia. reflexivity. }
  rewrite Hstep. destruct (value_index_step _ _ indices st idx); cbn [bind];
    [apply IH|reflexivity].
Qed.

(** [get_value_index] reads one index per size: with more indices than
    sizes it ignores the ones beyond, with fewer it raises
    [IndexError]. *)
Theorem get_value_index_arity (self : json) (sizes dim_indices : list Z)
  (Hsize : own_or_dimension self "size" = Ok (JList (ints sizes))) :
  ((List.length sizes <= List.length dim_indices)%nat ->
   get_value_index self (ints dim_indices)
   = Ok (JInt (flat_index (firstn (List.length sizes) dim_indices) sizes)))
  /\
  ((List.length dim_indices < List.length sizes)%nat ->
   get_value_index self (ints dim_indices) = Raise IndexError).
Proof.
  split.
  - intros Hlen.
    rewrite <- (get_value_index_spec self sizes
                  (firstn (List.length sizes) dim_indices) Hsize)
      by (rewrite length_firstn; lia).
    unfold get_value_index. rewrite Hsize. cbn [bind py_len py_iter].
    rewrite !ints_length, !Nat2Z.id.
    replace (ints (firstn (List.length sizes) dim_indices))
      with (firstn (List.length sizes) (ints dim_indices))
      by (unfold ints; apply firstn_map).
    rewrite value_index_loop_firstn; [reflexivity|].
    apply Forall_forall. intros z Hz. apply in_map_iff in Hz.
    destruct Hz as (j & <- & Hj). apply in_seq in Hj. lia.
  - intros Hlen.
    unfold get_value_index. rewrite Hsize. cbn [bind py_len py_iter].
    rewrite ints_length, Nat2Z.id.
    destruct sizes as [|s sizes]; [simpl in Hlen; lia|].
    cbn [List.length seq map value_index_loop].
    unfold value_index_step at 1.
    change (0 <? Z.of_nat 0) with false. cbv iota. cbn [bind].
    rewrite list_index_beyond
      by (rewrite ints_length; cbn [List.length] in Hlen; lia).
    reflexivity.
Qed.

Lemma get_value_index_arity_witness :
  own_or_dimension cube_2_3 "size" = Ok (JList (ints [2; 3])) /\
  get_value_index cube_2_3 (ints [1; 2; 9]) = Ok (JInt 5) /\
  get_value_index cube_2_3 (ints [1]) = Raise IndexError.
Proof.
  split; [reflexivity|].
  destruct (get_value_index_arity cube_2_3 [2; 3] [1; 2; 9]) as [Hmore _];
    [reflexivity|].
  destruct (get_value_index_arity cube_2_3 [2; 3] [1]) as [_ Hless];
    [reflexivity|].
  split; [apply Hmore; simpl; lia|apply Hless; simpl; lia].
Defined.

Lemma flat_index_in_range (idx sizes : list Z) :
  in_range idx sizes ->
  0 <= flat_index idx sizes < product sizes.
Proof.
  induction 1 as [|i s idx sizes Hi _ IH].
  - rewrite flat_index_nil. simpl. lia.
  - rewrite flat_index_cons, product_cons. nia.
Qed.

Lemma flat_index_injective (i1 i2 sizes : list Z) :
  in_range i1 sizes -> in_range i2 sizes ->
  flat_index i1 sizes = flat_index i2 sizes -> i1 = i2.
Proof.
  intros H1. revert i2.
  induction H1 as [|a s i1 sizes Ha H1 IH]; intros i2 H2 Heq.
  - inversion H2. reflexivity.
  - inversion H2 as [|b ? i2' ? Hb H2']; subst.
    rewrite !flat_index_cons in Heq.
    pose proof (flat_index_in_range _ _ H1) as B1.
    pose proof (flat_index_in_range _ _ H2') as B2.
    assert (a = b) by nia. subst b.
    f_equal. apply IH; [exact H2'|lia].
Qed.

Lemma flat_index_onto (sizes : list Z) :
  Forall (fun s => 0 <= s) sizes ->
  forall n, 0 <= n < product sizes ->
            exists idx, in_range idx sizes /\ flat_index idx sizes = n.
Proof.
  induction 1 as [|s sizes Hs _ IH]; intros n Hn.
  - exists []. split; [constructor|]. rewrite flat_index_nil.
    simpl in Hn. lia.
  - rewrite product_cons in Hn.
    assert (Hp : 0 < product sizes) by nia.
    destruct (IH (n mod product sizes)) as (idx & Hr & Hf).
    { apply Z.mod_pos_bound. exact Hp. }
    exists (n / product sizes :: idx). split.
    + constructor; [|exact Hr]. split.
      * apply Z.div_pos; lia.
      * apply Z.div_lt_upper_bound; lia.
    + rewrite flat_index_cons, Hf.
      rewrite (Z.div_mod n (product sizes)) at 3 by lia. ring.
Qed.

(** On tuples of indices that lie within the sizes, [get_value_index] is
    one-to-one and onto the offsets below the product of the sizes: every
    cell of the cube has its own place in the list of values, and every
    place belongs to a cell. *)
Theorem get_value_index_one_to_one (self : json) (sizes : list Z)
  (Hsize : own_or_dimension self "size" = Ok (JList (ints sizes)))
  (Hsizes : Forall (fun s => 0 <= s) sizes) :
  (forall idx, in_range idx sizes ->
     exists n, get_value_index self (ints idx) = Ok (JInt n) /\
               0 <= n < product sizes) /\
  (forall i1 i2, in_range i1 sizes -> in_range i2 sizes ->
     get_value_index self (ints i1) = get_value_index self (ints i2) ->
     i1 = i2) /\
  (forall n, 0 <= n < product sizes ->
     exists idx, in_range idx sizes /\
                 get_value_index self (ints idx) = Ok (JInt n)).
Proof.
  assert (Hval : forall idx, in_range idx sizes ->
             get_value_index self (ints idx)
             = Ok (JInt (flat_index idx sizes))).
  { intros idx Hr. apply get_value_index_spec; [exact Hsize|].
    apply (Forall2_length Hr). }
  split; [|split].
  - intros idx Hr. exists (flat_index idx sizes).
    split; [apply Hval; exact Hr|apply flat_index_in_range; exact Hr].
  - intros i1 i2 H1 H2 Heq. rewrite (Hval i1 H1), (Hval i2 H2) in Heq.
    injection Heq as Heq. apply (flat_index_injective i1 i2 sizes); assumption.
  - intros n Hn. destruct (flat_index_onto sizes Hsizes n Hn) as (idx & Hr & Hf).
    exists idx. split; [exact Hr|]. rewrite (Hval idx Hr), Hf. reflexivity.
Qed.

Lemma get_value_index_one_to_one_witness :
  (own_or_dimension cube_2_3 "size" = Ok (JList (ints [2; 3])) /\
   in_range [1; 2] [2; 3]) /\
  exists n, get_value_index cube_2_3 (ints [1; 2]) = Ok (JInt n) /\
            0 <= n < product [2; 3].
Proof.
  assert (Hr : in_range [1; 2] [2; 3]).
  { repeat constructor; lia. }
  split; [split; [reflexivity|exact Hr]|].
  destruct (get_value_index_one_to_one cube_2_3 [2; 3]) as (Hbound & _).
  - reflexivity.
  - repeat constructor; lia.
  - apply Hbound. exact Hr.
Defined.

(** ** Point queries *)

Lemma list_find_first (l : list json) (v : scalar) :
  In (JAtom v) l ->
  forall pos,
  exists p : nat,
    list_find l v pos = Ok (JInt (pos + Z.of_nat p)) /\
    nth_error l p = Some (JAtom v) /\
    forall q, (q < p)%nat -> nth_error l q <> Some (JAtom v).
Proof.
  induction l as [|x l IH]; intros Hin pos; [contradiction|].
  cbn [list_find].
  destruct (match x with JAtom a => scalar_eqb a v | _ => false end) eqn:E.
  - exists 0%nat. split; [cbn [Z.of_nat]; rewrite Z.add_0_r; reflexivity|].
    split; [|intros q Hq; lia].
    destruct x as [a| |]; try discriminate E.
    destruct (scalar_eqb_spec a v) as [->|]; [reflexivity|discriminate].
  - assert (Hx : x <> JAtom v).
    { intros ->. rewrite scalar_eqb_refl in E. discriminate. }
    destruct Hin as [Hin|Hin]; [contradiction|].
    destruct (IH Hin (pos + 1)) as (p & Hp & Hn & Hfirst).
    exists (S p).
    split; [replace (pos + Z.of_nat (S p)) with (pos + 1 + Z.of_nat p) by lia;
            exact Hp|].
    split; [exact Hn|].
    intros [|q] Hq; cbn [nth_error]; [congruence|apply Hfirst; lia].
Qed.

(** For a dimension whose [category.index] is a list, the position
    [get_dimension_index] returns for an id of the list is the first place
    that holds the id. *)
Theorem get_dimension_index_first_position
  (self_items dimension descriptor category : list (string * json))
  (name : string) (value : scalar) (l : list json)
  (Hdimension : dict_get self_items "dimension" = Some (JDict dimension))
  (Hdescriptor : dict_get dimension name = Some (JDict descriptor))
  (Hcategory : dict_get descriptor "category" = Some (JDict category))
  (Hindex : dict_get category "index" = Some (JList l))
  (Hin : In (JAtom value) l) :
  exists p : nat,
    get_dimension_index (JDict self_items) (JStr name) value
    = Ok (JInt (Z.of_nat p)) /\
    nth_error l p = Some (JAtom value) /\
    forall q, (q < p)%nat -> nth_error l q <> Some (JAtom value).
Proof.
  destruct (list_find_first l value Hin 0) as (p & Hp & Hn & Hfirst).
  exists p. split; [|split; assumption].
  unfold get_dimension_index.
  cbn [py_get_default py_getitem bind].
  rewrite Hdimension. cbn [py_get_default py_getitem bind].
  rewrite Hdescriptor. cbn [py_get_default py_getitem bind].
  rewrite Hcategory. cbn [py_contains py_getitem bind].
  unfold dict_mem. rewrite Hindex. cbn [negb bind]. exact Hp.
Qed.

Lemma get_dimension_index_first_position_witness :
  In (JAtom (SStr "F")) [JStr "M"; JStr "F"] /\
  exists p : nat,
    get_dimension_index (cube_sex [1; 2]) (JStr "sex") (SStr "F")
    = Ok (JInt (Z.of_nat p)) /\
    nth_error [JStr "M"; JStr "F"] p = Some (JStr "F").
Proof.
  assert (Hin : In (JAtom (SStr "F")) [JStr "M"; JStr "F"])
    by (right; left; reflexivity).
  split; [exact Hin|]. unfold cube_sex.
  edestruct (get_dimension_index_first_position) as (p & Hp & Hn & _);
    [| | | |exact Hin|exists p; split; [exact Hp|exact Hn]];
    reflexivity.
Defined.

Lemma query_matches_missing (query : list (list (string * scalar)))
  (name : string) :
  (forall d, In d query -> dict_get d name = None) ->
  query_matches query (JStr name) = Ok [].
Proof.
  induction query as [|d query IH]; intros H; [reflexivity|].
  cbn [query_matches]. rewrite IH by (intros; apply H; right; assumption).
  cbn [bind]. rewrite (H d) by (left; reflexivity). reflexivity.
Qed.

(** A query has to name a category for every dimension of the cube: when
    no dict of the query mentions some dimension, [get_dimension_indices]
    and [get_value] fail, with [IndexError] when the dimension is the
    first. *)
Theorem get_dimension_indices_incomplete_query (self : json)
  (query : list (list (string * scalar))) (ids : json)
  (id_list : list json) (name : string)
  (Hids : own_or_dimension self "id" = Ok ids)
  (Hiter : py_iter ids = Ok id_list)
  (Hname : In (JStr name) id_list)
  (Hmissing : forall d, In d query -> dict_get d name = None) :
  (exists e, get_dimension_indices self query = Raise e) /\
  (exists e, get_value self query = Raise e) /\
  (hd_error id_list = Some (JStr name) ->
   get_dimension_indices self query = Raise IndexError).
Proof.
  assert (Hone :
    (matches <- query_matches query (JStr name) ;;
     v <- list_index matches 0 ;;
     get_dimension_index self (JStr name) v) = Raise IndexError).
  { rewrite (query_matches_missing query name Hmissing). reflexivity. }
  assert (Hall : exists e, get_dimension_indices self query = Raise e).
  { unfold get_dimension_indices. rewrite Hids. cbn [bind].
    rewrite Hiter. cbn [bind].
    eapply mapM_raise; [exact Hname|exact Hone]. }
  split; [exact Hall|]. split.
  - destruct Hall as (e & He). exists e. unfold get_value. rewrite He.
    reflexivity.
  - intros Hhd. destruct id_list as [|x l]; [discriminate|].
    injection Hhd as ->.
    unfold get_dimension_indices. rewrite Hids. cbn [bind].
    rewrite Hiter. cbn [bind mapM]. rewrite Hone. reflexivity.
Qed.

Lemma get_dimension_indices_incomplete_query_witness :
  (own_or_dimension (cube_sex [1; 2]) "id" = Ok (JList [JStr "sex"]) /\
   (forall d, In d [[("age"%string, SStr "T")]] ->
              dict_get d "sex" = None)) /\
  get_dimension_indices (cube_sex [1; 2]) [[("age"%string, SStr "T")]]
  = Raise IndexError.
Proof.
  assert (Hm : forall d, In d [[("age"%string, SStr "T")]] ->
                         dict_get d "sex" = None).
  { intros d [<-|[]]. reflexivity. }
  split; [split; [reflexivity|exact Hm]|].
  destruct (get_dimension_indices_incomplete_query (cube_sex [1; 2])
              [[("age"%string, SStr "T")]] (JList [JStr "sex"])
              [JStr "sex"] "sex") as (_ & _ & Hfirst).
  - reflexivity.
  - reflexivity.
  - left; reflexivity.
  - exact Hm.
  - apply Hfirst. reflexivity.
Defined.

(** ** The encoder: column labels, outputs and the shape of the document *)

Lemma items_not_in_value_non_string (cols : list scalar) (value : string)
  (c : scalar) :
  In c cols -> (forall s, c <> SStr s) ->
  items_not_in_value cols value = Raise TypeError.
Proof.
  induction cols as [|x cols IH]; intros Hin Hc; [contradiction|].
  cbn [items_not_in_value]. destruct Hin as [->|Hin].
  - destruct c as [|z|s]; try reflexivity. exfalso. apply (Hc s). reflexivity.
  - destruct x as [|z|s]; try reflexivity.
    rewrite IH by assumption. reflexivity.
Qed.

(** A column label that is not a string (an integer year, say) makes the
    encoder raise [TypeError]: the test [item not in value] asks whether
    the label occurs inside the string [value]. *)
Theorem to_json_stat_non_string_column (df : table) (others : list table)
  (value output version : string) (c : scalar)
  (Hin : In c (columns df))
  (Hc : forall s, c <> SStr s) :
  to_json_stat (OneFrame df) value output version = Raise TypeError /\
  to_json_stat (FrameList (df :: others)) value output version
  = Raise TypeError.
Proof.
  assert (He : forall row, encode_frame row df value version
                           = Raise TypeError).
  { intros row. unfold encode_frame.
    rewrite (items_not_in_value_non_string _ _ c Hin Hc). reflexivity. }
  split; unfold to_json_stat; cbv zeta; cbn [encode_frames];
    rewrite He; reflexivity.
Qed.

Lemma to_json_stat_non_string_column_witness :
  (In (SInt 2010) [SInt 2010; SStr "value"] /\
   (forall s, SInt 2010 <> SStr s)) /\
  to_json_stat (OneFrame (mkDF [SInt 2010; SStr "value"] [[SStr "a"; SInt 1]]))
               "value" "dict" "2.0"
  = Raise TypeError.
Proof.
  split; [split; [left; reflexivity|discriminate]|].
  apply (to_json_stat_non_string_column
           (mkDF [SInt 2010; SStr "value"] [[SStr "a"; SInt 1]]) []
           "value" "dict" "2.0" (SInt 2010)).
  - left; reflexivity.
  - discriminate.
Defined.

(** A column name that labels two columns and does not occur inside the
    name of the value column is refused with [ValueError], whatever the
    output and the version asked for. *)
Theorem to_json_stat_repeated_column (df : table) (others : list table)
  (value output version : string) (name : string)
  (l1 l2 l3 : list scalar)
  (Hstr : all_strings (columns df))
  (Hcols : columns df = l1 ++ SStr name :: l2 ++ SStr name :: l3)
  (Hsub : str_contains name value = false) :
  to_json_stat (OneFrame df) value output version = Raise ValueError /\
  to_json_stat (FrameList (df :: others)) value output version
  = Raise ValueError.
Proof.
  split; unfold to_json_stat; cbv zeta; cbn [encode_frames];
    rewrite (encode_frame_duplicate_column _ df value version name l1 l2 l3)
      by assumption; reflexivity.
Qed.

Lemma to_json_stat_repeated_column_witness :
  (all_strings (columns table_region_region) /\
   columns table_region_region
   = [] ++ SStr "region" :: [] ++ SStr "region" :: [SStr "value"] /\
   str_contains "region" "value" = false) /\
  to_json_stat (OneFrame table_region_region) "value" "list" "1.3"
  = Raise ValueError.
Proof.
  assert (Hstr : all_strings (columns table_region_region)).
  { repeat constructor; eexists; reflexivity. }
  split; [split; [exact Hstr|split; reflexivity]|].
  apply (to_json_stat_repeated_column table_region_region [] "value" "list"
           "1.3" "region" [] [] [SStr "value"]).
  - exact Hstr.
  - reflexivity.
  - reflexivity.
Defined.

(** The loop over the frames, as the encoding of every frame followed by
    the collection of the datasets. *)
Lemma encode_frames_all (data : list table) (value output version : string) :
  forall row res,
    encode_frames row data value output version res
    = (dss <- encode_all row data value version ;;
       Ok (fold_left
             (fun res dataset =>
                if String.eqb output "list" then
                  match res with
                  | Some (JList l) => Some (JList (l ++ [JDict dataset]))
                  | _ => res
                  end
                else if String.eqb output "dict" then
                  match res with
                  | Some (JDict d) => Some (JDict (dict_update d dataset))
                  | _ => res
                  end
                else Some JNull) dss res)).
Proof.
  unfold encode_all.
  induction data as [|df data IH]; intros row res; [reflexivity|].
  cbn [encode_frames List.length seq combine mapM fst snd].
  destruct (encode_frame row df value version) as [ds|e]; cbn [bind];
    [|reflexivity].
  rewrite IH.
  destruct (mapM _ (combine (seq (S row) (List.length data)) data));
    reflexivity.
Qed.

(** With [output='list'] the result lists the datasets of the frames, one
    per frame and in the order of the frames. *)
Theorem to_json_stat_list_output (data : list table)
  (value version : string) :
  to_json_stat (FrameList data) value "list" version
  = (dss <- encode_all 0 data value version ;; Ok (JList (map JDict dss))).
Proof.
  unfold to_json_stat. change (String.eqb "list" "list") with true.
  cbv iota zeta. rewrite encode_frames_all.
  destruct (encode_all 0 data value version) as [dss|e]; cbn [bind];
    [|reflexivity].
  change (String.eqb "list" "list") with true. cbv iota.
  assert (H : forall l,
             fold_left
               (fun (res : option json) (dataset : list (string * json)) =>
                  match res with
                  | Some (JList l) => Some (JList (l ++ [JDict dataset]))
                  | _ => res
                  end) dss (Some (JList l))
             = Some (JList (l ++ map JDict dss))).
  { induction dss as [|ds dss IH]; intros l; cbn [fold_left map].
    - rewrite app_nil_r. reflexivity.
    - rewrite IH, <- app_assoc. reflexivity. }
  rewrite H. reflexivity.
Qed.

(** An [output] other than ['list'] and ['dict'] is not refused: when
    there is a frame and every frame can be encoded, the result is the
    JSON text [null]; without any frame the result variable was never
    bound. *)
Theorem to_json_stat_unknown_output (data : list table)
  (value output version : string)
  (dss : list (list (string * json)))
  (Houtput : output <> "list"%string /\ output <> "dict"%string)
  (Hall : encode_all 0 data value version = Ok dss) :
  to_json_stat (FrameList data) value output version
  = match data with
    | [] => Raise NameError
    | _ :: _ => Ok JNull
    end.
Proof.
  destruct Houtput as [Hl Hd].
  unfold to_json_stat. cbv zeta. rewrite encode_frames_all, Hall.
  cbn [bind].
  destruct (String.eqb_spec output "list") as [E|_]; [contradiction|].
  destruct (String.eqb_spec output "dict") as [E|_]; [contradiction|].
  pose proof (mapM_length _ _ _ Hall) as Hlen.
  rewrite length_combine, length_seq, Nat.min_id in Hlen.
  destruct data as [|df data]; destruct dss as [|ds dss]; try discriminate.
  - reflexivity.
  - cbn [fold_left].
    assert (H : fold_left
                  (fun (_ : option json) (_ : list (string * json)) =>
                     Some JNull) dss (Some JNull) = Some JNull).
    { clear. induction dss; [reflexivity|exact IHdss]. }
    rewrite H. reflexivity.
Qed.

Lemma to_json_stat_unknown_output_witness :
  ("frame"%string <> "list"%string /\ "frame"%string <> "dict"%string) /\
  to_json_stat (FrameList [table_a]) "value" "frame" "2.0" = Ok JNull.
Proof.
  split; [split; discriminate|].
  apply (to_json_stat_unknown_output [table_a] "value" "frame" "2.0"
           [[("dimension"%string, JDict []);
             ("value"%string, JList [JInt 1]);
             ("version"%string, JStr "2.0");
             ("class"%string, JStr "dataset");
             ("id"%string, JList []);
             ("size"%string, JList [])]]).
  - split; discriminate.
  - reflexivity.
Defined.

Lemma update_dimension_first (rest : list (string * json))
  (dimension categories : list (string * json)) :
  update_dimension (("dimension"%string, JDict dimension) :: rest) categories
  = Ok (("dimension"%string, JDict (dict_update dimension categories))
        :: rest).
Proof.
  rewrite (update_dimension_spec _ dimension) by reflexivity. reflexivity.
Qed.

Lemma value_list_column (df : table) (value : string) (vals : list json) :
  value_list df value = Ok vals ->
  exists p, label_pos (columns df) (SStr value) = Some p /\
            vals = map JAtom (table_column df p).
Proof.
  unfold value_list.
  destruct (filter (scalar_eqb (SStr value)) (columns df)) as [|c l] eqn:E;
    [discriminate|].
  assert (Hin : In (SStr value) (columns df)).
  { assert (H : In c (c :: l)) by (left; reflexivity).
    rewrite <- E in H. apply filter_In in H. destruct H as [H Hc].
    destruct (scalar_eqb_spec (SStr value) c) as [->|]; [exact H|discriminate]. }
  assert (Hpos : exists p, label_pos (columns df) (SStr value) = Some p).
  { clear -Hin. induction (columns df) as [|x cols IH]; [contradiction|].
    cbn [label_pos]. destruct (scalar_eqb_spec x (SStr value)) as [->|Hne];
      [eauto|].
    destruct Hin as [Hin|Hin]; [contradiction|].
    destruct (IH Hin) as (p & ->). exists (S p). reflexivity. }
  destruct Hpos as (p & Hp). rewrite Hp. exists p. split; [reflexivity|].
  destruct l as [|c' l].
  - injection H as <-. apply map_ext. intros [| |]; reflexivity.
  - unfold table_column. destruct (rows df); [|discriminate].
    injection H as <-. reflexivity.
Qed.

(** The dataset of a frame in version 2.0 or later. *)
Lemma encode_frame_v2 (row : nat) (df : table) (value version : string)
  (ds : list (string * json)) :
  float_str_ge_2 version = Ok true -> ~ reserved value ->
  encode_frame row df value version = Ok ds ->
  exists dimension ids sizes p,
    label_pos (columns df) (SStr value) = Some p /\
    ds = [("dimension"%string, JDict dimension);
          (value, JList (map JAtom (table_column df p)));
          ("version"%string, JStr version);
          ("class"%string, JStr "dataset");
          ("id"%string, JList ids);
          ("size"%string, JList sizes)] /\
    List.length ids = List.length sizes.
Proof.
  intros Hv2 Hvalue H. unfold encode_frame in H.
  destruct (items_not_in_value (columns df) value) as [items|];
    [|discriminate].
  cbn [bind] in H. destruct (df_filter df items) as [dims|]; [|discriminate].
  cbn [bind] in H.
  destruct (negb (nodupb (columns dims))); [discriminate|].
  destruct (mapM (category_entry dims) (columns dims)) as [categories|];
    [|discriminate].
  cbn [bind] in H. rewrite Hv2 in H. cbn [bind] in H.
  destruct (value_list df value) as [vals|] eqn:Hvals; [|discriminate].
  cbn [bind] in H.
  destruct (value_list_column df value vals Hvals) as (p & Hp & ->).
  assert (Hd : String.eqb "dimension" value = false).
  { apply String.eqb_neq. intros <-. apply Hvalue. left. reflexivity. }
  assert (Hve : String.eqb value "version" = false).
  { apply String.eqb_neq. intros ->. apply Hvalue. right. left. reflexivity. }
  assert (Hc : String.eqb value "class" = false).
  { apply String.eqb_neq. intros ->. apply Hvalue.
    right. right. left. reflexivity. }
  assert (Hi : String.eqb value "id" = false).
  { apply String.eqb_neq. intros ->. apply Hvalue.
    right. right. right. left. reflexivity. }
  assert (Hs : String.eqb value "size" = false).
  { apply String.eqb_neq. intros ->. apply Hvalue.
    right. right. right. right. left. reflexivity. }
  cbn [dict_set] in H. rewrite Hd in H. cbn [dict_set] in H.
  change (String.eqb "dimension" "version") with false in H.
  rewrite Hve in H. cbn [dict_set] in H.
  change (String.eqb "dimension" "class") with false in H.
  change (String.eqb "version" "class") with false in H.
  rewrite Hc in H. cbn [dict_set] in H.
  rewrite update_dimension_first in H. cbn [bind] in H.
  cbn [dict_set] in H.
  change (String.eqb "dimension" "id") with false in H.
  change (String.eqb "version" "id") with false in H.
  change (String.eqb "class" "id") with false in H.
  rewrite Hi in H. cbn [dict_set] in H.
  change (String.eqb "dimension" "size") with false in H.
  change (String.eqb "version" "size") with false in H.
  change (String.eqb "class" "size") with false in H.
  change (String.eqb "id" "size") with false in H.
  rewrite Hs in H. cbn [dict_set] in H.
  rewrite update_dimension_first in H. injection H as <-.
  eexists _, _, _, p. split; [exact Hp|]. split; [reflexivity|].
  rewrite !length_map. reflexivity.
Qed.

Lemma to_json_stat_one_dict (df : table) (value version : string) :
  to_json_stat (OneFrame df) value "dict" version
  = (ds <- encode_frame 0 df value version ;;
     Ok (JDict (dict_update [] ds))).
Proof.
  unfold to_json_stat. cbv zeta. rewrite encode_frames_all.
  unfold encode_all. cbn [List.length seq combine mapM fst snd].
  destruct (encode_frame 0 df value version); reflexivity.
Qed.

Lemma dataset_keys_nodup (value : string) (a b c d e f : json) :
  ~ reserved value ->
  NoDup (map fst [("dimension"%string, a); (value, b);
                  ("version"%string, c); ("class"%string, d);
                  ("id"%string, e); ("size"%string, f)]).
Proof.
  intros Hvalue. cbn [map fst].
  assert (Hd : value <> "dimension"%string)
    by (intros ->; apply Hvalue; left; reflexivity).
  assert (Hve : value <> "version"%string)
    by (intros ->; apply Hvalue; right; left; reflexivity).
  assert (Hc : value <> "class"%string)
    by (intros ->; apply Hvalue; right; right; left; reflexivity).
  assert (Hi : value <> "id"%string)
    by (intros ->; apply Hvalue; right; right; right; left; reflexivity).
  assert (Hs : value <> "size"%string)
    by (intros ->; apply Hvalue; right; right; right; right; left;
        reflexivity).
  repeat constructor; cbn [In]; intros H;
    repeat (destruct H as [H|H]; [congruence|]); exact H.
Qed.

(** In version 2.0 and later the document of a frame has the members
    [dimension], the values, [version], [class], [id] and [size], in this
    order.  The values are the cells of the value column from top to
    bottom: the encoder moves them as they are and orders nothing.  There
    are as many sizes as ids.  The version is a numeral [float] reads as
    2.0 or more; the frame has labels and cells every Python 3 release
    treats alike. *)
Theorem to_json_stat_document (df : table) (value version : string)
  (doc : json)
  (Hv2 : float_str_ge_2 version = Ok true)
  (Hvalue : ~ reserved value)
  (Hplain : plain_table df)
  (Hok : to_json_stat (OneFrame df) value "dict" version = Ok doc) :
  exists dimension ids sizes p,
    label_pos (columns df) (SStr value) = Some p /\
    doc = JDict [("dimension"%string, JDict dimension);
                 (value, JList (map JAtom (table_column df p)));
                 ("version"%string, JStr version);
                 ("class"%string, JStr "dataset");
                 ("id"%string, JList ids);
                 ("size"%string, JList sizes)] /\
    List.length ids = List.length sizes.
Proof.
  rewrite to_json_stat_one_dict in Hok.
  destruct (encode_frame 0 df value version) as [ds|] eqn:E; [|discriminate].
  cbn [bind] in Hok. injection Hok as <-.
  destruct (encode_frame_v2 0 df value version ds Hv2 Hvalue E)
    as (dimension & ids & sizes & p & Hp & -> & Hlen).
  exists dimension, ids, sizes, p. split; [exact Hp|]. split; [|exact Hlen].
  f_equal. apply (dict_update_fresh []). cbn [app].
  apply dataset_keys_nodup. exact Hvalue.
Qed.

Lemma to_json_stat_document_witness :
  (float_str_ge_2 "2.0" = Ok true /\ ~ reserved "value" /\
   to_json_stat (OneFrame table_column_major) "value" "dict" "2.0"
   = Ok (cube_document ["region"; "sex"]%string
           [[SStr "a"; SStr "x"]; [SStr "b"; SStr "x"];
            [SStr "a"; SStr "y"]; [SStr "b"; SStr "y"]]
           [SInt 1; SInt 2; SInt 3; SInt 4])) /\
  exists dimension ids sizes,
    cube_document ["region"; "sex"]%string
      [[SStr "a"; SStr "x"]; [SStr "b"; SStr "x"];
       [SStr "a"; SStr "y"]; [SStr "b"; SStr "y"]]
      [SInt 1; SInt 2; SInt 3; SInt 4]
    = JDict [("dimension"%string, JDict dimension);
             ("value"%string, JList [JInt 1; JInt 2; JInt 3; JInt 4]);
             ("version"%string, JStr "2.0");
             ("class"%string, JStr "dataset");
             ("id"%string, JList ids);
             ("size"%string, JList sizes)].
Proof.
  assert (Hvalue : ~ reserved "value").
  { intros H. repeat (destruct H as [H|H]; [discriminate H|]). exact H. }
  split; [split; [reflexivity|split; [exact Hvalue|reflexivity]]|].
  destruct (to_json_stat_document table_column_major "value" "2.0"
              (cube_document ["region"; "sex"]%string
                 [[SStr "a"; SStr "x"]; [SStr "b"; SStr "x"];
                  [SStr "a"; SStr "y"]; [SStr "b"; SStr "y"]]
                 [SInt 1; SInt 2; SInt 3; SInt 4]))
    as (dimension & ids & sizes & p & Hp & Hdoc & _);
    [reflexivity|exact Hvalue|exact table_column_major_plain|reflexivity|].
  exists dimension, ids, sizes. rewrite Hdoc.
  vm_compute in Hp. injection Hp as <-. reflexivity.
Defined.

Lemma dict_set_middle {V} (pre rest : list (string * V)) (k : string)
  (a b : V) :
  ~ In k (map fst pre) ->
  dict_set (pre ++ (k, a) :: rest) k b = pre ++ (k, b) :: rest.
Proof.
  induction pre as [|[k' v'] pre IH]; intros Hk; cbn [app dict_set].
  - rewrite String.eqb_refl. reflexivity.
  - destruct (String.eqb_spec k' k) as [->|_].
    + exfalso. apply Hk. left. reflexivity.
    + rewrite IH; [reflexivity|]. intros Hin. apply Hk. right. exact Hin.
Qed.

(** Updating a dictionary with one that has the same keys in the same
    order replaces it. *)
Lemma dict_update_overwrite {V} (d e : list (string * V)) :
  map fst d = map fst e -> NoDup (map fst e) -> dict_update d e = e.
Proof.
  intros Hkeys Hnd. unfold dict_update.
  assert (H : forall pre,
             NoDup (map fst (pre ++ e)) ->
             fold_left (fun acc kv => dict_set acc (fst kv) (snd kv)) e
                       (pre ++ d) = pre ++ e).
  { revert d Hkeys. clear Hnd.
    induction e as [|[k b] e IH]; intros d Hkeys pre Hnd.
    - destruct d; [reflexivity|discriminate].
    - destruct d as [|[k' a] d]; [discriminate|].
      cbn [map fst] in Hkeys. injection Hkeys as -> Hkeys.
      cbn [fold_left fst snd]. rewrite dict_set_middle.
      + change (pre ++ (k, b) :: d) with (pre ++ [(k, b)] ++ d).
        change (pre ++ (k, b) :: e) with (pre ++ [(k, b)] ++ e).
        rewrite !app_assoc. apply IH; [exact Hkeys|].
        rewrite <- app_assoc. exact Hnd.
      + rewrite map_app in Hnd. cbn [map fst] in Hnd.
        apply NoDup_remove_2 in Hnd. intros Hin. apply Hnd.
        apply in_or_app. left. exact Hin. }
  apply (H []). exact Hnd.
Qed.

Lemma mapM_in_out {A B} (f : A -> result B) (l : list A) (l' : list B)
  (y : B) :
  mapM f l = Ok l' -> In y l' -> exists x, In x l /\ f x = Ok y.
Proof.
  revert l'. induction l as [|a l IH]; intros l' H Hy.
  - injection H as <-. contradiction.
  - cbn [mapM] in H. destruct (f a) as [b|] eqn:E; [|discriminate].
    cbn [bind] in H. destruct (mapM f l) as [bs|]; [|discriminate].
    cbn [bind] in H. injection H as <-. destruct Hy as [<-|Hy].
    + exists a. split; [left; reflexivity|exact E].
    + destruct (IH bs eq_refl Hy) as (x & Hx & Hfx).
      exists x. split; [right; exact Hx|exact Hfx].
Qed.

Lemma member_names_nodup (value : string) :
  ~ reserved value ->
  NoDup ["dimension"%string; value; "version"%string; "class"%string;
         "id"%string; "size"%string].
Proof.
  intros Hvalue.
  apply (dataset_keys_nodup value JNull JNull JNull JNull JNull JNull Hvalue).
Qed.

Lemma fold_dict_update_last (names : list string)
  (dss : list (list (string * json))) :
  NoDup names ->
  Forall (fun ds => map fst ds = names) dss ->
  forall d ds0,
    d = [] \/ map fst d = names ->
    map fst ds0 = names ->
    fold_left
      (fun (res : option json) (dataset : list (string * json)) =>
         match res with
         | Some (JDict d) => Some (JDict (dict_update d dataset))
         | _ => res
         end) (ds0 :: dss) (Some (JDict d))
    = Some (JDict (last (ds0 :: dss) [])).
Proof.
  intros Hnd Hall. induction Hall as [|ds1 dss H1 _ IH]; intros d ds0 Hd H0.
  - cbn [fold_left last]. do 2 f_equal. destruct Hd as [->|Hd].
    + apply (dict_update_fresh []). cbn [app]. rewrite H0. exact Hnd.
    + apply dict_update_overwrite; [congruence|]. rewrite H0. exact Hnd.
  - cbn [fold_left].
    assert (E : dict_update d ds0 = ds0).
    { destruct Hd as [->|Hd].
      - apply (dict_update_fresh []). cbn [app]. rewrite H0. exact Hnd.
      - apply dict_update_overwrite; [congruence|]. rewrite H0. exact Hnd. }
    rewrite E.
    change (last (ds0 :: ds1 :: dss) []) with (last (ds1 :: dss) []).
    apply (IH ds0 ds1); [right; exact H0|exact H1].
Qed.

(** With [output='dict'] and version 2.0 or later the datasets of a list
    of frames all have the same member names, and each one overwrites the
    one before: the result is the dataset of the last frame alone.  The
    version is a numeral [float] reads as 2.0 or more; the frames have
    labels and cells every Python 3 release treats alike. *)
Theorem to_json_stat_dict_keeps_last (data : list table)
  (value version : string) (dss : list (list (string * json)))
  (Hv2 : float_str_ge_2 version = Ok true)
  (Hvalue : ~ reserved value)
  (Hplain : Forall plain_table data)
  (Hall : encode_all 0 data value version = Ok dss)
  (Hne : data <> []) :
  to_json_stat (FrameList data) value "dict" version
  = Ok (JDict (last dss [])).
Proof.
  unfold to_json_stat. cbv zeta. rewrite encode_frames_all, Hall.
  cbn [bind].
  change (String.eqb "dict" "list") with false.
  change (String.eqb "dict" "dict") with true. cbv iota.
  assert (Hshape : Forall (fun ds => map fst ds
                     = ["dimension"%string; value; "version"%string;
                        "class"%string; "id"%string; "size"%string]) dss).
  { apply Forall_forall. intros ds Hds.
    destruct (mapM_in_out _ _ _ ds Hall Hds) as ([row df] & _ & He).
    cbn [fst snd] in He.
    destruct (encode_frame_v2 row df value version ds Hv2 Hvalue He)
      as (dimension & ids & sizes & p & _ & -> & _).
    reflexivity. }
  pose proof (mapM_length _ _ _ Hall) as Hlen.
  rewrite length_combine, length_seq, Nat.min_id in Hlen.
  destruct dss as [|ds0 dss].
  { destruct data; [congruence|discriminate]. }
  inversion Hshape as [|? ? H0 Hrest]; subst.
  rewrite (fold_dict_update_last _ dss (member_names_nodup value Hvalue)
             Hrest [] ds0); [reflexivity|left; reflexivity|exact H0].
Qed.

Lemma to_json_stat_dict_keeps_last_witness :
  (float_str_ge_2 "2.0" = Ok true /\ ~ reserved "value" /\
   [table_column_major; table_a] <> []) /\
  to_json_stat (FrameList [table_column_major; table_a]) "value" "dict" "2.0"
  = to_json_stat (OneFrame table_a) "value" "dict" "2.0".
Proof.
  assert (Hvalue : ~ reserved "value").
  { intros H. repeat (destruct H as [H|H]; [discriminate H|]). exact H. }
  split; [split; [reflexivity|split; [exact Hvalue|discriminate]]|].
  destruct (encode_all 0 [table_column_major; table_a] "value" "2.0")
    as [dss|] eqn:E; [|discriminate E].
  rewrite (to_json_stat_dict_keeps_last [table_column_major; table_a]
             "value" "2.0" dss);
    [|reflexivity|exact Hvalue
     |repeat (apply Forall_cons;
              [first [exact table_column_major_plain|exact table_a_plain]|]);
      apply Forall_nil
     |exact E|discriminate].
  vm_compute in E. injection E as <-. reflexivity.
Defined.

(** ** The classes Dataset and Dimension *)






(** A dimension object needs [category.label] to be written as a frame:
    without it [Dimension.write] raises [KeyError].  The fallback on
    [category.index] that a dataset's dimensions have looks for the index
    under a member [dimension], which a dimension object does not have. *)
Theorem dimension_write_needs_category_label
  (d category : list (string * json)) (label_col : string)
  (Hlabel : dict_get d "label" = Some (JStr label_col))
  (Hid : label_col <> "id"%string)
  (Hcategory : dict_get d "category" = Some (JDict category))
  (Hnolabel : dict_get category "label" = None)
  (Hnodim : dict_get d "dimension" = None) :
  Dimension.write (JDict d) "dataframe" = Raise KeyError.
Proof.
  unfold Dimension.write.
  change (String.eqb "dataframe" "jsonstat") with false.
  change (String.eqb "dataframe" "dataframe") with true. cbv iota.
  cbn [py_getitem]. rewrite Hlabel. cbn [bind].
  change recursion_limit with (S (S (S 997))).
  cbn [get_dim_label].
  change (String.eqb "dimension" "dataset") with false.
  change (String.eqb "dimension" "dimension") with true. cbv iota.
  cbn [py_getitem]. rewrite Hlabel. cbn [bind].
  destruct (String.eqb_spec label_col "id") as [E|_]; [contradiction|].
  cbn [bind py_getitem]. rewrite Hcategory. cbn [bind py_getitem].
  rewrite Hnolabel.
  cbn [get_dim_index py_getitem]. rewrite Hnodim. cbn [bind].
  cbn [get_dim_label].
  change (String.eqb "dataset" "dataset") with true. cbv iota.
  cbn [py_getitem]. rewrite Hnodim. reflexivity.
Qed.

Lemma dimension_write_needs_category_label_witness :
  (dict_get [("index"%string, JList [JStr "M"; JStr "F"])] "label" = None) /\
  Dimension.write
    (JDict [("version"%string, JStr "2.0");
            ("class"%string, JStr "dimension");
            ("label"%string, JStr "Sex");
            ("category"%string,
             JDict [("index"%string, JList [JStr "M"; JStr "F"])])])
    "dataframe"
  = Raise KeyError.
Proof.
  split; [reflexivity|].
  apply (dimension_write_needs_category_label _
           [("index"%string, JList [JStr "M"; JStr "F"])] "Sex");
    try reflexivity.
  discriminate.
Defined.

Lemma dataset_write_dataframe_class (d : list (string * json)) (class : json)
  (Hclass : dict_get d "class" = Some class) :
  Dataset.write (JDict d) "dataframe"
  = if is_str class "dataset"
    then df <- generate_df (JDict d) "label" "value" ;; Ok (Frame df)
    else Raise IndexError.
Proof.
  unfold Dataset.write, from_json_stat.
  change (String.eqb "dataframe" "jsonstat") with false.
  change (String.eqb "dataframe" "dataframe") with true. cbv iota.
  change (check_input "label") with (Ok tt). cbn [bind py_contains].
  unfold dict_mem. rewrite Hclass. cbn [py_getitem]. rewrite Hclass.
  cbn [bind]. destruct (is_str class "dataset"); [|reflexivity].
  destruct (generate_df (JDict d) "label" "value"); reflexivity.
Qed.

(** [Dataset.write('dataframe')] decodes the object with the naming
    [label] and the value column [value] when its class is [dataset]; an
    object of any other class gives no frame, and taking the first one
    raises [IndexError]. *)
Theorem dataset_write_dataframe (d : list (string * json)) (class : json)
  (Hclass : dict_get d "class" = Some class) :
  Dataset.write (JDict d) "dataframe"
  = if is_str class "dataset"
    then df <- generate_df (JDict d) "label" "value" ;; Ok (Frame df)
    else Raise IndexError.
Proof. exact (dataset_write_dataframe_class d class Hclass). Qed.

Lemma dataset_write_dataframe_witness :
  dict_get [("class"%string, JStr "collection")] "class"
  = Some (JStr "collection") /\
  Dataset.write (JDict [("class"%string, JStr "collection")]) "dataframe"
  = Raise IndexError.
Proof.
  split; [reflexivity|].
  apply (dataset_write_dataframe [("class"%string, JStr "collection")]
           (JStr "collection")).
  reflexivity.
Defined.

(** ** Rows of the row-major enumeration by their number *)

(** Every row of the enumeration is the row of a tuple of positions: the
    tuple whose flat index is the number of the row. *)
Lemma row_major_position {A} (d : A) (cols : list (list A)) :
  forall (i : nat) (r : list A),
    nth_error (row_major cols) i = Some r ->
    exists idx : list nat,
      Forall2 (fun k c => (k < List.length c)%nat) idx cols /\
      flat_index (map Z.of_nat idx) (sizes_of cols) = Z.of_nat i /\
      r = map (fun kc => nth (fst kc) (snd kc) d) (combine idx cols).
Proof.
  induction cols as [|c rest IH]; intros i r Hr.
  - cbn [row_major] in Hr. destruct i as [|i]; [|destruct i; discriminate].
    injection Hr as <-. exists []. split; [constructor|].
    split; [apply flat_index_nil|reflexivity].
  - cbn [row_major] in Hr.
    set (p := List.length (row_major rest)) in *.
    assert (Hi : (i < List.length c * p)%nat).
    { assert (H : (i < List.length (flat_map
                         (fun x => map (cons x) (row_major rest)) c))%nat)
        by (apply nth_error_Some; congruence).
      rewrite (flat_map_const_length _ _ p) in H; [exact H|].
      intros x. apply length_map. }
    assert (Hp : (0 < p)%nat) by nia.
    pose proof (Nat.div_mod_eq i p) as Hdm.
    assert (Hb : (i mod p < p)%nat) by (apply Nat.mod_upper_bound; lia).
    assert (Ha : (i / p < List.length c)%nat)
      by (apply Nat.Div0.div_lt_upper_bound; lia).
    destruct c as [|x0 c0] eqn:Ec; [simpl in Ha; lia|]. rewrite <- Ec in *.
    replace i with (i / p * p + i mod p)%nat in Hr by lia.
    rewrite (nth_error_flat_map_block _ c p (i / p) (i mod p) x0) in Hr;
      [|intros x; apply length_map|exact Ha|exact Hb].
    rewrite nth_error_map in Hr.
    destruct (nth_error (row_major rest) (i mod p)) as [r'|] eqn:Hr';
      [|discriminate].
    cbn [option_map] in Hr. injection Hr as <-.
    destruct (IH (i mod p)%nat r' Hr') as (idx & Hidx & Hflat & ->).
    exists (i / p :: idx)%nat. split; [constructor; assumption|]. split.
    + cbn [map]. rewrite sizes_of_cons, flat_index_cons, Hflat.
      rewrite product_sizes_of, <- row_major_length. fold p. lia.
    + cbn [combine map fst snd]. f_equal.
      apply nth_indep. exact Ha.
Qed.

Lemma query_of_missing (names : list string) (key : list scalar)
  (name : string) :
  ~ In name names ->
  forall d, In d (query_of names key) -> dict_get d name = None.
Proof.
  intros Hn d Hd. unfold query_of in Hd. apply in_map_iff in Hd.
  destruct Hd as ([n c] & <- & Hin). apply in_combine_l in Hin.
  cbn [dict_get fst snd]. destruct (String.eqb_spec n name) as [->|_];
    [contradiction|reflexivity].
Qed.

(** The query of a key names one category per dimension. *)
Lemma query_matches_query_of (names : list string) :
  NoDup names ->
  forall (key : list scalar) (j : nat),
    List.length key = List.length names ->
    (j < List.length names)%nat ->
    query_matches (query_of names key) (JStr (nth j names ""%string))
    = Ok [nth j key SNone].
Proof.
  induction 1 as [|n names Hn Hnd IH]; intros key j Hlen Hj;
    [simpl in Hj; lia|].
  destruct key as [|c key]; [discriminate|].
  cbn [List.length] in Hlen, Hj.
  unfold query_of. cbn [combine map query_matches fst snd].
  fold (query_of names key).
  destruct j as [|j]; cbn [nth].
  - rewrite (query_matches_missing _ n (query_of_missing names key n Hn)).
    cbn [bind dict_get]. rewrite String.eqb_refl. reflexivity.
  - rewrite IH by lia. cbn [bind dict_get].
    destruct (String.eqb_spec n (nth j names ""%string)) as [E|_];
      [|reflexivity].
    exfalso. apply Hn. rewrite E. apply nth_In. lia.
Qed.

Lemma enumerate_nth {A} (l : list A) (k : nat) (x : A) :
  nth_error l k = Some x -> In (Z.of_nat k, x) (enumerate l).
Proof.
  unfold enumerate.
  assert (H : forall s, nth_error l k = Some x ->
              In (Z.of_nat (s + k), x)
                 (combine (map Z.of_nat (seq s (List.length l))) l)).
  { revert k. induction l as [|y l IH]; intros k s Hk;
      [destruct k; discriminate|].
    cbn [List.length seq map combine]. destruct k as [|k].
    - injection Hk as ->. left. rewrite Nat.add_0_r. reflexivity.
    - right. replace (s + S k)%nat with (S s + k)%nat by lia.
      apply IH. exact Hk. }
  intros Hk. apply (H 0%nat Hk).
Qed.

Lemma Forall2_nth_lt {A} (idx : list nat) (cols : list (list A)) :
  Forall2 (fun k c => (k < List.length c)%nat) idx cols ->
  forall j, (j < List.length idx)%nat ->
            (nth j idx 0 < List.length (nth j cols []))%nat.
Proof.
  induction 1 as [|k c idx cols Hk _ IH]; intros j Hj; [simpl in Hj; lia|].
  destruct j as [|j]; [exact Hk|]. cbn [nth]. apply IH.
  cbn [List.length] in Hj. lia.
Qed.

(** ** A cube table through the classes and the point queries *)






(** The table is the one of the round trip: at least one category column
    and one row; distinct column names of ASCII characters that do not
    occur inside ["value"] and are no numerals; category cells that are
    strings and values the JSON text can hold; keys in row-major
    order. *)

Section CubeReaders.
Variables (names : list string) (keys : list (list scalar))
          (vals : list scalar).

Hypothesis Hnames_ne : names <> [].
Hypothesis Hnames_nodup : NoDup names.
Hypothesis Hnames_free :
  forall s, In s names -> str_contains s "value" = false.
Hypothesis Hnames_text :
  forall s, In s names -> isascii s = true /\ int_of_str s = None.
Hypothesis Hvals : List.length vals = List.length keys.
Hypothesis Hvals_writable : Forall writable vals.
Hypothesis Hrows : keys <> [].
Hypothesis Hcells :
  forall k c, In k keys -> In c k -> exists s, c = SStr s.
Hypothesis Horder :
  keys = row_major (map (first_seen keys) (seq 0 (List.length names))).

Lemma cube_categories_distinct j :
  (j < List.length names)%nat -> NoDup (map str_of (first_seen keys j)).
Proof.
  intros Hj. apply NoDup_map_str_of; [apply uniquify_NoDup|].
  intros c Hc. apply (first_seen_strings names keys) with (j := j); assumption.
Qed.

(** *** Decoding a document that holds the entries of a cube table

    What the decoder needs of a document: the entries of the columns under
    [dimension], the names as the declared ids, and the values.  The
    documents of both versions have them. *)

Section Document.
Variables (js : json) (dimension : list (string * json)).

Hypothesis Hdimension :
  py_getitem js (JStr "dimension") = Ok (JDict dimension).
Hypothesis Hentries :
  forall j, (j < List.length names)%nat ->
    dict_get dimension (nth j names ""%string)
    = Some (snd (dimension_entry (nth j names ""%string)
                                 (first_seen keys j))).
Hypothesis Hids :
  declared_ids js = Ok (JList (map (fun s => JStr s) names)).
Hypothesis Hvalue :
  py_getitem js (JStr "value") = Ok (JList (map JAtom vals)).








End Document.



Lemma cube_dimension_index j k c :
  (j < List.length names)%nat ->
  nth_error (first_seen keys j) k = Some c ->
  get_dimension_index (cube_document names keys vals)
                      (JStr (nth j names ""%string)) c
  = Ok (JInt (Z.of_nat k)).
Proof.
  intros Hj Hk.
  assert (Hc : exists s, c = SStr s).
  { apply (first_seen_strings names keys) with (j := j); try assumption.
    apply (nth_error_In _ _ Hk). }
  destruct Hc as (s & ->).
  unfold get_dimension_index, cube_document, cube_dataset.
  cbn [py_get_default py_getitem dict_get String.eqb Ascii.eqb Bool.eqb
       bind].
  rewrite (cube_entry_lookup names keys vals) by assumption.
  cbn [dimension_entry snd py_get_default py_getitem py_contains dict_mem
       dict_get String.eqb Ascii.eqb Bool.eqb bind negb].
  rewrite (dict_get_in _ s (JInt (Z.of_nat k))); [reflexivity| |].
  - rewrite map_map. cbn [fst].
    rewrite <- (map_map snd str_of), enumerate_snd.
    apply cube_categories_distinct. exact Hj.
  - apply in_map_iff. exists (Z.of_nat k, SStr s). split; [reflexivity|].
    apply enumerate_nth. exact Hk.
Qed.

Lemma cube_size_list :
  own_or_dimension (cube_document names keys vals) "size"
  = Ok (JList (ints (sizes_of (map (first_seen keys)
                                   (seq 0 (List.length names)))))).
Proof.
  unfold own_or_dimension, cube_document, cube_dataset.
  cbn [py_get py_getitem dict_get String.eqb Ascii.eqb Bool.eqb bind].
  assert (Hs : map (fun j => JInt (Z.of_nat (List.length (first_seen keys j))))
                   (seq 0 (List.length names))
               = ints (sizes_of (map (first_seen keys)
                                     (seq 0 (List.length names))))).
  { unfold ints, sizes_of. rewrite !map_map. reflexivity. }
  rewrite Hs. clear -Hnames_ne. destruct names as [|n ns]; [congruence|].
  reflexivity.
Qed.

Lemma cube_id_list :
  own_or_dimension (cube_document names keys vals) "id"
  = Ok (JList (map (fun s => JStr s) names)).
Proof.
  unfold own_or_dimension, cube_document, cube_dataset.
  cbn [py_get py_getitem dict_get String.eqb Ascii.eqb Bool.eqb bind].
  clear -Hnames_ne. destruct names as [|n ns]; [congruence|]. reflexivity.
Qed.

Lemma cube_get_value (i : nat) (key : list scalar)
  (v : scalar) :
  nth_error keys i = Some key ->
  nth_error vals i = Some v ->
  get_value (cube_document names keys vals) (query_of names key)
  = Ok (JAtom v).
Proof.
  intros Hkey Hv.
  set (cols := map (first_seen keys) (seq 0 (List.length names))).
  assert (Hrow : nth_error (row_major cols) i = Some key)
    by (unfold cols; rewrite <- Horder; exact Hkey).
  destruct (row_major_position SNone cols i key Hrow)
    as (idx & Hidx & Hflat & Hpick).
  assert (Hlen : List.length idx = List.length names).
  { rewrite (Forall2_length Hidx). unfold cols.
    rewrite length_map, length_seq. reflexivity. }
  assert (Hwidth : List.length key = List.length names).
  { apply (key_width names keys); [assumption|].
    apply (nth_error_In _ _ Hkey). }
  assert (Hcat : forall j, (j < List.length names)%nat ->
            nth_error (first_seen keys j) (nth j idx 0%nat)
            = Some (nth j key SNone)).
  { intros j Hj.
    assert (Hjc : nth j cols [] = first_seen keys j).
    { unfold cols.
      rewrite (nth_indep _ [] (first_seen keys 0))
        by (rewrite length_map, length_seq; exact Hj).
      rewrite map_nth, seq_nth by exact Hj. reflexivity. }
    assert (Hk : (nth j idx 0 < List.length (first_seen keys j))%nat).
    { rewrite <- Hjc. apply Forall2_nth_lt; [exact Hidx|lia]. }
    rewrite (nth_error_nth' _ SNone Hk). f_equal.
    rewrite Hpick.
    symmetry.
    exact (eq_trans
             (map_nth (fun kc : nat * list scalar =>
                         nth (fst kc) (snd kc) SNone)
                      (combine idx cols) (0%nat, []) j)
             (eq_trans
                (f_equal (fun kc : nat * list scalar =>
                            nth (fst kc) (snd kc) SNone)
                         (combine_nth idx cols j 0%nat []
                            (Forall2_length Hidx)))
                (f_equal (fun c => nth (nth j idx 0%nat) c SNone) Hjc))). }
  unfold get_value, get_dimension_indices.
  rewrite cube_id_list. cbn [bind py_iter].
  assert (Hindices :
    mapM (fun id =>
            matches <- query_matches (query_of names key) id ;;
            v0 <- list_index matches 0 ;;
            get_dimension_index (cube_document names keys vals) id v0)
         (map (fun s => JStr s) names)
    = Ok (ints (map Z.of_nat idx))).
  { transitivity
      (mapM (fun id =>
               matches <- query_matches (query_of names key) id ;;
               v0 <- list_index matches 0 ;;
               get_dimension_index (cube_document names keys vals) id v0)
            (map (fun j => JStr (nth j names ""%string))
                 (seq 0 (List.length names)))).
    { f_equal. rewrite <- (map_map (fun j => nth j names ""%string)
                             (fun s => JStr s)).
      rewrite map_nth_seq. reflexivity. }
    rewrite (mapM_map_ok _ _ (fun j => JInt (Z.of_nat (nth j idx 0%nat)))).
    - f_equal. unfold ints. rewrite map_map, <- Hlen.
      rewrite <- (map_map (fun j => nth j idx 0%nat)
                    (fun k => JInt (Z.of_nat k))).
      rewrite map_nth_seq. reflexivity.
    - intros j Hj. apply in_seq in Hj.
      rewrite (query_matches_query_of names Hnames_nodup key j Hwidth)
        by lia.
      cbn [bind].
      change (list_index [nth j key SNone] 0) with (Ok (nth j key SNone)).
      cbn [bind]. apply cube_dimension_index; [lia|]. apply Hcat. lia. }
  rewrite Hindices. cbn [bind].
  rewrite (get_value_index_spec _ (sizes_of cols) (map Z.of_nat idx)
             cube_size_list)
    by (rewrite length_map; unfold sizes_of, cols;
        rewrite !length_map, length_seq; exact Hlen).
  cbn [bind]. rewrite Hflat.
  unfold get_value_by_index, cube_document, cube_dataset.
  cbn [py_getitem dict_get String.eqb Ascii.eqb Bool.eqb bind].
  apply list_index_nth. rewrite nth_error_map, Hv. reflexivity.
Qed.

(** The two readers of a document agree.  For every row of a cube table
    that lists its keys in row-major order, under column names of ASCII
    characters that are no numerals, [get_value] on the dataset
    read from the table, asked for the categories of the row, returns the
    value of the row: the value the decoded frame shows beside these
    categories. *)
Theorem get_value_agrees_with_table (i : nat) (key : list scalar)
  (v : scalar) :
  nth_error keys i = Some key ->
  nth_error vals i = Some v ->
  (d <- Dataset.read (FromFrame (cube_table names keys vals)) ;;
   get_value d (query_of names key))
  = Ok (JAtom v).
Proof using Hnames_ne Hnames_nodup Hnames_free Hnames_text Hvals
  Hvals_writable Hcells Horder.
  intros Hkey Hv. unfold Dataset.read.
  rewrite (encode_cube_table_dict names keys vals) by assumption.
  cbn [bind]. apply (cube_get_value i key v Hkey Hv).
Qed.

(** *** The default version

    [to_json_stat] writes version 1.3 unless asked otherwise: a bundle with
    the dataset under the name [dataset1], the ids and the sizes of the
    dimensions under [dimension]. *)

Section Legacy.
Hypothesis Hnames_id : ~ In "id"%string names.
Hypothesis Hnames_size : ~ In "size"%string names.






End Legacy.

End CubeReaders.

Lemma keys_2_2_cells (k : list scalar) (c : scalar) :
  In k keys_2_2 -> In c k -> exists s, c = SStr s.
Proof.
  intros Hk Hc. unfold keys_2_2 in Hk. simpl in Hk.
  repeat (destruct Hk as [<-|Hk];
          [simpl in Hc; repeat (destruct Hc as [<-|Hc]; [eauto|]);
           contradiction|]).
  contradiction.
Qed.

Lemma region_sex_nodup : NoDup ["region"; "sex"]%string.
Proof.
  constructor; [intros [H|[]]; discriminate H|].
  constructor; [intros []|constructor].
Qed.


Lemma get_value_agrees_with_table_witness :
  (NoDup ["region"; "sex"]%string /\
   keys_2_2 = row_major (map (first_seen keys_2_2) (seq 0 2)) /\
   nth_error keys_2_2 2 = Some [SStr "b"; SStr "x"] /\
   nth_error [SInt 1; SInt 2; SInt 3; SInt 4] 2 = Some (SInt 3)) /\
  (d <- Dataset.read
          (FromFrame (cube_table ["region"; "sex"]%string keys_2_2
                                 [SInt 1; SInt 2; SInt 3; SInt 4])) ;;
   get_value d (query_of ["region"; "sex"]%string [SStr "b"; SStr "x"]))
  = Ok (JInt 3).
Proof.
  split; [split; [exact region_sex_nodup|split; [|split]]; reflexivity|].
  apply (get_value_agrees_with_table ["region"; "sex"]%string keys_2_2
           [SInt 1; SInt 2; SInt 3; SInt 4]) with (i := 2%nat).
  - discriminate.
  - exact region_sex_nodup.
  - intros s [<-|[<-|[]]]; reflexivity.
  - intros s [<-|[<-|[]]]; split; reflexivity.
  - reflexivity.
  - exact writable_1_to_4.
  - exact keys_2_2_cells.
  - reflexivity.
  - reflexivity.
  - reflexivity.
Defined.


(** ** Column names that read as integers *)

Lemma mapM_total {A B} (f : A -> result B) (l : list A) :
  (forall x, In x l -> exists y, f x = Ok y) ->
  exists l', mapM f l = Ok l'.
Proof.
  induction l as [|x l IH]; intros H; [exists []; reflexivity|].
  destruct (H x) as (y & Hy); [left; reflexivity|].
  destruct IH as (l' & Hl'); [intros x' Hx'; apply H; right; exact Hx'|].
  exists (y :: l'). cbn [mapM]. rewrite Hy. cbn [bind]. rewrite Hl'.
  reflexivity.
Qed.

Lemma to_str_total (c : scalar) : c <> SNone -> exists y, to_str c = Ok y.
Proof.
  intros Hc. destruct c as [|z|s]; [contradiction| |].
  - eexists. reflexivity.
  - rewrite to_str_string. eauto.
Qed.

(** A column whose name reads as an integer but is not the decimal
    numeral of that integer (["007"], ["+1"], [" 12"]) does not survive
    the round trip: the encoder files the dimension under the numeral and
    lists the name itself among the ids, and the decoder looks the
    dimension up by that id.  The name is of a length every Python 3
    release converts, and the cells are such that the JSON text can hold
    them. *)
Theorem round_trip_breaks_on_integer_like_name (s : string) (z : Z)
  (cells : list (list scalar))
  (Hint : int_of_str s = Some z)
  (Hshort : (String.length s <= int_max_str_digits)%nat)
  (Hcanon : str_of_Z z <> s)
  (Hfree : str_contains s "value" = false)
  (Hcells : forall r, In r cells -> nth 0 r SNone <> SNone)
  (Hwritable : Forall (Forall writable) cells) :
  exists doc,
    to_json_stat (OneFrame (mkDF [SStr s; SStr "value"] cells))
                 "value" "dict" "2.0" = Ok doc /\
    forall naming, generate_df doc naming "value" = Raise KeyError.
Proof.
  assert (Hsv : String.eqb s "value" = false).
  { apply String.eqb_neq. intros ->. rewrite str_contains_refl in Hfree.
    discriminate. }
  assert (Hvs : String.eqb "value" s = false)
    by (rewrite String.eqb_sym; exact Hsv).
  set (t := mkDF [SStr s; SStr "value"] cells).
  set (dims := mkDF [SStr s] (map (fun r => [nth 0 r SNone]) cells)).
  assert (Hitems : items_not_in_value (columns t) "value" = Ok [SStr s]).
  { cbn [t columns items_not_in_value bind].
    rewrite Hfree, str_contains_refl. reflexivity. }
  assert (Hdims : df_filter t [SStr s] = Ok dims).
  { unfold df_filter. cbv zeta. cbn [t columns rows filter existsb].
    rewrite scalar_eqb_refl. cbn [orb scalars_eqb nodupb existsb scalar_eqb].
    rewrite String.eqb_refl, Hsv.
    cbn [andb orb negb List.length Nat.eqb map label_pos].
    rewrite scalar_eqb_refl. reflexivity. }
  assert (Hcat : exists entry,
             mapM (category_entry dims) (columns dims)
             = Ok [(str_of_Z z, entry)]).
  { change (columns dims) with [SStr s]. cbn [mapM]. unfold category_entry.
    unfold to_int at 1. cbn [py_int]. rewrite Hint.
    cbn [bind try_except]. rewrite to_str_string. cbn [bind].
    change (columns dims) with [SStr s]. cbn [label_pos].
    rewrite scalar_eqb_refl.
    set (col := table_column _ 0).
    assert (Hcol : forall c, In c (uniquify col) -> c <> SNone).
    { intros c Hc. rewrite uniquify_In in Hc.
      unfold col, table_column, dims in Hc.
      cbn [rows] in Hc. rewrite map_map in Hc. cbn [nth] in Hc.
      apply in_map_iff in Hc. destruct Hc as (r & <- & Hr).
      apply Hcells. exact Hr. }
    destruct (mapM_total
                (fun kj : Z * scalar =>
                   j' <- to_str (snd kj) ;;
                   k' <- to_int (SInt (fst kj)) ;;
                   Ok (json_key j', JAtom k'))
                (enumerate (uniquify col))) as (index & Hindex).
    { intros [k c] Hkc. apply enumerate_in in Hkc. cbn [fst snd] in *.
      destruct (to_str_total c (Hcol c Hkc)) as (y & ->).
      eexists. reflexivity. }
    destruct (mapM_total
                (fun kj : Z * scalar =>
                   j1 <- to_str (snd kj) ;;
                   j2 <- to_str (snd kj) ;;
                   Ok (json_key j1, JAtom j2))
                (enumerate (uniquify col))) as (labels & Hlabels).
    { intros [k c] Hkc. apply enumerate_in in Hkc. cbn [fst snd] in *.
      destruct (to_str_total c (Hcol c Hkc)) as (y & ->).
      eexists. reflexivity. }
    rewrite Hindex. cbn [bind]. rewrite Hlabels. cbn [bind json_key].
    eexists. reflexivity. }
  destruct Hcat as (entry & Hcat).
  assert (Hvals : exists vals, value_list t "value" = Ok vals).
  { unfold value_list. cbn [t columns filter scalar_eqb].
    rewrite Hvs, String.eqb_refl. cbn [label_pos scalar_eqb].
    rewrite Hsv, String.eqb_refl. eexists. reflexivity. }
  destruct Hvals as (vals & Hvals).
  eexists. split.
  - rewrite to_json_stat_one_dict. unfold encode_frame.
    rewrite Hitems. cbn [bind]. rewrite Hdims. cbn [bind].
    cbn [dims columns nodupb existsb negb andb]. fold dims.
    change (columns dims) with [SStr s] in Hcat. rewrite Hcat. cbn [bind].
    change (float_str_ge_2 "2.0") with (@Ok bool true). cbn [bind].
    rewrite Hvals. cbn [bind]. cbv zeta.
    rewrite assemble_dataset
      by (constructor; [intros []|constructor]).
    cbn [bind]. rewrite (dict_update_fresh [])
      by (cbn [app map fst]; apply (member_names_nodup "value");
          intros H; repeat (destruct H as [H|H]; [discriminate H|]); exact H).
    reflexivity.
  - intros naming. unfold generate_df, get_dimensions.
    cbn [app].
    match goal with
    | |- context [check_version_2 ?d] =>
        change (check_version_2 d) with (@Ok bool true)
    end.
    cbn [bind py_getitem dict_get String.eqb Ascii.eqb Bool.eqb py_iter map
         fold_left].
    unfold get_dimensions_step. cbn [bind py_getitem dict_get].
    change (String.eqb "dimension" "dimension") with true. cbv iota.
    cbn [bind py_getitem dict_get].
    destruct (String.eqb_spec (str_of_Z z) s) as [E|_]; [contradiction|].
    reflexivity.
Qed.

Lemma round_trip_breaks_on_integer_like_name_witness :
  (int_of_str "007" = Some 7 /\ str_of_Z 7 <> "007"%string /\
   str_contains "007" "value" = false) /\
  exists doc,
    to_json_stat (OneFrame (mkDF [SStr "007"; SStr "value"]
                                 [[SStr "a"; SInt 1]]))
                 "value" "dict" "2.0" = Ok doc /\
    generate_df doc "id" "value" = Raise KeyError.
Proof.
  split; [split; [reflexivity|split; [discriminate|reflexivity]]|].
  destruct (round_trip_breaks_on_integer_like_name "007" 7
              [[SStr "a"; SInt 1]]) as (doc & Hdoc & Hfail).
  - reflexivity.
  - apply Nat.leb_le. reflexivity.
  - discriminate.
  - reflexivity.
  - intros r [<-|[]]. discriminate.
  - plain_cells.
  - exists doc. split; [exact Hdoc|apply Hfail].
Defined.
